(** * HiGHS: the active-set QP solver driver and the clique-table query

    A shallow embedding of [src/qpsolver/solver.cpp] (the solve loop of the
    null-space active-set method and its helper functions) and of
    [HighsCliqueTable::haveCommonClique] from [src/mip/HighsCliqueTable.h].

    C++ [double] is IEEE binary64, embedded as Rocq's primitive [float];
    [HighsInt] is embedded as [Z].  The classes whose code is outside the
    translated files (Basis, NewCholeskyFactor, Gradient, ReducedCosts,
    ReducedGradient, Pricing, Matrix, most of Vector) are an interface,
    [Collaborators]: the results hold for every implementation of it. *)

From Stdlib Require Import ZArith List Bool Lia Floats.
Import ListNotations.
Local Open Scope Z_scope.

(** ** Numbers *)

Definition double : Set := float.

Definition fabs (x : double) : double := PrimFloat.abs x.
(** [a < b], [a > b], [a >= b] and [a == b] on doubles. *)
Definition double_lt (a b : double) : bool := PrimFloat.ltb a b.
Definition double_gt (a b : double) : bool := PrimFloat.ltb b a.
Definition double_ge (a b : double) : bool := PrimFloat.leb b a.
Definition double_eq (a b : double) : bool := PrimFloat.eqb a b.
(** [std::numeric_limits<double>::infinity()] *)
Definition double_infinity : double := PrimFloat.infinity.

(** The conversion of a [HighsInt] to [double] that C++ inserts when an
    integer is compared with a double. *)
Definition HighsInt_to_double (z : Z) : double :=
  if z <? 0 then PrimFloat.opp (PrimFloat.of_uint63 (Uint63.of_Z (- z)))
  else PrimFloat.of_uint63 (Uint63.of_Z z).

(** [unsigned] is 32 bits wide: the conversion of a [HighsInt] wraps. *)
Definition to_unsigned (z : Z) : Z := z mod 2 ^ 32.

(** ** Control flow

    A statement either falls through ([Go]), leaves the enclosing function
    or loop by [return] / [break] ([Stop]), ends the process by [exit(code)]
    ([Exit]), or traps on an integer division by zero ([Fault]). *)

Inductive ctl (R A : Type) : Type :=
| Go (a : A)
| Stop (r : R)
| Exit (code : Z)
| Fault.
Arguments Go {R A} a.
Arguments Stop {R A} r.
Arguments Exit {R A} code.
Arguments Fault {R A}.

(** Sequencing inside one function body or loop body: what follows a
    [return] or [break] is not run. *)
Definition andthen {R A B : Type} (c : ctl R A) (k : A -> ctl R B) : ctl R B :=
  match c with
  | Go a => k a
  | Stop r => Stop r
  | Exit code => Exit code
  | Fault => Fault
  end.

(** A call: a [return] in the callee is a normal completion for the caller,
    [exit] still ends the process. *)
Definition call {R A : Type} (c : ctl A A) : ctl R A :=
  match c with
  | Go a | Stop a => Go a
  | Exit code => Exit code
  | Fault => Fault
  end.

Notation "x <- c ;; k" := (andthen c (fun x => k))
  (at level 61, c at next level, right associativity).

(** ** Arrays ([std::vector] indexed by a [HighsInt])

    Reading or writing outside the array is undefined behaviour in the
    source; here a read outside gives the default and a write outside does
    nothing. *)

Definition geti (l : list Z) (i : Z) : Z :=
  if i <? 0 then 0 else nth (Z.to_nat i) l 0.

Definition getd (l : list double) (i : Z) : double :=
  if i <? 0 then PrimFloat.zero else nth (Z.to_nat i) l PrimFloat.zero.

Fixpoint set_nth {A : Type} (l : list A) (n : nat) (x : A) : list A :=
  match l, n with
  | [], _ => []
  | _ :: t, O => x :: t
  | h :: t, S n' => h :: set_nth t n' x
  end.

Definition setd (l : list double) (i : Z) (x : double) : list double :=
  if i <? 0 then l else set_nth l (Z.to_nat i) x.

Definition seti (l : list Z) (i : Z) (x : Z) : list Z :=
  if i <? 0 then l else set_nth l (Z.to_nat i) x.

(** ** Vector

    The fields are the ones [solver.cpp] reads and writes directly. *)

Record Vector : Type := mkVector {
  num_nz : Z;
  dim : Z;
  index : list Z;
  value : list double
}.

Definition Vector_with_value (v : Vector) (l : list double) : Vector :=
  mkVector (num_nz v) (dim v) (index v) l.

Definition Vector_with_dim (v : Vector) (d : Z) : Vector :=
  mkVector (num_nz v) d (index v) (value v).

(** Modelled from the spec: [Vector::unit] (vector.hpp is not among the
    translated files) is the "unit-vector construction" of the Vector
    component: the vector of dimension [d] whose only nonzero is a 1 at
    position [u].  The previous contents of the target are discarded. *)
Definition Vector_unit (d : Z) (u : Z) (target : Vector) : Vector :=
  mkVector 1 d
           (seti (repeat 0 (Z.to_nat d)) 0 u)
           (setd (repeat PrimFloat.zero (Z.to_nat d)) u PrimFloat.one).

(** Modelled from the spec: [indexof] (snippets.hpp is not among the
    translated files) gives the position of the first occurrence of an
    element, and -1 when the element is not in the list; [reduce] tests its
    result against -1 to see whether the entering constraint is among the
    inactive indices. *)
Fixpoint indexof_from (l : list Z) (element : Z) (i : Z) : Z :=
  match l with
  | [] => -1
  | h :: t => if h =? element then i else indexof_from t element (i + 1)
  end.

Definition indexof (l : list Z) (element : Z) : Z := indexof_from l element 0.

(** ** Data model of the solver *)

Inductive ProblemStatus : Set :=
| NOTSET | OPTIMAL | INFEASIBLE | UNBOUNDED | ITERATIONLIMIT | TIMELIMIT | ERROR.

Inductive BasisStatus : Set :=
| Default | ActiveAtLower | ActiveAtUpper.

Record RatiotestResult : Type := mkRatiotestResult {
  alpha : double;
  limitingconstraint : Z;
  nowactiveatlower : bool
}.

Record SumNum : Type := mkSumNum { sum : double; num : Z }.

(** The wall clock, read by [readRunHighsClock] and by
    [high_resolution_clock::now]: every reading takes the next value of an
    arbitrary sequence. *)
Record HighsTimer : Type := mkTimer {
  clock : nat -> double;
  reads : nat
}.

Definition readRunHighsClock (t : HighsTimer) : HighsTimer * double :=
  (mkTimer (clock t) (S (reads t)), clock t (reads t)).

Record Statistics : Type := mkStatistics {
  num_iterations : Z;
  time_start : double;
  time_end : double;
  iteration : list Z;
  nullspacedimension : list Z;
  objval : list double;
  time : list double;
  sum_primal_infeasibilities : list double;
  num_primal_infeasibilities : list Z;
  density_factor : list double;
  density_nullspace : list double
}.

(** [MatrixBase]: the compressed storage [computerowmove] reads. *)
Record MatrixBase : Type := mkMatrixBase {
  mb_start : list Z;
  mb_index : list Z;
  mb_value : list double
}.

(** The classes of the solver whose definitions are outside the translated
    files, as abstract types. *)
Class Types : Type := {
  Matrix : Type;
  InstanceData : Type;
  Basis : Type;
  Gradient : Type;
  ReducedCosts : Type;
  ReducedGradient : Type;
  NewCholeskyFactor : Type;
  Pricing : Type
}.

Section DataModel.
Context {T : Types}.

(** [Instance]: the counts and matrices [solver.cpp] uses; costs and bounds,
    which only the collaborators read, are [other]. *)
Record Instance : Type := mkInstance {
  num_var : Z;
  num_con : Z;
  Q : Matrix;
  A : Matrix;
  other : InstanceData
}.

Record Settings : Type := mkSettings {
  iterationlimit : Z;
  timelimit : double;
  reportingfequency : Z;
  d_zero_threshold : double;
  pnorm_zero_threshold : double;
  (** [settings.ratiotest->ratiotest(x, p, rowact, rowmove, instance, alphastart)] *)
  ratiotest : Vector -> Vector -> Vector -> Vector -> Instance -> double ->
              RatiotestResult
}.

(** [notified] stands for [endofiterationevent]: the subscribers are outside
    the translated files and are informational only, so a firing is recorded
    as the iteration count at which it happened. *)
Record Runtime : Type := mkRuntime {
  instance : Instance;
  settings : Settings;
  statistics : Statistics;
  primal : Vector;
  rowactivity : Vector;
  dualvar : Vector;
  dualcon : Vector;
  status : ProblemStatus;
  timer : HighsTimer;
  notified : list Z
}.

Record CrashSolution : Type := mkCrashSolution {
  crash_active : list Z;
  crash_inactive : list Z;
  crash_rowstatus : list BasisStatus;
  crash_primal : Vector;
  crash_rowact : Vector
}.

(** The objects and buffers of [Solver::solve(x0, ra, b0)] that live across
    loop iterations. *)
Record State : Type := mkState {
  runtime : Runtime;
  basis : Basis;
  gradient : Gradient;
  redcosts : ReducedCosts;
  redgrad : ReducedGradient;
  factor : NewCholeskyFactor;
  pricing : Pricing;
  p : Vector;
  rowmove : Vector;
  buffer_yp : Vector;
  buffer_gyp : Vector;
  buffer_l : Vector;
  buffer_Qp : Vector;
  buffer_d : Vector;
  atfsep : bool
}.

(** *** Field updates *)

Definition st_with_num_iterations (st : Statistics) (x : Z) : Statistics :=
  mkStatistics x (time_start st) (time_end st) (iteration st)
               (nullspacedimension st) (objval st) (time st)
               (sum_primal_infeasibilities st) (num_primal_infeasibilities st)
               (density_factor st) (density_nullspace st).
Definition st_with_time_start (st : Statistics) (x : double) : Statistics :=
  mkStatistics (num_iterations st) x (time_end st) (iteration st)
               (nullspacedimension st) (objval st) (time st)
               (sum_primal_infeasibilities st) (num_primal_infeasibilities st)
               (density_factor st) (density_nullspace st).
Definition st_with_time_end (st : Statistics) (x : double) : Statistics :=
  mkStatistics (num_iterations st) (time_start st) x (iteration st)
               (nullspacedimension st) (objval st) (time st)
               (sum_primal_infeasibilities st) (num_primal_infeasibilities st)
               (density_factor st) (density_nullspace st).

Definition rt_with_statistics (r : Runtime) (x : Statistics) : Runtime :=
  mkRuntime (instance r) (settings r) x (primal r) (rowactivity r) (dualvar r)
            (dualcon r) (status r) (timer r) (notified r).
Definition rt_with_primal (r : Runtime) (x : Vector) : Runtime :=
  mkRuntime (instance r) (settings r) (statistics r) x (rowactivity r) (dualvar r)
            (dualcon r) (status r) (timer r) (notified r).
Definition rt_with_rowactivity (r : Runtime) (x : Vector) : Runtime :=
  mkRuntime (instance r) (settings r) (statistics r) (primal r) x (dualvar r)
            (dualcon r) (status r) (timer r) (notified r).
Definition rt_with_dualvar (r : Runtime) (x : Vector) : Runtime :=
  mkRuntime (instance r) (settings r) (statistics r) (primal r) (rowactivity r) x
            (dualcon r) (status r) (timer r) (notified r).
Definition rt_with_dualcon (r : Runtime) (x : Vector) : Runtime :=
  mkRuntime (instance r) (settings r) (statistics r) (primal r) (rowactivity r)
            (dualvar r) x (status r) (timer r) (notified r).
Definition rt_with_status (r : Runtime) (x : ProblemStatus) : Runtime :=
  mkRuntime (instance r) (settings r) (statistics r) (primal r) (rowactivity r)
            (dualvar r) (dualcon r) x (timer r) (notified r).
Definition rt_with_timer (r : Runtime) (x : HighsTimer) : Runtime :=
  mkRuntime (instance r) (settings r) (statistics r) (primal r) (rowactivity r)
            (dualvar r) (dualcon r) (status r) x (notified r).
Definition rt_with_notified (r : Runtime) (x : list Z) : Runtime :=
  mkRuntime (instance r) (settings r) (statistics r) (primal r) (rowactivity r)
            (dualvar r) (dualcon r) (status r) (timer r) x.

Definition with_runtime (s : State) (x : Runtime) : State :=
  mkState x (basis s) (gradient s) (redcosts s) (redgrad s) (factor s) (pricing s)
          (p s) (rowmove s) (buffer_yp s) (buffer_gyp s) (buffer_l s) (buffer_Qp s)
          (buffer_d s) (atfsep s).
Definition with_basis (s : State) (x : Basis) : State :=
  mkState (runtime s) x (gradient s) (redcosts s) (redgrad s) (factor s) (pricing s)
          (p s) (rowmove s) (buffer_yp s) (buffer_gyp s) (buffer_l s) (buffer_Qp s)
          (buffer_d s) (atfsep s).
Definition with_gradient (s : State) (x : Gradient) : State :=
  mkState (runtime s) (basis s) x (redcosts s) (redgrad s) (factor s) (pricing s)
          (p s) (rowmove s) (buffer_yp s) (buffer_gyp s) (buffer_l s) (buffer_Qp s)
          (buffer_d s) (atfsep s).
Definition with_redcosts (s : State) (x : ReducedCosts) : State :=
  mkState (runtime s) (basis s) (gradient s) x (redgrad s) (factor s) (pricing s)
          (p s) (rowmove s) (buffer_yp s) (buffer_gyp s) (buffer_l s) (buffer_Qp s)
          (buffer_d s) (atfsep s).
Definition with_redgrad (s : State) (x : ReducedGradient) : State :=
  mkState (runtime s) (basis s) (gradient s) (redcosts s) x (factor s) (pricing s)
          (p s) (rowmove s) (buffer_yp s) (buffer_gyp s) (buffer_l s) (buffer_Qp s)
          (buffer_d s) (atfsep s).
Definition with_factor (s : State) (x : NewCholeskyFactor) : State :=
  mkState (runtime s) (basis s) (gradient s) (redcosts s) (redgrad s) x (pricing s)
          (p s) (rowmove s) (buffer_yp s) (buffer_gyp s) (buffer_l s) (buffer_Qp s)
          (buffer_d s) (atfsep s).
Definition with_pricing (s : State) (x : Pricing) : State :=
  mkState (runtime s) (basis s) (gradient s) (redcosts s) (redgrad s) (factor s) x
          (p s) (rowmove s) (buffer_yp s) (buffer_gyp s) (buffer_l s) (buffer_Qp s)
          (buffer_d s) (atfsep s).
Definition with_p (s : State) (x : Vector) : State :=
  mkState (runtime s) (basis s) (gradient s) (redcosts s) (redgrad s) (factor s)
          (pricing s) x (rowmove s) (buffer_yp s) (buffer_gyp s) (buffer_l s)
          (buffer_Qp s) (buffer_d s) (atfsep s).
Definition with_rowmove (s : State) (x : Vector) : State :=
  mkState (runtime s) (basis s) (gradient s) (redcosts s) (redgrad s) (factor s)
          (pricing s) (p s) x (buffer_yp s) (buffer_gyp s) (buffer_l s)
          (buffer_Qp s) (buffer_d s) (atfsep s).
Definition with_buffer_yp (s : State) (x : Vector) : State :=
  mkState (runtime s) (basis s) (gradient s) (redcosts s) (redgrad s) (factor s)
          (pricing s) (p s) (rowmove s) x (buffer_gyp s) (buffer_l s)
          (buffer_Qp s) (buffer_d s) (atfsep s).
Definition with_buffer_gyp (s : State) (x : Vector) : State :=
  mkState (runtime s) (basis s) (gradient s) (redcosts s) (redgrad s) (factor s)
          (pricing s) (p s) (rowmove s) (buffer_yp s) x (buffer_l s)
          (buffer_Qp s) (buffer_d s) (atfsep s).
Definition with_buffer_l (s : State) (x : Vector) : State :=
  mkState (runtime s) (basis s) (gradient s) (redcosts s) (redgrad s) (factor s)
          (pricing s) (p s) (rowmove s) (buffer_yp s) (buffer_gyp s) x
          (buffer_Qp s) (buffer_d s) (atfsep s).
Definition with_buffer_Qp (s : State) (x : Vector) : State :=
  mkState (runtime s) (basis s) (gradient s) (redcosts s) (redgrad s) (factor s)
          (pricing s) (p s) (rowmove s) (buffer_yp s) (buffer_gyp s) (buffer_l s)
          x (buffer_d s) (atfsep s).
Definition with_buffer_d (s : State) (x : Vector) : State :=
  mkState (runtime s) (basis s) (gradient s) (redcosts s) (redgrad s) (factor s)
          (pricing s) (p s) (rowmove s) (buffer_yp s) (buffer_gyp s) (buffer_l s)
          (buffer_Qp s) x (atfsep s).
Definition with_atfsep (s : State) (x : bool) : State :=
  mkState (runtime s) (basis s) (gradient s) (redcosts s) (redgrad s) (factor s)
          (pricing s) (p s) (rowmove s) (buffer_yp s) (buffer_gyp s) (buffer_l s)
          (buffer_Qp s) (buffer_d s) x.

Definition with_status (s : State) (x : ProblemStatus) : State :=
  with_runtime s (rt_with_status (runtime s) x).
Definition with_primal (s : State) (x : Vector) : State :=
  with_runtime s (rt_with_primal (runtime s) x).
Definition with_rowactivity (s : State) (x : Vector) : State :=
  with_runtime s (rt_with_rowactivity (runtime s) x).

End DataModel.

(** ** The collaborators of the solver

    Their code is outside the translated files, so they are an interface.
    Every object holds references into the solver's object graph (the
    runtime, the basis, the gradient, ...): a method is given the current
    [State] to read, and hands back its own updated object next to its
    result. *)

Class Collaborators {T : Types} : Type := {
  (** vector.hpp *)
  Vector_new : Z -> Vector;
  Vector_mul : Vector -> Vector -> double;
  Vector_dot : Vector -> Vector -> double;
  Vector_dot_sparse : Vector -> list Z -> list double -> Z -> double;
  Vector_norm2 : Vector -> double;
  Vector_saxpy : Vector -> double -> Vector -> Vector;
  Vector_saxpy2 : Vector -> double -> double -> Vector -> Vector;
  Vector_repopulate : Vector -> Vector -> Vector;
  Vector_scale : Vector -> double -> Vector;
  Vector_neg : Vector -> Vector;
  Vector_sanitize : Vector -> Vector;
  Vector_resparsify : Vector -> Vector;
  (** matrix.hpp: [M.mat_vec(x, target)], [M.t()], [Mt.vec_mat(x, target)],
      [Mt.extractcol(i)] *)
  Matrix_mat_vec : Matrix -> Vector -> Vector -> Vector;
  Matrix_t : Matrix -> MatrixBase;
  MatrixBase_vec_mat : MatrixBase -> Vector -> Vector -> Vector;
  MatrixBase_extractcol : MatrixBase -> Z -> Vector;
  (** instance.hpp *)
  Instance_objval : Instance -> Vector -> double;
  Instance_sumnumprimalinfeasibilities : Instance -> Vector -> Vector -> SumNum;
  (** feasibility_highs.hpp *)
  computestartingpoint : Runtime -> Runtime * CrashSolution;
  (** basis.hpp *)
  Basis_new : Runtime -> list Z -> list BasisStatus -> list Z -> Basis;
  getnumactive : Basis -> Z;
  getnuminactive : Basis -> Z;
  getactive : Basis -> list Z;
  getinactive : Basis -> list Z;
  getindexinfactor : Basis -> list Z;
  getstatus : Basis -> Z -> BasisStatus;
  Basis_deactivate : State -> Z -> Basis;
  Basis_activate : State -> Z -> BasisStatus -> Z -> Basis * Pricing;
  Basis_btran : State -> Vector -> Vector -> bool -> Z -> Basis * Vector;
  Basis_Zprod : State -> Vector -> Vector -> Basis * Vector;
  Basis_Ztprod : State -> Vector -> Vector -> bool -> Z -> Basis * Vector;
  Basis_recomputex : State -> Instance -> Vector;
  (** gradient.hpp *)
  Gradient_new : Runtime -> Gradient;
  getGradient : State -> Gradient * Vector;
  Gradient_update : State -> Vector -> double -> Gradient;
  (** reducedcosts.hpp *)
  ReducedCosts_new : Runtime -> Basis -> Gradient -> ReducedCosts;
  getReducedCosts : State -> ReducedCosts * Vector;
  ReducedCosts_update : State -> ReducedCosts;
  (** reducedgradient.hpp *)
  ReducedGradient_new : Runtime -> Basis -> Gradient -> ReducedGradient;
  ReducedGradient_get : State -> ReducedGradient * Vector;
  ReducedGradient_expand : State -> Vector -> ReducedGradient;
  ReducedGradient_reduce : State -> Vector -> Z -> ReducedGradient;
  ReducedGradient_update : State -> double -> bool -> ReducedGradient;
  (** factor.hpp *)
  NewCholeskyFactor_new : Runtime -> Basis -> NewCholeskyFactor;
  NewCholeskyFactor_solve : State -> Vector -> NewCholeskyFactor * Vector;
  NewCholeskyFactor_solveL : State -> Vector -> NewCholeskyFactor * Vector;
  NewCholeskyFactor_solveLT : State -> Vector -> NewCholeskyFactor * Vector;
  NewCholeskyFactor_expand : State -> Vector -> Vector -> Vector -> NewCholeskyFactor;
  NewCholeskyFactor_reduce : State -> Vector -> Z -> bool -> NewCholeskyFactor;
  NewCholeskyFactor_density : NewCholeskyFactor -> double;
  (** devexpricing.hpp: [DevexPricing(runtime, basis, redcosts)] and
      [price(x, gradient)] *)
  DevexPricing_new : Runtime -> Basis -> ReducedCosts -> Pricing;
  Pricing_price : State -> Vector -> Vector -> Pricing * Z
}.

(** ** The functions of solver.cpp *)

Section Solver.
Context {T : Types} {C : Collaborators}.

(** [Solver::loginformation(rt, basis, factor)] *)
Definition loginformation (s : State) : State :=
  let rt := runtime s in
  let st := statistics rt in
  let '(tm, now) := readRunHighsClock (timer rt) in
  let sm := Instance_sumnumprimalinfeasibilities (instance rt) (primal rt)
                                                 (rowactivity rt) in
  let st' :=
    mkStatistics
      (num_iterations st) (time_start st) (time_end st)
      (iteration st ++ [num_iterations st])
      (nullspacedimension st ++ [num_var (instance rt) - getnumactive (basis s)])
      (objval st ++ [Instance_objval (instance rt) (primal rt)])
      (time st ++ [now])
      (sum_primal_infeasibilities st ++ [sum sm])
      (num_primal_infeasibilities st ++ [num sm])
      (density_factor st ++ [NewCholeskyFactor_density (factor s)])
      (density_nullspace st ++ [PrimFloat.zero]) in
  with_runtime s (rt_with_timer (rt_with_statistics rt st') tm).

(** [runtime.endofiterationevent.fire(runtime)] *)
Definition fire (s : State) : State :=
  let rt := runtime s in
  with_runtime s (rt_with_notified rt (notified rt ++ [num_iterations (statistics rt)])).

(** One pass of the loop of [tidyup]: [acon] is an [unsigned]. *)
Definition tidyup_one (ncon : Z) (pr : Vector * Vector) (e : Z) : Vector * Vector :=
  let '(pv, rm) := pr in
  let acon := to_unsigned e in
  if to_unsigned ncon <=? acon
  then (Vector_with_value pv (setd (value pv) (to_unsigned (acon - ncon)) PrimFloat.zero), rm)
  else (pv, Vector_with_value rm (setd (value rm) acon PrimFloat.zero)).

(** [tidyup(p, rowmove, basis, runtime)] *)
Definition tidyup (s : State) : State :=
  let '(pv, rm) :=
    fold_left (tidyup_one (num_con (instance (runtime s))))
              (getactive (basis s)) (p s, rowmove s) in
  with_rowmove (with_p s pv) rm.

(** The loop of [computerowmove] that follows its second [return]. *)
Definition computerowmove_row (s : State) (Atran : MatrixBase) (rm : Vector) (i : Z)
  : Vector :=
  match getstatus (basis s) i with
  | Default =>
      let st := geti (mb_start Atran) i in
      let val := Vector_dot_sparse (p s)
                   (skipn (Z.to_nat st) (mb_index Atran))
                   (skipn (Z.to_nat st) (mb_value Atran))
                   (geti (mb_start Atran) (i + 1) - st) in
      Vector_with_value rm (setd (value rm) i val)
  | _ => Vector_with_value rm (setd (value rm) i PrimFloat.zero)
  end.

(** [computerowmove(runtime, basis, p, rowmove)], statement by statement,
    with the statements that follow the first [return] kept. *)
Definition computerowmove_body (s : State) : ctl State State :=
  s <- Go (with_rowmove s (Matrix_mat_vec (A (instance (runtime s))) (p s) (rowmove s))) ;;
  s <- Stop s ;;
  let Atran := Matrix_t (A (instance (runtime s))) in
  s <- Go (with_rowmove s (MatrixBase_vec_mat Atran (p s) (rowmove s))) ;;
  s <- Stop s ;;
  s <- Go (with_rowmove s
             (fold_left (computerowmove_row s Atran)
                        (map Z.of_nat (seq 0 (Z.to_nat (num_con (instance (runtime s))))))
                        (rowmove s))) ;;
  Go (with_rowmove s (Vector_resparsify (rowmove s))).

(** What the caller of a function that neither exits nor traps continues
    with. *)
Definition returned {X : Type} (dflt : X) (c : ctl X X) : X :=
  match c with
  | Go a | Stop a => a
  | _ => dflt
  end.

Definition computerowmove (s : State) : State :=
  returned s (computerowmove_body s).

(** What [computerowmove] is specified to compute: the plain product of the
    constraint matrix with the direction, [rowmove := A p]. *)
Definition rowmove_spec (s : State) : Vector :=
  Matrix_mat_vec (A (instance (runtime s))) (p s) (rowmove s).

(** [computesearchdirection_minor(rt, bas, cf, redgrad, p)] *)
Definition computesearchdirection_minor (s : State) : State :=
  let '(rg, g) := ReducedGradient_get s in
  let s := with_redgrad s rg in
  let g2 := Vector_sanitize (Vector_neg g) in
  let '(cf, g2) := NewCholeskyFactor_solve s g2 in
  let s := with_factor s cf in
  let g2 := Vector_sanitize g2 in
  let '(b, pv) := Basis_Zprod s g2 (p s) in
  with_p (with_basis s b) pv.

(** [computesearchdirection_major(runtime, basis, factor, yp, gradient, gyp, l, p)]
    with [yp = buffer_yp], [gyp = buffer_gyp], [l = buffer_l]. *)
Definition computesearchdirection_major (s : State) : State :=
  let yp := buffer_yp s in
  let yyp := yp in
  let s := with_buffer_gyp s (Matrix_mat_vec (Q (instance (runtime s))) yyp (buffer_gyp s)) in
  if getnumactive (basis s) <? num_var (instance (runtime s)) then
    let '(b, l) := Basis_Ztprod s (buffer_gyp s) (buffer_l s) false (-1) in
    let s := with_buffer_l (with_basis s b) l in
    let '(cf, l) := NewCholeskyFactor_solveL s (buffer_l s) in
    let s := with_buffer_l (with_factor s cf) l in
    let v := buffer_l s in
    let '(cf, v) := NewCholeskyFactor_solveLT s v in
    let s := with_factor s cf in
    let '(b, pv) := Basis_Zprod s v (p s) in
    let s := with_p (with_basis s b) pv in
    let '(g, grad) := getGradient s in
    let s := with_gradient s g in
    if double_lt (Vector_dot grad yyp) PrimFloat.zero
    then with_p s (Vector_saxpy2 (p s) (PrimFloat.opp PrimFloat.one) PrimFloat.one yyp)
    else with_p s (Vector_saxpy2 (p s) (PrimFloat.opp PrimFloat.one)
                                 (PrimFloat.opp PrimFloat.one) yyp)
  else
    let '(g, grad) := getGradient s in
    let s := with_gradient s g in
    with_p s (Vector_scale (Vector_repopulate (p s) yp)
                           (PrimFloat.opp (Vector_dot grad yp))).

(** The literal [10E-5]. *)
Definition curvature_threshold : double := 0x1.a36e2eb1c432dp-14%float.

(** [p * runtime.instance.Q.mat_vec(p, buffer_Qp)] *)
Definition curvature (s : State) : State * double :=
  let qp := Matrix_mat_vec (Q (instance (runtime s))) (p s) (buffer_Qp s) in
  (with_buffer_Qp s qp, Vector_mul (p s) qp).

(** [computemaxsteplength(runtime, p, gradient, buffer_Qp, zcd)]: the state,
    the returned step length and the value of [zcd] afterwards. *)
Definition computemaxsteplength (s : State) (zcd : bool) : State * double * bool :=
  let '(s, denominator) := curvature s in
  if double_gt (fabs denominator) curvature_threshold then
    let '(g, grad) := getGradient s in
    let s := with_gradient s g in
    let numerator := PrimFloat.opp (Vector_mul (p s) grad) in
    if double_lt numerator PrimFloat.zero
    then (s, PrimFloat.zero, zcd)
    else (s, PrimFloat.div numerator denominator, zcd)
  else (s, double_infinity, true).


(** The scan of [reduce] for the entry of largest magnitude: one pass of
    its loop, [k] being [buffer_d.index[i]]. *)
Definition maxabsd_step (d : Vector) (maxabsd k : Z) : Z :=
  if double_gt (fabs (getd (value d) k)) (fabs (getd (value d) maxabsd))
  then k else maxabsd.

Definition maxabsd_scan (d : Vector) : Z :=
  fold_left (maxabsd_step d) (firstn (Z.to_nat (num_nz d)) (index d)) 0.

(** The part of [reduce] that computes the direction [d] into [buffer_d]:
    column [newactivecon] of the transposed constraint matrix, projected
    by [Ztprod]. *)
Definition reduce_direction (s : State) (newactivecon : Z) : State :=
  let aq := MatrixBase_extractcol (Matrix_t (A (instance (runtime s)))) newactivecon in
  let '(b, d) := Basis_Ztprod s aq (buffer_d s) true newactivecon in
  with_buffer_d (with_basis s b) d.

(** [reduce(rt, basis, newactivecon, buffer_d, maxabsd, constrainttodrop)]:
    the state with the values of the two output parameters [maxabsd] and
    [constrainttodrop]. *)
Definition reduce (s : State) (newactivecon : Z) : ctl (State * Z * Z) (State * Z * Z) :=
  let idx := indexof (getinactive (basis s)) newactivecon in
  if negb (idx =? -1) then
    let maxabsd := idx in
    let constrainttodrop := newactivecon in
    let s := with_buffer_d s (Vector_unit (Z.of_nat (length (getinactive (basis s))))
                                          idx (buffer_d s)) in
    Stop (s, maxabsd, constrainttodrop)
  else
    let s := reduce_direction s newactivecon in
    let maxabsd := maxabsd_scan (buffer_d s) in
    let constrainttodrop := geti (getinactive (basis s)) maxabsd in
    if double_lt (fabs (getd (value (buffer_d s)) maxabsd))
                 (d_zero_threshold (settings (runtime s)))
    then Exit 1
    else Stop (s, maxabsd, constrainttodrop).

(** *** The loop body of [Solver::solve(x0, ra, b0)] *)

(** The iteration-limit and time-limit checks. *)
Definition check_limits (s : State) : ctl State State :=
  if iterationlimit (settings (runtime s)) <=? num_iterations (statistics (runtime s))
  then Stop (with_status s ITERATIONLIMIT)
  else
    let '(tm, now) := readRunHighsClock (timer (runtime s)) in
    let s := with_runtime s (rt_with_timer (runtime s) tm) in
    if double_ge now (timelimit (settings (runtime s)))
    then Stop (with_status s TIMELIMIT)
    else Go s.

(** Logging every [reportingfequency] iterations, then
    [num_iterations++].  The remainder by zero traps. *)
Definition report (s : State) : ctl State State :=
  let n := num_iterations (statistics (runtime s)) in
  let f := reportingfequency (settings (runtime s)) in
  if f =? 0 then Fault
  else
    let s := if Z.rem n f =? 0 then fire (loginformation s) else s in
    let rt := runtime s in
    Go (with_runtime s
          (rt_with_statistics rt
             (st_with_num_iterations (statistics rt)
                                     (num_iterations (statistics rt) + 1)))).

(** The [atfsep] branch from the unit vector to [tidyup]: the major search
    direction for the index [minidx] chosen by pricing. *)
Definition major_direction (s : State) (minidx : Z) : State :=
  let unit := geti (getindexinfactor (basis s)) minidx in
  let s := with_buffer_yp s (Vector_unit (num_var (instance (runtime s))) unit
                                         (buffer_yp s)) in
  let '(b, yp) := Basis_btran s (buffer_yp s) (buffer_yp s) true minidx in
  let s := with_buffer_yp (with_basis s b) yp in
  let s := with_buffer_l s (Vector_with_dim (buffer_l s) (getnuminactive (basis s))) in
  let s := computesearchdirection_major s in
  let s := with_basis s (Basis_deactivate s minidx) in
  let s := computerowmove s in
  tidyup s.

(** The rest of the [atfsep] branch: the step length from the curvature and
    the updates of the factor and of the reduced gradient. *)
Definition major_update (s : State) : State * double * bool :=
  let zero_curvature_direction := false in
  let '(s, denominator) := curvature s in
  let '(s, maxsteplength, zero_curvature_direction) :=
    computemaxsteplength s zero_curvature_direction in
  let s := if negb zero_curvature_direction
           then with_factor s (NewCholeskyFactor_expand s (buffer_yp s) (buffer_gyp s)
                                                        (buffer_l s))
           else s in
  let s := with_redgrad s (ReducedGradient_expand s (buffer_yp s)) in
  (s, maxsteplength, zero_curvature_direction).

(** [pricing->price(runtime.primal, gradient.getGradient())]: the state
    afterwards and the index. *)
Definition priced (s : State) : State * Z :=
  let '(g, grad) := getGradient s in
  let s := with_gradient s g in
  let '(pr, minidx) := Pricing_price s (primal (runtime s)) grad in
  (with_pricing s pr, minidx).

(** The [atfsep] branch: pricing, then the major direction. *)
Definition at_vertex (s : State) : ctl State (State * double * bool) :=
  let '(s, minidx) := priced s in
  if minidx =? -1 then Stop (with_status s OPTIMAL)
  else Go (major_update (major_direction s minidx)).

(** The other branch: the minor direction. *)
Definition on_face (s : State) : State :=
  tidyup (computerowmove (computesearchdirection_minor s)).

(** A blocking constraint was found: it is activated. *)
Definition blocked (s : State) (stepres : RatiotestResult) (zcd : bool)
  : ctl State State :=
  let lc := limitingconstraint stepres in
  r <- call (reduce s lc) ;;
  let '(s, maxabsd, constrainttodrop) := r in
  let s := if negb zcd
           then with_factor s
                  (NewCholeskyFactor_reduce s (buffer_d s) maxabsd
                     (negb (indexof (getinactive (basis s)) lc =? -1)))
           else s in
  let s := with_redgrad s (ReducedGradient_reduce s (buffer_d s) maxabsd) in
  let s := with_redgrad s (ReducedGradient_update s (alpha stepres) false) in
  let '(b, pr) := Basis_activate s lc
                    (if nowactiveatlower stepres then ActiveAtLower else ActiveAtUpper)
                    constrainttodrop in
  let s := with_pricing (with_basis s b) pr in
  Go (if negb (getnumactive (basis s) =? num_var (instance (runtime s)))
      then with_atfsep s false else s).

(** No constraint blocks. *)
Definition unblocked (s : State) (stepres : RatiotestResult) : State :=
  let s := if double_eq (HighsInt_to_double (limitingconstraint stepres))
                        double_infinity
           then with_status s UNBOUNDED else s in
  let s := with_atfsep s true in
  with_redgrad s (ReducedGradient_update s (alpha stepres) false).

(** The updates after either case: gradient, reduced costs, the point. *)
Definition advance (s : State) (stepres : RatiotestResult) : State :=
  let s := with_gradient s (Gradient_update s (buffer_Qp s) (alpha stepres)) in
  let s := with_redcosts s (ReducedCosts_update s) in
  let s := with_primal s (Vector_saxpy (primal (runtime s)) (alpha stepres) (p s)) in
  with_rowactivity s (Vector_saxpy (rowactivity (runtime s)) (alpha stepres) (rowmove s)).

(** The result of the ratio test at the current point and direction. *)
Definition stepres_of (s : State) (maxsteplength : double) : RatiotestResult :=
  ratiotest (settings (runtime s)) (primal (runtime s)) (p s)
            (rowactivity (runtime s)) (rowmove s) (instance (runtime s))
            maxsteplength.

(** The direction is tiny or the step is zero. *)
Definition no_move (s : State) (maxsteplength : double) : bool :=
  double_lt (Vector_norm2 (p s)) (pnorm_zero_threshold (settings (runtime s)))
  || double_eq maxsteplength PrimFloat.zero.

(** The second half of the loop body, from the test on the direction. *)
Definition step (s : State) (maxsteplength : double) (zcd : bool) : ctl State State :=
  if no_move s maxsteplength then Go (with_atfsep s true)
  else
    let stepres := stepres_of s maxsteplength in
    s <- (if negb (limitingconstraint stepres =? -1)
          then blocked s stepres zcd
          else Go (unblocked s stepres)) ;;
    Go (advance s stepres).

(** The first half of the loop body after the counters: the search
    direction, [maxsteplength] and [zero_curvature_direction]. *)
Definition direction (s : State) : ctl State (State * double * bool) :=
  if atfsep s then at_vertex s
  else Go (on_face s, PrimFloat.one, false).

(** One pass of [while (true)]: [Go] is the end of the body, [Stop] a
    [break]. *)
Definition loop_body (s : State) : ctl State State :=
  s <- check_limits s ;;
  s <- report s ;;
  r <- direction s ;;
  let '(s, maxsteplength, zcd) := r in
  step s maxsteplength zcd.

(** How a run of the loop ends: by a [break], by [exit(code)], by a trap,
    or not within the given number of passes. *)
Inductive outcome : Type :=
| Finished (s : State)
| Aborted (code : Z)
| Trapped
| OutOfFuel.

(** [while (true) { ... }], at most [fuel] passes. *)
Fixpoint solve_loop (fuel : nat) (s : State) : outcome :=
  match fuel with
  | O => OutOfFuel
  | S fuel' =>
      match loop_body s with
      | Go s' => solve_loop fuel' s'
      | Stop s' => Finished s'
      | Exit code => Aborted code
      | Fault => Trapped
      end
  end.

(** One pass of the loop that recovers the duals, for the active index [e]. *)
Definition recover_dual (ncon : Z) (lambda : Vector) (indexinfactor : list Z)
           (dv : Vector * Vector) (e : Z) : Vector * Vector :=
  let '(dvar, dcon) := dv in
  let indexinbasis := geti indexinfactor e in
  if ncon <=? e then
    let var := e - ncon in
    (Vector_with_value dvar (setd (value dvar) var (getd (value lambda) indexinbasis)),
     dcon)
  else
    (dvar,
     Vector_with_value dcon (setd (value dcon) e (getd (value lambda) indexinbasis))).

(** The first part of the code after the loop: the last log entry and the
    duals of the active indices. *)
Definition recover_duals (s : State) : State :=
  let s := fire (loginformation s) in
  let '(rc, lambda) := getReducedCosts s in
  let s := with_redcosts s rc in
  let '(dvar, dcon) :=
    fold_left (recover_dual (num_con (instance (runtime s))) lambda
                            (getindexinfactor (basis s)))
              (getactive (basis s))
              (dualvar (runtime s), dualcon (runtime s)) in
  with_runtime s (rt_with_dualcon (rt_with_dualvar (runtime s) dvar) dcon).

(** The code after the loop. *)
Definition finish (s : State) : State :=
  let s := recover_duals s in
  let s := if getnumactive (basis s) =? num_var (instance (runtime s))
           then with_primal s (Basis_recomputex s (instance (runtime s)))
           else s in
  let '(tm, now) := readRunHighsClock (timer (runtime s)) in
  with_runtime s
    (rt_with_timer
       (rt_with_statistics (runtime s) (st_with_time_end (statistics (runtime s)) now))
       tm).

(** The code before the loop: the objects and buffers of the solve. *)
Definition solve_init (rt : Runtime) (x0 ra : Vector) (b0 : Basis) : State :=
  let '(tm, now) := readRunHighsClock (timer rt) in
  let rt := rt_with_timer
              (rt_with_statistics rt (st_with_time_start (statistics rt) now)) tm in
  let rt := rt_with_primal rt x0 in
  let g := Gradient_new rt in
  let rc := ReducedCosts_new rt b0 g in
  let rg := ReducedGradient_new rt b0 g in
  let cf := NewCholeskyFactor_new rt b0 in
  let rt := rt_with_rowactivity rt
              (Matrix_mat_vec (A (instance rt)) (primal rt) (rowactivity rt)) in
  let pr := DevexPricing_new rt b0 rc in
  let nv := num_var (instance rt) in
  mkState rt b0 g rc rg cf pr
          (Vector_new nv) (Vector_new (num_con (instance rt)))
          (Vector_new nv) (Vector_new nv) (Vector_new nv)
          (Vector_new nv) (Vector_new nv)
          (getnumactive b0 =? nv).

(** [Solver::solve(x0, ra, b0)] *)
Definition solve (fuel : nat) (rt : Runtime) (x0 ra : Vector) (b0 : Basis) : outcome :=
  match solve_loop fuel (solve_init rt x0 ra b0) with
  | Finished s => Finished (finish s)
  | o => o
  end.

(** What [Solver::solve()] leaves: it returns at once on an infeasible
    crash, and runs the solve from the crash point otherwise. *)
Inductive solved : Type :=
| Infeasible (rt : Runtime)
| Ran (o : outcome).

(** [Solver::solve()] *)
Definition solve_crash (fuel : nat) (rt : Runtime) : solved :=
  let '(rt, crash) := computestartingpoint rt in
  match status rt with
  | INFEASIBLE => Infeasible rt
  | _ =>
      let b := Basis_new rt (crash_active crash) (crash_rowstatus crash)
                         (crash_inactive crash) in
      Ran (solve fuel rt (crash_primal crash) (crash_rowact crash) b)
  end.

End Solver.

(** ** HighsCliqueTable: the query for a common clique *)

Module HighsCliqueTable.

(** [CliqueVar]: the bit-fields [col : 31] and [val : 1]. *)
Record CliqueVar : Set := mkCliqueVar { col : Z; val : Z }.

(** The values the two bit-fields can hold. *)
Definition wf (v : CliqueVar) : Prop :=
  0 <= col v < 2 ^ 31 /\ 0 <= val v < 2.

(** [CliqueVar(HighsInt col, HighsInt val)]: storing into a bit-field keeps
    the low bits. *)
Definition CliqueVar_new (c v : Z) : CliqueVar :=
  mkCliqueVar (c mod 2 ^ 31) (v mod 2).

(** A result of [int] arithmetic, [HighsInt] being a 32-bit [int]: the
    value itself when it fits.  Signed overflow is undefined in the source;
    the value given here for it is the two's complement wrap-around. *)
Definition to_int (z : Z) : Z := (z + 2 ^ 31) mod 2 ^ 32 - 2 ^ 31.

(** [index()]: the two bit-fields are promoted to [int], so [2 * col + val]
    is computed in [int].  It fits exactly when [col < 2^30]; for a larger
    column [2 * col] overflows. *)
Definition index (v : CliqueVar) : Z := to_int (2 * col v + val v).

(** [complement()] *)
Definition complement (v : CliqueVar) : CliqueVar :=
  CliqueVar_new (col v) (1 - val v).

(** [operator==] *)
Definition CliqueVar_eqb (v other : CliqueVar) : bool := index v =? index other.

Section Table.
(** The clique sets (entries, splay trees, hash table), whose code is
    outside the translated files. *)
Variable Store : Type.

(** [findCommonCliqueId(numQueries, v1, v2)]: it is declared only; it
    searches the stored clique sets, may restructure them and counts its
    queries in [numQueries].  It gives the clique id or -1, the counter and
    the store afterwards. *)
Variable findCommonCliqueId : Z -> Store -> CliqueVar -> CliqueVar -> Z * Z * Store.

Record Table : Type := mkTable {
  numNeighborhoodQueries : Z;
  store : Store
}.

(** [haveCommonClique(v1, v2)]: the answer and the table afterwards. *)
Definition haveCommonClique (t : Table) (v1 v2 : CliqueVar) : bool * Table :=
  if col v1 =? col v2 then (false, t)
  else
    let '(id, nq, st) :=
      findCommonCliqueId (numNeighborhoodQueries t) (store t) v1 v2 in
    (negb (id =? -1), mkTable nq st).

(** [haveCommonClique(numQueries, v1, v2)]: the answer, the caller's
    counter and the table afterwards. *)
Definition haveCommonClique_counted (numQueries : Z) (t : Table) (v1 v2 : CliqueVar)
  : bool * Z * Table :=
  if col v1 =? col v2 then (false, numQueries, t)
  else
    let '(id, nq, st) := findCommonCliqueId numQueries (store t) v1 v2 in
    (negb (id =? -1), nq, mkTable (numNeighborhoodQueries t) st).

End Table.

Arguments numNeighborhoodQueries {Store} t.
Arguments store {Store} t.
Arguments mkTable {Store} _ _.
Arguments haveCommonClique {Store} findCommonCliqueId t v1 v2.
Arguments haveCommonClique_counted {Store} findCommonCliqueId numQueries t v1 v2.

(** [weight(sol)] *)
Definition weight (v : CliqueVar) (sol : list double) : double :=
  if val v =? 0 then PrimFloat.sub PrimFloat.one (getd sol (col v))
  else getd sol (col v).

(** [Clique]; the field [end] is [clq_end] here. *)
Record Clique : Set := mkClique {
  clq_start : Z;
  clq_end : Z;
  clq_origin : Z;
  numZeroFixed : Z;
  equality : bool
}.

Record Substitution : Set := mkSubstitution {
  substcol : Z;
  replace : CliqueVar
}.

Section Lookup.
Variable Store : Type.
Variable findCommonCliqueId : Z -> Store -> CliqueVar -> CliqueVar -> Z * Z * Store.
(** The vector [cliques] of the store. *)
Variable cliques : Store -> list Clique.

(** [findCommonClique(v1, v2)]: the pair it returns and the table
    afterwards.  The pointer into [cliqueentries] is the position it points
    to, [None] for [nullptr]. *)
Definition findCommonClique (t : Table Store) (v1 v2 : CliqueVar)
  : (option Z * Z) * Table Store :=
  if CliqueVar_eqb v1 v2 then ((None, 0), t)
  else
    let '(clq, nq, st) :=
      findCommonCliqueId (numNeighborhoodQueries t) (store t) v1 v2 in
    let t' := mkTable nq st in
    if clq =? -1 then ((None, 0), t')
    else
      let c := nth (Z.to_nat clq) (cliques st) (mkClique 0 0 0 0 false) in
      ((Some (clq_start c), clq_end c - clq_start c), t').

End Lookup.

Arguments findCommonClique {Store} findCommonCliqueId cliques t v1 v2.

(** The members of [HighsCliqueTable] that its constructor and its inline
    getters and setters use; the vectors the constructor does not size
    start empty. *)
Record Members : Type := mkMembers {
  cliquetable_cliques : list Clique;
  freeslots : list Z;
  cliquesetroot : list Z;
  sizeTwoCliquesetRoot : list Z;
  numcliquesvar : list Z;
  neighborhoodFlags : list Z;
  colsubstituted : list Z;
  substitutions : list Substitution;
  colDeleted : list bool;
  nfixings : Z;
  numQueries : Z;
  numEntries : Z;
  maxEntries : Z;
  inPresolve : bool
}.

Section Construction.
(** [kHighsIInf] of lp_data/HConst.h. *)
Variable kHighsIInf : Z.

(** [HighsCliqueTable(ncols)] *)
Definition HighsCliqueTable_new (ncols : Z) : Members :=
  mkMembers [] []
            (repeat (-1) (Z.to_nat (2 * ncols)))
            (repeat (-1) (Z.to_nat (2 * ncols)))
            (repeat 0 (Z.to_nat (2 * ncols)))
            (repeat 0 (Z.to_nat (2 * ncols)))
            (repeat 0 (Z.to_nat ncols))
            []
            (repeat false (Z.to_nat ncols))
            0 0 0 kHighsIInf false.

End Construction.

(** [numCliques(col, val)] *)
Definition numCliques_of (m : Members) (c : Z) (v : bool) : Z :=
  geti (numcliquesvar m) (index (CliqueVar_new c (if v then 1 else 0))).

(** [numCliques()] *)
Definition numCliques (m : Members) : Z :=
  Z.of_nat (length (cliquetable_cliques m)) - Z.of_nat (length (freeslots m)).

(** [getSubstitution(col)]: [None] is [nullptr]; a position outside
    [substitutions], undefined in the source, gives [None] too. *)
Definition getSubstitution (m : Members) (c : Z) : option Substitution :=
  if geti (colsubstituted m) c =? 0 then None
  else nth_error (substitutions m) (Z.to_nat (geti (colsubstituted m) c - 1)).

(** [isFull()] *)
Definition isFull (m : Members) : bool := maxEntries m <=? numEntries m.

(** A sample vector [cliques] of eight cliques, of which clique 7 holds the
    entries 20 to 22. *)
Definition sample_cliques (st : unit) : list Clique :=
  repeat (mkClique 0 0 0 0 false) 7 ++ [mkClique 20 23 0 0 false].

(** A sample search over a store without content, which reports clique 7 for
    every pair and counts the query. *)
Definition always_found (nq : Z) (st : unit) (v1 v2 : CliqueVar) : Z * Z * unit :=
  (7, nq + 1, st).

End HighsCliqueTable.

(** ** HighsLpRelaxation: the inline members *)

Module HighsLpRelaxation.

Inductive Status : Set :=
| kNotSet
| kOptimal
| kInfeasible
| kUnscaledDualFeasible
| kUnscaledPrimalFeasible
| kUnscaledInfeasible
| kUnbounded
| kError.

(** [scaledOptimal(status)] *)
Definition scaledOptimal (status : Status) : bool :=
  match status with
  | kOptimal | kUnscaledDualFeasible | kUnscaledPrimalFeasible
  | kUnscaledInfeasible => true
  | _ => false
  end.

(** [unscaledPrimalFeasible(status)] *)
Definition unscaledPrimalFeasible (status : Status) : bool :=
  match status with
  | kOptimal | kUnscaledPrimalFeasible => true
  | _ => false
  end.

(** [unscaledDualFeasible(status)] *)
Definition unscaledDualFeasible (status : Status) : bool :=
  match status with
  | kOptimal | kUnscaledDualFeasible => true
  | _ => false
  end.

Section Relaxation.
(** [HighsBasis] and its field [valid]. *)
Variable HighsBasis : Type.
Variable valid : HighsBasis -> bool.
(** [slackLower(row)] and [slackUpper(row)], defined outside the header;
    [mipsolver.variableType(col) != kContinuous]; and
    [lprows[row].isIntegral(mipsolver)]. *)
Variable slackLower slackUpper : Z -> double.
Variable variable_is_discrete : Z -> bool.
Variable row_is_integral : Z -> bool.

(** The members the inline functions read and write; of [lpsolver], the
    parts of its LP, solution and basis that they reach. *)
Record Relaxation : Type := mkRelaxation {
  num_col_ : Z;
  col_lower_ : list double;
  col_upper_ : list double;
  row_lower_ : list double;
  row_upper_ : list double;
  col_value : list double;
  row_value : list double;
  lp_basis : HighsBasis;
  fractionalints : list (Z * double);
  basischeckpoint : option HighsBasis;
  currentbasisstored : bool;
  lp_status : Status
}.

Definition with_checkpoint (r : Relaxation) (b : option HighsBasis) (stored : bool)
  : Relaxation :=
  mkRelaxation (num_col_ r) (col_lower_ r) (col_upper_ r) (row_lower_ r)
               (row_upper_ r) (col_value r) (row_value r) (lp_basis r)
               (fractionalints r) b stored (lp_status r).

(** [colLower(col)] *)
Definition colLower (r : Relaxation) (c : Z) : double :=
  if c <? num_col_ r then getd (col_lower_ r) c else slackLower (c - num_col_ r).

(** [colUpper(col)] *)
Definition colUpper (r : Relaxation) (c : Z) : double :=
  if c <? num_col_ r then getd (col_upper_ r) c else slackUpper (c - num_col_ r).

(** [isRowIntegral(row)] *)
Definition isRowIntegral (r : Relaxation) (row : Z) : bool := row_is_integral row.

(** [isColIntegral(col)] *)
Definition isColIntegral (r : Relaxation) (c : Z) : bool :=
  if c <? num_col_ r then variable_is_discrete c
  else isRowIntegral r (c - num_col_ r).

(** [solutionValue(col)] *)
Definition solutionValue (r : Relaxation) (c : Z) : double :=
  if c <? num_col_ r then getd (col_value r) c
  else getd (row_value r) (c - num_col_ r).

(** [integerFeasible()] *)
Definition integerFeasible (r : Relaxation) : bool :=
  if (match lp_status r with
      | kOptimal | kUnscaledPrimalFeasible => true
      | _ => false
      end)
     && (match fractionalints r with [] => true | _ => false end)
  then true
  else false.

(** [storeBasis()] *)
Definition storeBasis (r : Relaxation) : Relaxation :=
  if negb (currentbasisstored r) && valid (lp_basis r)
  then with_checkpoint r (Some (lp_basis r)) true
  else r.

(** [getStoredBasis()] *)
Definition getStoredBasis (r : Relaxation) : option HighsBasis := basischeckpoint r.

(** [setStoredBasis(basis)] *)
Definition setStoredBasis (r : Relaxation) (b : option HighsBasis) : Relaxation :=
  with_checkpoint r b false.

End Relaxation.

(** A sample relaxation with two columns and one row; a basis is
    represented by its flag [valid]. *)
Definition sample_relaxation (stored : bool) : Relaxation bool :=
  mkRelaxation bool 2 [0%float; 0%float] [1%float; 1%float] [0%float] [4%float]
               [0.5%float; 1%float] [3%float] true [] None stored
               kUnscaledPrimalFeasible.

End HighsLpRelaxation.

(** ** HighsTableauSeparator *)

Module HighsTableauSeparator.

(** The literal [1e-4]. *)
Definition min_fractionality : double := 0x1.a36e2eb1c432dp-14%float.

(** The LP solver inside the relaxation, the row aggregator, and the cut
    generator with the cut pool and the transformed LP it works on: their
    code is outside the translated files, so they are an interface. *)
Class Environment (LpSolver Aggregator Cuts : Type) : Type := {
  (** [lpRelaxation.numRows()] and
      [getLpSolver().getBasicVariables(basisinds.data())], which fills the
      array it is given. *)
  numRows : LpSolver -> Z;
  getBasicVariables : LpSolver -> list Z -> LpSolver * list Z;
  (** [lpRelaxation.isRowIntegral(row)],
      [mip.variableType(col) == HighsVarType::CONTINUOUS] and the solution
      values of the relaxation. *)
  isRowIntegral : Z -> bool;
  is_continuous : Z -> bool;
  row_value : LpSolver -> list double;
  col_value : LpSolver -> list double;
  (** [std::round] *)
  round : double -> double;
  (** [lpSolver.getBasisInverseRow(i, rowWeights, &numNonzeroWeights,
      nonzeroWeights)]: the solver afterwards, whether the status is OK,
      and the three outputs. *)
  getBasisInverseRow :
    LpSolver -> Z -> list double -> list Z ->
    LpSolver * bool * list double * Z * list Z;
  (** [mip.mipdata_->epsilon] *)
  epsilon : double;
  (** [lpAggregator.addRow(row, weight)],
      [lpAggregator.getCurrentAggregation(inds, vals, negate)] and
      [lpAggregator.clear()]. *)
  addRow : Aggregator -> Z -> double -> Aggregator;
  getCurrentAggregation :
    Aggregator -> list Z -> list double -> bool -> Aggregator * list Z * list double;
  clear : Aggregator -> Aggregator;
  (** [HighsCutGeneration cutGen(lpRelaxation, cutpool)] and
      [cutGen.generateCut(transLp, inds, vals, rhs)], whose arguments are
      passed by reference and whose result is not used. *)
  cutGen_new : LpSolver -> Cuts -> Cuts;
  generateCut :
    Cuts -> list Z -> list double -> double -> Cuts * list Z * list double * double
}.

Section Separator.
Context {LpSolver Aggregator Cuts : Type} {E : Environment LpSolver Aggregator Cuts}.

(** [std::abs(std::round(solval) - solval)] *)
Definition fractionality (solval : double) : double :=
  PrimFloat.abs (PrimFloat.sub (round solval) solval).

(** The first part of the loop body: the fractionality of the basic
    variable, or [None] where the body says [continue]. *)
Definition basic_fractionality (lp : LpSolver) (b : Z) : option double :=
  if b <? 0 then
    let row := - b - 1 in
    if negb (isRowIntegral row) then None
    else Some (fractionality (getd (row_value lp) row))
  else
    let c := b in
    if is_continuous c then None
    else Some (fractionality (getd (col_value lp) c)).

(** The basic variable at a position passes both tests: it is integral and
    its value is fractional. *)
Definition candidate (lp : LpSolver) (b : Z) : bool :=
  match basic_fractionality lp b with
  | None => false
  | Some f => negb (PrimFloat.ltb f min_fractionality)
  end.

(** The variables that live across the passes of the loop. *)
Record Loop : Type := mkLoop {
  lpSolver : LpSolver;
  lpAggregator : Aggregator;
  cutGen : Cuts;
  rowWeights : list double;
  nonzeroWeights : list Z;
  baseRowInds : list Z;
  baseRowVals : list double
}.

(** One pass of the inner loop, [row] being [nonzeroWeights[j]]. *)
Definition add_weighted_row (rw : list double) (agg : Aggregator) (row : Z)
  : Aggregator :=
  if PrimFloat.leb (PrimFloat.abs (getd rw row)) epsilon then agg
  else addRow agg row (getd rw row).

(** One pass of the loop over the basis positions. *)
Definition separate_position (basisinds : list Z) (st : Loop) (i : Z) : Loop :=
  match basic_fractionality (lpSolver st) (geti basisinds i) with
  | None => st
  | Some f =>
      if PrimFloat.ltb f min_fractionality then st
      else
        let '(lp, ok, rw, numNonzeroWeights, nzw) :=
          getBasisInverseRow (lpSolver st) i (rowWeights st) (nonzeroWeights st) in
        if negb ok
        then mkLoop lp (lpAggregator st) (cutGen st) rw nzw
                    (baseRowInds st) (baseRowVals st)
        else
          let agg := fold_left (add_weighted_row rw)
                               (firstn (Z.to_nat numNonzeroWeights) nzw)
                               (lpAggregator st) in
          let '(agg, inds, vals) :=
            getCurrentAggregation agg (baseRowInds st) (baseRowVals st) false in
          let '(cuts, inds, vals, rhs) := generateCut (cutGen st) inds vals PrimFloat.zero in
          let '(agg, inds, vals) := getCurrentAggregation agg inds vals true in
          let '(cuts, inds, vals, rhs) := generateCut cuts inds vals PrimFloat.zero in
          mkLoop lp (clear agg) cuts rw nzw inds vals
  end.

(** [separateLpSolution(lpRelaxation, lpAggregator, transLp, cutpool)]: the
    LP solver, the aggregator and the cut state afterwards. *)
Definition separateLpSolution (lp : LpSolver) (agg : Aggregator) (cuts : Cuts)
  : LpSolver * Aggregator * Cuts :=
  let numrow := numRows lp in
  let '(lp, basisinds) := getBasicVariables lp (repeat 0 (Z.to_nat numrow)) in
  let st := mkLoop lp agg (cutGen_new lp cuts)
                   (repeat PrimFloat.zero (Z.to_nat numrow))
                   (repeat 0 (Z.to_nat numrow)) [] [] in
  let st := fold_left (separate_position basisinds)
                      (map Z.of_nat (seq 0 (Z.to_nat numrow))) st in
  (lpSolver st, lpAggregator st, cutGen st).

End Separator.

(** A sample environment with one structural column and one row.  The basis
    holds column 0 (an integer column of value 2.5) and the slack of row 0
    (a row that is not integral); the inverse row of position 0 weighs row 0
    by 1 and row 1 by 0.  The aggregator is the list of the rows added with
    their weights, the cut state counts the calls of [generateCut]. *)
#[local] Instance sample_environment : Environment unit (list (Z * double)) nat := {|
  numRows _ := 2;
  getBasicVariables lp _ := (lp, [0; -1]);
  isRowIntegral _ := false;
  is_continuous _ := false;
  row_value _ := [1%float];
  col_value _ := [2.5%float];
  round x := if PrimFloat.eqb x 2.5%float then 3%float else x;
  getBasisInverseRow lp _ _ _ := (lp, true, [1%float; 0%float], 2, [0; 1]);
  epsilon := 0x1p-30%float;
  addRow agg row w := agg ++ [(row, w)];
  getCurrentAggregation agg _ _ negate :=
    (agg, map fst agg,
     map (fun rw => if negate then PrimFloat.opp (snd rw) else snd rw) agg);
  clear _ := [];
  cutGen_new _ cuts := cuts;
  generateCut cuts inds vals rhs := (S cuts, inds, vals, rhs)
|}.

(** The same environment with the column continuous: no basic variable is a
    candidate. *)
#[local] Instance continuous_environment : Environment unit (list (Z * double)) nat := {|
  numRows _ := 2;
  getBasicVariables lp _ := (lp, [0; -1]);
  isRowIntegral _ := false;
  is_continuous _ := true;
  row_value _ := [1%float];
  col_value _ := [2.5%float];
  round x := if PrimFloat.eqb x 2.5%float then 3%float else x;
  getBasisInverseRow lp _ _ _ := (lp, true, [1%float; 0%float], 2, [0; 1]);
  epsilon := 0x1p-30%float;
  addRow agg row w := agg ++ [(row, w)];
  getCurrentAggregation agg _ _ negate :=
    (agg, map fst agg,
     map (fun rw => if negate then PrimFloat.opp (snd rw) else snd rw) agg);
  clear _ := [];
  cutGen_new _ cuts := cuts;
  generateCut cuts inds vals rhs := (S cuts, inds, vals, rhs)
|}.

End HighsTableauSeparator.

(** ** A sample implementation of the collaborators

    The statements about [solver.cpp] below hold for every implementation of
    [Collaborators].  To run the solver on concrete instances one
    implementation is fixed here: problems with the bounds [x >= 0] on the
    variables and dense rows (constraint [i < num_con] is row [i], constraint
    [num_con + j] is the bound of variable [j]), in the configurations in
    which no row is active, with dense vectors. *)

Module Sample.

Local Open Scope float_scope.

Fixpoint dot (a b : list double) : double :=
  match a, b with
  | x :: a', y :: b' => x * y + dot a' b'
  | _, _ => 0
  end.

Fixpoint zip_with (f : double -> double -> double) (a b : list double) : list double :=
  match a, b with
  | x :: a', y :: b' => f x y :: zip_with f a' b'
  | _, _ => []
  end.

(** A dense vector: every position is listed. *)
Definition vec (l : list double) : Vector :=
  mkVector (Z.of_nat (length l)) (Z.of_nat (length l))
           (map Z.of_nat (seq 0 (length l))) l.

Record SBasis : Type := mkSBasis {
  s_active : list Z;
  s_inactive : list Z
}.

(** Modelled from the spec: the classes outside the translated files.  The
    Hessian and constraint matrix are dense rows, the instance data is the
    linear cost, the Basis is its lists of active and inactive indices, the
    reduced gradient and the factor are represented by the dimension of the
    null space they cover ([expand] adds one, [reduce] removes one). *)
#[local] Instance types : Types := {|
  Matrix := list (list double);
  InstanceData := list double;
  Basis := SBasis;
  Gradient := unit;
  ReducedCosts := unit;
  ReducedGradient := Z;
  NewCholeskyFactor := Z;
  Pricing := unit
|}.

Definition mat_vec (M : list (list double)) (x : Vector) : Vector :=
  vec (map (fun row => dot row (value x)) M).

(** The transpose in compressed column storage: column [i] of the
    transpose is row [i] of the matrix, stored in full. *)
Fixpoint column_starts (M : list (list double)) (from : Z) : list Z :=
  match M with
  | [] => [from]
  | row :: M' => from :: column_starts M' (from + Z.of_nat (length row))
  end.

Definition transpose (M : list (list double)) : MatrixBase :=
  mkMatrixBase (column_starts M 0)
               (flat_map (fun row => map Z.of_nat (seq 0 (length row))) M)
               (concat M).

Definition extractcol (Mt : MatrixBase) (i : Z) : Vector :=
  let from := geti (mb_start Mt) i in
  vec (firstn (Z.to_nat (geti (mb_start Mt) (i + 1) - from))
              (skipn (Z.to_nat from) (mb_value Mt))).

(** The gradient [Q x + c] at the current point. *)
Definition grad_at (rt : Runtime) : Vector :=
  vec (zip_with PrimFloat.add (value (mat_vec (Q (instance rt)) (primal rt)))
                (other (instance rt))).

(** Pricing over the active bounds: the first one whose multiplier (the
    gradient entry of its variable) is negative, -1 when there is none. *)
Fixpoint first_negative (ncon : Z) (g : Vector) (act : list Z) : Z :=
  match act with
  | [] => (-1)%Z
  | e :: rest =>
      if getd (value g) (e - ncon) <? 0 then e else first_negative ncon g rest
  end.

(** The ratio test against the bounds [x >= 0]: the first variable that
    decreases and reaches its bound within [maxsteplength] blocks. *)
Fixpoint first_blocking (i : Z) (x pv : list double) (maxsteplength : double)
  : option (Z * double) :=
  match x, pv with
  | xi :: x', pi :: p' =>
      if (pi <? 0) && (xi / - pi <=? maxsteplength)
      then Some (i, xi / - pi)
      else first_blocking (i + 1) x' p' maxsteplength
  | _, _ => None
  end.

Definition sample_ratiotest (x pv ra rm : Vector) (inst : Instance) (maxsteplength : double)
  : RatiotestResult :=
  match first_blocking 0 (value x) (value pv) maxsteplength with
  | Some (i, a) => mkRatiotestResult a (num_con inst + i) true
  | None => mkRatiotestResult maxsteplength (-1) false
  end.

Definition remove_index (e : Z) (l : list Z) : list Z :=
  filter (fun x => negb (x =? e)%Z) l.

(** Modelled from the spec: the contracts of the collaborators (spec
    section 4) while only bounds are active.  The inactive indices are
    bounds that complete the basis, so the basis matrix is the identity and
    [Ztprod] reads the entries of its argument at the variables of the
    inactive bounds; the reduced Hessian is taken as the unit, the vertex at
    which every bound is active is the origin, and the multiplier of an
    active bound is the gradient entry of its variable. *)
#[local] Instance collaborators : Collaborators := {|
  Vector_new d := vec (repeat 0 (Z.to_nat d));
  Vector_mul a b := dot (value a) (value b);
  Vector_dot a b := dot (value a) (value b);
  Vector_dot_sparse _ _ _ _ := 0;
  Vector_norm2 a := dot (value a) (value a);
  Vector_saxpy v a x := vec (zip_with (fun vi xi => vi + a * xi) (value v) (value x));
  Vector_saxpy2 v a b x := vec (zip_with (fun vi xi => a * vi + b * xi) (value v) (value x));
  Vector_repopulate _ x := x;
  Vector_scale v a := vec (map (fun vi => a * vi) (value v));
  Vector_neg v := vec (map PrimFloat.opp (value v));
  Vector_sanitize v := v;
  Vector_resparsify v := v;
  Matrix_mat_vec M x _ := mat_vec M x;
  Matrix_t M := transpose M;
  MatrixBase_vec_mat _ _ target := target;
  MatrixBase_extractcol Mt i := extractcol Mt i;
  Instance_objval inst x := dot (other inst) (value x);
  Instance_sumnumprimalinfeasibilities _ _ _ := mkSumNum 0 0;
  computestartingpoint rt :=
    (rt, mkCrashSolution
           (map Z.of_nat (seq 0 (Z.to_nat (num_var (instance rt))))) [] []
           (vec (repeat 0 (Z.to_nat (num_var (instance rt))))) (vec []));
  Basis_new _ act _ inact := mkSBasis act inact;
  getnumactive b := Z.of_nat (length (s_active b));
  getnuminactive b := Z.of_nat (length (s_inactive b));
  getactive b := s_active b;
  getinactive b := s_inactive b;
  getindexinfactor b :=
    map Z.of_nat (seq 0 (length (s_active b) + length (s_inactive b)));
  getstatus b i :=
    if existsb (Z.eqb i) (s_active b) then ActiveAtLower else Default;
  Basis_deactivate s conid :=
    mkSBasis (remove_index conid (s_active (basis s))) (s_inactive (basis s) ++ [conid]);
  Basis_activate s conid _ nonactivetoremove :=
    (mkSBasis (s_active (basis s) ++ [conid])
              (remove_index nonactivetoremove (s_inactive (basis s))),
     pricing s);
  Basis_btran s rhs _ _ _ := (basis s, rhs);
  Basis_Zprod s rhs _ := (basis s, rhs);
  Basis_Ztprod s rhs _ _ _ :=
    (basis s,
     vec (map (fun e => getd (value rhs) (e - num_con (instance (runtime s))))
              (s_inactive (basis s))));
  Basis_recomputex s inst := vec (repeat 0 (Z.to_nat (num_var inst)));
  Gradient_new _ := tt;
  getGradient s := (tt, grad_at (runtime s));
  Gradient_update _ _ _ := tt;
  ReducedCosts_new _ _ _ := tt;
  getReducedCosts s := (tt, grad_at (runtime s));
  ReducedCosts_update _ := tt;
  ReducedGradient_new _ b _ := Z.of_nat (length (s_inactive b));
  ReducedGradient_get s := (redgrad s, grad_at (runtime s));
  ReducedGradient_expand s _ := (redgrad s + 1)%Z;
  ReducedGradient_reduce s _ _ := (redgrad s - 1)%Z;
  ReducedGradient_update s _ _ := redgrad s;
  NewCholeskyFactor_new _ b := Z.of_nat (length (s_inactive b));
  NewCholeskyFactor_solve s rhs := (factor s, rhs);
  NewCholeskyFactor_solveL s rhs := (factor s, rhs);
  NewCholeskyFactor_solveLT s rhs := (factor s, rhs);
  NewCholeskyFactor_expand s _ _ _ := (factor s + 1)%Z;
  NewCholeskyFactor_reduce s _ _ _ := (factor s - 1)%Z;
  NewCholeskyFactor_density _ := 1;
  DevexPricing_new _ _ _ := tt;
  Pricing_price s _ g :=
    (tt, first_negative (num_con (instance (runtime s))) g (s_active (basis s)))
|}.

Definition sample_settings (itlimit : Z) : Settings :=
  mkSettings itlimit 1000 1 0x1p-30 0x1p-30 sample_ratiotest.

Definition empty_statistics : Statistics :=
  mkStatistics 0 0 0 [] [] [] [] [] [] [] [].

(** A runtime for one variable [x >= 0] with Hessian [q] and linear cost
    [c]; the clock stands still. *)
Definition sample_runtime (q c : double) (itlimit : Z) : Runtime :=
  mkRuntime (mkInstance 1 0 [[q]] [] [c]) (sample_settings itlimit)
            empty_statistics (vec [0]) (vec []) (vec [0]) (vec [])
            NOTSET (mkTimer (fun _ => 0) 0) [].

(** Minimise [-x] subject to [x >= 0]: the objective decreases without
    bound along [x -> +infinity]. *)
Definition ray_runtime (itlimit : Z) : Runtime := sample_runtime 0 (-1) itlimit.

Definition origin : Vector := vec [0].

Definition no_rows : Vector := vec [].

(** The crash basis that holds the bound active. *)
Definition at_bound : SBasis := mkSBasis [0%Z] [].

(** The ray instance from [x = 0] with the bound active. *)
Definition ray_start (itlimit : Z) : State :=
  solve_init (ray_runtime itlimit) origin no_rows at_bound.

(** Minimise [x^2 / 2 + x] subject to [x >= 0], from the interior point
    [x = 1] with no bound active. *)
Definition convex_runtime (itlimit : Z) : Runtime := sample_runtime 1 1 itlimit.

Definition interior : Vector := vec [1].

(** The crash basis with no active bound. *)
Definition free : SBasis := mkSBasis [] [0%Z].

Definition interior_start (itlimit : Z) : State :=
  solve_init (convex_runtime itlimit) interior no_rows free.

(** A crash point within [2^-30] of the bound [x >= 0], which the crash
    basis holds active. *)
Definition near_vertex : Vector := vec [0x1p-30].

(** Minimise [-x] subject to [x >= 0] from [near_vertex], with iteration
    limit 0: the state in which the loop is left. *)
Definition limit_exit : State :=
  with_status
(solve_init (ray_runtime 0) near_vertex no_rows at_bound) ITERATIONLIMIT.

(** The state a statement that falls through continues with. *)
Definition ran {X : Type} (dflt : X) (c : ctl State X) : X :=
  match c with
  | Go a => a
  | _ => dflt
  end.

(** The ray instance after the limit checks and the logging of its first
    iteration, and after its major search direction for the index 0 that
    pricing picks. *)
Definition ray_counted : State :=
  ran (ray_start 10) (s <- check_limits (ray_start 10) ;; report s).

Definition ray_major : State := major_direction (fst (priced ray_counted)) 0.

(** The ray instance at the ratio test of its first iteration, and at the
    top of its second iteration. *)
Definition ray_at_step : State := fst (fst (major_update ray_major)).

Definition ray_second : State := ran (ray_start 10) (loop_body (ray_start 10)).

(** The second iteration of the ray instance after its limit checks, and
    after its logging. *)
Definition ray_second_checked : State := ran ray_second (check_limits ray_second).

Definition ray_second_counted : State := ran ray_second (report ray_second_checked).

(** The interior instance at the ratio test of its first iteration, and at
    the top of its second iteration. *)
Definition interior_at_step : State :=
  on_face (ran (interior_start 10) (s <- check_limits (interior_start 10) ;; report s)).

Definition interior_second : State :=
  ran (interior_start 10) (loop_body (interior_start 10)).

(** The ray instance when its loop is left, and when its solve returns. *)
Definition ray_finished : State :=
  match solve_loop 5 (ray_start 10) with
  | Finished s => s
  | _ => ray_start 10
  end.

Definition ray_solved : State :=
  match solve 5 (ray_runtime 10) origin no_rows at_bound with
  | Finished s => s
  | _ => ray_start 10
  end.

(** The states of the first iteration of the interior instance after its
    limit checks and after its logging. *)
Definition interior_checked : State :=
  ran (interior_start 10) (check_limits (interior_start 10)).

Definition interior_counted : State :=
  ran (interior_start 10) (report interior_checked).

(** Minimise [x^2 / 2 - x] subject to [x >= 0] from [x = 0] with the bound
    active: the first iteration drops the bound and takes the step 1 to the
    minimiser [x = 1], which no constraint blocks. *)
Definition descent_runtime (itlimit : Z) : Runtime := sample_runtime 1 (-1) itlimit.

Definition descent_start (itlimit : Z) : State :=
  solve_init (descent_runtime itlimit) origin no_rows at_bound.

Definition descent_checked : State :=
  ran (descent_start 10) (check_limits (descent_start 10)).

Definition descent_counted : State :=
  ran (descent_start 10) (report descent_checked).

Definition descent_at_step : State :=
  fst (fst (ran (descent_start 10, 0, false) (direction descent_counted))).

Definition descent_second : State :=
  ran (descent_start 10) (loop_body (descent_start 10)).

(** Two variables [x, y >= 0] (the constraints 0 and 1): minimise
    [(x^2 + y^2) / 2 - x + y] from the point [(1, 0)], with the bound of [y]
    active and the bound of [x] inactive. *)
Definition pair_runtime (itlimit : Z) : Runtime :=
  mkRuntime (mkInstance 2 0 [[1; 0]; [0; 1]] [] [-1; 1]) (sample_settings itlimit)
            empty_statistics (vec [0; 0]) (vec []) (vec [0; 0]) (vec [])
            NOTSET (mkTimer (fun _ => 0) 0) [].

Definition on_edge : Vector := vec [1; 0].

Definition y_bound : SBasis := mkSBasis [1%Z] [0%Z].

Definition edge_start (itlimit : Z) : State :=
  solve_init (pair_runtime itlimit) on_edge no_rows y_bound.

(** The state in which the loop is left from [edge_start 0]. *)
Definition edge_exit : State := with_status (edge_start 0) ITERATIONLIMIT.

(** Two variables [x, y >= 0] and the row [a x + b y] (constraint 0; the
    bounds are the constraints 1 and 2), at the point [(1, 1)] with no
    constraint active: the two bounds complete the basis. *)
Definition row_runtime (a b : double) : Runtime :=
  mkRuntime (mkInstance 2 1 [[1; 0]; [0; 1]] [[a; b]] [0; 0]) (sample_settings 10)
            empty_statistics (vec [0; 0]) (vec [0]) (vec [0; 0]) (vec [0])
            NOTSET (mkTimer (fun _ => 0) 0) [].

Definition bounds_inactive : SBasis := mkSBasis [] [1%Z; 2%Z].

Definition row_start (a b : double) : State :=
  solve_init (row_runtime a b) (vec [1; 1]) (vec [a + b]) bounds_inactive.

(** The row [x - 3 y], and a row whose two entries are below the threshold
    [2^-30] of the sample settings. *)
Definition steep_row : State := row_start 1 (-3).

Definition flat_row : State := row_start 0x1p-40 0x1p-35.

(** The convex instance at the bound with the direction [p = 1], along which
    the objective increases. *)
Definition ascent_state : State :=
  with_p (solve_init (convex_runtime 10) origin no_rows at_bound) (vec [1]).

(** The ray instance with a direction that moves the active bound. *)
Definition untidy : State := with_p (ray_start 10) (vec [5]).

End Sample.

(** ** Predicates used in the statements *)

(** No listed entry of [d] is larger in magnitude than entry [m]: the test
    [fabs(d.value[k]) > fabs(d.value[m])] of [reduce] fails for every listed
    index [k]. *)
Definition no_larger (d : Vector) (m : Z) : Prop :=
  forall k, In k (firstn (Z.to_nat (num_nz d)) (index d)) ->
            double_gt (fabs (getd (value d) k)) (fabs (getd (value d) m)) = false.

(** The nonzeros of [d] are all listed: an entry at an unlisted position has
    magnitude zero. *)
Definition sparse (d : Vector) : Prop :=
  forall j, ~ In j (firstn (Z.to_nat (num_nz d)) (index d)) ->
            fabs (getd (value d) j) = fabs PrimFloat.zero.

(** No entry of [d] at all is larger in magnitude than entry [m]. *)
Definition largest (d : Vector) (m : Z) : Prop :=
  forall j, double_gt (fabs (getd (value d) j)) (fabs (getd (value d) m)) = false.

(** The dual of the active index [e], read from [lambda] through
    [indexinfactor], is in place in the pair ([dualvar], [dualcon]). *)
Definition dual_in_place (ncon : Z) (lambda : Vector) (indexinfactor : list Z)
           (e : Z) (dv : Vector * Vector) : Prop :=
  (ncon <= e ->
   getd (value (fst dv)) (e - ncon) = getd (value lambda) (geti indexinfactor e))
  /\ (e < ncon ->
      getd (value (snd dv)) e = getd (value lambda) (geti indexinfactor e)).

(** [tidyup] has done its work for the active index [e]: its entry of the
    direction, or of the row move, is zero in the pair ([p], [rowmove]). *)
Definition tidied (ncon : Z) (e : Z) (pr : Vector * Vector) : Prop :=
  (ncon <= e -> getd (value (fst pr)) (e - ncon) = PrimFloat.zero)
  /\ (e < ncon -> getd (value (snd pr)) e = PrimFloat.zero).

(** The eight series of the statistics have [n] entries each. *)
Definition aligned (st : Statistics) (n : nat) : Prop :=
  length (iteration st) = n /\ length (nullspacedimension st) = n
  /\ length (objval st) = n /\ length (time st) = n
  /\ length (sum_primal_infeasibilities st) = n
  /\ length (num_primal_infeasibilities st) = n
  /\ length (density_factor st) = n /\ length (density_nullspace st) = n.

(** * Properties *)

(** ** Doubles: the order behind [>] *)

Lemma SFltb_irrefl (x : spec_float) : SFltb x x = false.
Proof.
  unfold SFltb, SFcompare.
  destruct x as [s|s| |s m e]; try destruct s; try reflexivity;
    rewrite Z.compare_refl;
    change (PosDef.Pos.compare_cont Eq m m) with (Pos.compare m m);
    rewrite Pos.compare_refl; reflexivity.
Qed.

Lemma SFltb_trans (x y z : spec_float) :
  SFltb x y = true -> SFltb y z = true -> SFltb x z = true.
Proof.
  unfold SFltb, SFcompare.
  destruct x as [sx|sx| |sx mx ex], y as [sy|sy| |sy my ey], z as [sz|sz| |sz mz ez];
    try destruct sx; try destruct sy; try destruct sz;
    try discriminate; try reflexivity;
    change PosDef.Pos.compare_cont with Pos.compare_cont;
    change (Pos.compare_cont Eq) with Pos.compare;
    repeat match goal with
    | |- context [ (?a ?= ?b)%Z ] => destruct (Z.compare_spec a b)
    | |- context [ (?a ?= ?b)%positive ] => destruct (Pos.compare_spec a b)
    end; simpl; try discriminate; try reflexivity; try lia.
Qed.

Lemma double_gt_irrefl (a : double) : double_gt a a = false.
Proof. unfold double_gt. rewrite ltb_spec. apply SFltb_irrefl. Qed.

Lemma double_gt_trans (a b c : double) :
  double_gt a b = true -> double_gt b c = true -> double_gt a c = true.
Proof.
  unfold double_gt. rewrite !ltb_spec. intros Hab Hbc.
  exact (SFltb_trans _ _ _ Hbc Hab).
Qed.

Lemma nothing_below_zero_magnitude (a : double) :
  double_gt (fabs PrimFloat.zero) (fabs a) = false.
Proof.
  unfold double_gt, fabs. rewrite ltb_spec, !abs_spec.
  change (Prim2SF PrimFloat.zero) with (S754_zero false).
  destruct (Prim2SF a) as [s|s| |s m e]; reflexivity.
Qed.

(** The comparison the solver makes in its "unbounded" test: an index
    converted to [double] against infinity. *)
Lemma minus_one_is_not_infinity :
  double_eq (HighsInt_to_double (-1)) double_infinity = false.
Proof. vm_compute. reflexivity. Qed.

(** ** Arrays *)

Lemma set_nth_length {X : Type} (l : list X) (n : nat) (x : X) :
  length (set_nth l n x) = length l.
Proof.
  revert n. induction l as [|h t IH]; intros [|n]; simpl; try reflexivity.
  now rewrite IH.
Qed.

Lemma nth_set_nth_same {X : Type} (l : list X) (n : nat) (x dflt : X) :
  (n < length l)%nat -> nth n (set_nth l n x) dflt = x.
Proof.
  revert n. induction l as [|h t IH]; intros [|n] Hn; simpl in *; try lia.
  - reflexivity.
  - apply IH. lia.
Qed.

Lemma nth_set_nth_other {X : Type} (l : list X) (n m : nat) (x dflt : X) :
  n <> m -> nth m (set_nth l n x) dflt = nth m l dflt.
Proof.
  revert n m. induction l as [|h t IH]; intros [|n] [|m] Hnm; simpl;
    try reflexivity; try congruence.
  apply IH. congruence.
Qed.

Lemma getd_setd_same (l : list double) (i : Z) (x : double) :
  0 <= i < Z.of_nat (length l) -> getd (setd l i x) i = x.
Proof.
  intros Hi. unfold getd, setd.
  destruct (i <? 0) eqn:E; [apply Z.ltb_lt in E; lia|].
  apply nth_set_nth_same. lia.
Qed.

Lemma getd_setd_other (l : list double) (i j : Z) (x : double) :
  i <> j -> getd (setd l i x) j = getd l j.
Proof.
  intros Hij. unfold getd, setd.
  destruct (j <? 0) eqn:Ej; [reflexivity|].
  destruct (i <? 0) eqn:Ei; [reflexivity|].
  apply Z.ltb_ge in Ej, Ei.
  apply nth_set_nth_other. lia.
Qed.

Lemma setd_length (l : list double) (i : Z) (x : double) :
  length (setd l i x) = length l.
Proof. unfold setd. destruct (i <? 0); [reflexivity | apply set_nth_length]. Qed.

(** ** [indexof] *)

Lemma indexof_from_found (l : list Z) (element i r : Z) :
  indexof_from l element i = r -> r <> -1 -> 0 <= i ->
  i <= r < i + Z.of_nat (length l) /\ nth (Z.to_nat (r - i)) l 0 = element.
Proof.
  revert i. induction l as [|h t IH]; intros i Hr Hne Hi; simpl in Hr.
  - congruence.
  - destruct (h =? element) eqn:E.
    + apply Z.eqb_eq in E. subst r. rewrite Z.sub_diag. simpl length.
      split; [lia | exact E].
    + destruct (IH (i + 1) Hr Hne ltac:(lia)) as [Hrange Hnth].
      simpl length. split; [lia|].
      replace (Z.to_nat (r - i)) with (S (Z.to_nat (r - (i + 1)))) by lia.
      exact Hnth.
Qed.

Lemma indexof_found (l : list Z) (element : Z) :
  indexof l element <> -1 ->
  0 <= indexof l element < Z.of_nat (length l)
  /\ geti l (indexof l element) = element.
Proof.
  intros Hne.
  destruct (indexof_from_found l element 0 (indexof l element) eq_refl Hne
              ltac:(lia)) as [Hrange Hnth].
  split; [lia|].
  unfold geti. destruct (indexof l element <? 0) eqn:E.
  - apply Z.ltb_lt in E. lia.
  - rewrite Z.sub_0_r in Hnth. exact Hnth.
Qed.

Lemma indexof_from_absent (l : list Z) (element i : Z) :
  indexof_from l element i = -1 -> 0 <= i -> ~ In element l.
Proof.
  revert i. induction l as [|h t IH]; intros i Hr Hi; simpl in *.
  - tauto.
  - destruct (h =? element) eqn:E; [lia|].
    apply Z.eqb_neq in E. intros [H|H]; [congruence|].
    exact (IH (i + 1) Hr ltac:(lia) H).
Qed.

Lemma indexof_absent_iff (l : list Z) (element : Z) :
  indexof l element = -1 <-> ~ In element l.
Proof.
  split.
  - intros H. exact (indexof_from_absent l element 0 H ltac:(lia)).
  - intros Hnot. destruct (Z.eq_dec (indexof l element) (-1)) as [E | E]; [exact E|].
    exfalso. apply Hnot.
    destruct (indexof_found l element E) as [Hrange Hget].
    unfold geti in Hget. destruct (indexof l element <? 0) eqn:Hneg.
    + apply Z.ltb_lt in Hneg. lia.
    + rewrite <- Hget. apply nth_In. lia.
Qed.

(** ** The scan for the largest entry *)

Section Scan.
Variable d : Vector.

Let mag (k : Z) : double := fabs (getd (value d) k).

Lemma maxabsd_step_cases (m k : Z) :
  (maxabsd_step d m k = k /\ double_gt (mag k) (mag m) = true)
  \/ (maxabsd_step d m k = m /\ double_gt (mag k) (mag m) = false).
Proof.
  unfold maxabsd_step, mag.
  destruct (double_gt (fabs (getd (value d) k)) (fabs (getd (value d) m)));
    [left | right]; split; reflexivity.
Qed.

(** The running maximum only moves to strictly larger entries. *)
Lemma scan_grows (l : list Z) (m0 : Z) :
  fold_left (maxabsd_step d) l m0 = m0
  \/ double_gt (mag (fold_left (maxabsd_step d) l m0)) (mag m0) = true.
Proof.
  revert m0. induction l as [|k l IH]; intros m0; simpl.
  - left. reflexivity.
  - destruct (maxabsd_step_cases m0 k) as [[Hs Hgt] | [Hs _]]; rewrite Hs.
    + destruct (IH k) as [He | Hg].
      * right. rewrite He. exact Hgt.
      * right. exact (double_gt_trans _ _ _ Hg Hgt).
    + apply IH.
Qed.

Lemma scan_dominates (l : list Z) (m0 k : Z) :
  In k l ->
  double_gt (mag k) (mag (fold_left (maxabsd_step d) l m0)) = false.
Proof.
  revert m0. induction l as [|h l IH]; intros m0 Hin; simpl in *; [tauto|].
  destruct Hin as [-> | Hin]; [|apply IH; exact Hin].
  destruct (double_gt (mag k) (mag (fold_left (maxabsd_step d) l (maxabsd_step d m0 k))))
    eqn:Hbad; [exfalso | reflexivity].
  destruct (maxabsd_step_cases m0 k) as [[Hs Hgt] | [Hs Hle]]; rewrite Hs in Hbad.
  - destruct (scan_grows l k) as [He | Hg].
    + rewrite He, double_gt_irrefl in Hbad. discriminate.
    + pose proof (double_gt_trans _ _ _ Hbad Hg) as Hkk.
      rewrite double_gt_irrefl in Hkk. discriminate.
  - destruct (scan_grows l m0) as [He | Hg].
    + rewrite He in Hbad. congruence.
    + pose proof (double_gt_trans _ _ _ Hbad Hg). congruence.
Qed.

Lemma maxabsd_scan_no_larger : no_larger d (maxabsd_scan d).
Proof. intros k Hk. apply scan_dominates. exact Hk. Qed.

End Scan.

Lemma no_larger_largest (d : Vector) (m : Z) :
  sparse d -> no_larger d m -> largest d m.
Proof.
  intros Hsp Hno j.
  destruct (in_dec Z.eq_dec j (firstn (Z.to_nat (num_nz d)) (index d))) as [Hin | Hout].
  - apply Hno. exact Hin.
  - rewrite (Hsp j Hout). apply nothing_below_zero_magnitude.
Qed.

Lemma getd_zeros (n : nat) (j : Z) : getd (repeat PrimFloat.zero n) j = PrimFloat.zero.
Proof. unfold getd. destruct (j <? 0); [reflexivity | apply nth_repeat]. Qed.

Lemma unit_largest (n u : Z) (target : Vector) : largest (Vector_unit n u target) u.
Proof.
  intros j. destruct (Z.eq_dec j u) as [-> | Hne]; [apply double_gt_irrefl|].
  simpl value at 1. rewrite getd_setd_other by congruence.
  rewrite getd_zeros. apply nothing_below_zero_magnitude.
Qed.

(** ** The solver *)

(** Case analysis on the pairs and tests a function body goes through. *)
Ltac split_lets :=
  repeat match goal with
  | |- context [match ?e with pair _ _ => _ end] => destruct e
  | |- context [if ?b then _ else _] => destruct b
  end.

Section SolverProperties.
Context {T : Types} {C : Collaborators}.

(** *** What the first steps of the loop body leave alone *)

Lemma check_limits_go (s s1 : State) :
  check_limits s = Go s1 ->
  s1 = with_runtime s (rt_with_timer (runtime s) (fst (readRunHighsClock (timer (runtime s)))))
  /\ num_iterations (statistics (runtime s)) < iterationlimit (settings (runtime s)).
Proof.
  unfold check_limits.
  destruct (iterationlimit (settings (runtime s)) <=? num_iterations (statistics (runtime s)))
    eqn:E; [discriminate|].
  apply Z.leb_gt in E. simpl.
  destruct (double_ge _ _); [discriminate|].
  intros H. injection H as <-. split; [reflexivity | exact E].
Qed.

Lemma check_limits_stop (s s' : State) :
  check_limits s = Stop s' ->
  (status (runtime s') = ITERATIONLIMIT
   /\ iterationlimit (settings (runtime s)) <= num_iterations (statistics (runtime s)))
  \/ (status (runtime s') = TIMELIMIT
      /\ double_ge (snd (readRunHighsClock (timer (runtime s))))
                   (timelimit (settings (runtime s))) = true).
Proof.
  unfold check_limits.
  destruct (iterationlimit (settings (runtime s)) <=? num_iterations (statistics (runtime s)))
    eqn:E.
  - intros H. injection H as <-. left. split; [reflexivity | now apply Z.leb_le].
  - simpl. destruct (double_ge _ _) eqn:Et; [|discriminate].
    intros H. injection H as <-. right. split; reflexivity.
Qed.

Lemma report_not_stop (s s' : State) : report s <> Stop s'.
Proof. unfold report. destruct (_ =? 0); discriminate. Qed.

(** The solver objects and the point are not touched by logging. *)
Lemma report_go (s s1 : State) :
  report s = Go s1 ->
  basis s1 = basis s /\ factor s1 = factor s /\ redgrad s1 = redgrad s
  /\ gradient s1 = gradient s /\ redcosts s1 = redcosts s /\ pricing s1 = pricing s
  /\ atfsep s1 = atfsep s
  /\ primal (runtime s1) = primal (runtime s)
  /\ rowactivity (runtime s1) = rowactivity (runtime s)
  /\ dualvar (runtime s1) = dualvar (runtime s)
  /\ dualcon (runtime s1) = dualcon (runtime s)
  /\ status (runtime s1) = status (runtime s)
  /\ instance (runtime s1) = instance (runtime s)
  /\ settings (runtime s1) = settings (runtime s).
Proof.
  unfold report. destruct (_ =? 0); [discriminate|].
  intros H. injection H as <-.
  destruct (Z.rem _ _ =? 0); repeat split; reflexivity.
Qed.

Lemma priced_frame (s : State) :
  basis (fst (priced s)) = basis s /\ factor (fst (priced s)) = factor s
  /\ redgrad (fst (priced s)) = redgrad s
  /\ redcosts (fst (priced s)) = redcosts s
  /\ atfsep (fst (priced s)) = atfsep s
  /\ runtime (fst (priced s)) = runtime s.
Proof.
  unfold priced. destruct (getGradient s) as [g grad].
  destruct (Pricing_price _ _ _) as [pr minidx]. repeat split; reflexivity.
Qed.

(** *** [computerowmove] *)

(** C9: for every basis state and direction, [computerowmove] leaves through
    its first [return]: it sets [rowmove] to the product [A p] and does
    nothing else, so its result is that of [rowmove := A p] and does not
    depend on the basis; the transpose-based and status-dependent
    recomputation after that [return] is never run. *)
Theorem computerowmove_is_mat_vec (s : State) (b : Basis) :
  computerowmove_body s = Stop (with_rowmove s (rowmove_spec s))
  /\ computerowmove s = with_rowmove s (rowmove_spec s)
  /\ rowmove (computerowmove (with_basis s b)) = rowmove (computerowmove s).
Proof.
  split; [|split].
  - unfold computerowmove_body, andthen. reflexivity.
  - unfold computerowmove, computerowmove_body, andthen, returned. reflexivity.
  - unfold computerowmove, computerowmove_body, andthen, returned. reflexivity.
Qed.

(** *** Pricing finds no index *)

(** C3: in an iteration taken in the [atfsep] state (the limit checks
    passed), when pricing returns -1 the loop body sets the status to
    Optimal and breaks out of the loop at once; the basis (no
    deactivation), the factor, the reduced gradient and the point are as
    they were at the top of the iteration. *)
Theorem optimal_when_pricing_finds_none (s s1 s2 : State) :
  atfsep s = true ->
  check_limits s = Go s1 ->
  report s1 = Go s2 ->
  snd (priced s2) = -1 ->
  loop_body s = Stop (with_status (fst (priced s2)) OPTIMAL)
  /\ status (runtime (with_status (fst (priced s2)) OPTIMAL)) = OPTIMAL
  /\ basis (fst (priced s2)) = basis s
  /\ factor (fst (priced s2)) = factor s
  /\ redgrad (fst (priced s2)) = redgrad s
  /\ primal (runtime (fst (priced s2))) = primal (runtime s)
  /\ rowactivity (runtime (fst (priced s2))) = rowactivity (runtime s).
Proof.
  intros Hat Hc Hr Hp.
  destruct (check_limits_go _ _ Hc) as [Hs1 _].
  destruct (report_go _ _ Hr) as
    (Hb & Hf & Hrg & _ & _ & _ & Hatf & Hpr & Hra & _).
  destruct (priced_frame s2) as (Hb' & Hf' & Hrg' & _ & _ & Hrt').
  assert (atfsep s2 = true) as Hat2 by (rewrite Hatf, Hs1; exact Hat).
  split.
  - unfold loop_body. rewrite Hc. simpl. rewrite Hr. simpl.
    unfold direction. rewrite Hat2.
    unfold at_vertex.
    destruct (priced s2) as [s3 minidx]. simpl in Hp. subst minidx.
    reflexivity.
  - rewrite Hb', Hf', Hrg', Hrt', Hb, Hf, Hrg, Hpr, Hra, Hs1.
    repeat split; reflexivity.
Qed.

(** *** Zero curvature *)

(** The curvature is at most the threshold in magnitude, or is not a
    number: [computemaxsteplength] flags the direction and returns
    infinity. *)
Lemma computemaxsteplength_zero_curvature (s : State) (zcd : bool) :
  double_gt (fabs (snd (curvature s))) curvature_threshold = false ->
  computemaxsteplength s zcd = (fst (curvature s), double_infinity, true).
Proof.
  intros H. unfold computemaxsteplength.
  destruct (curvature s) as [s1 den]. simpl in *. rewrite H. reflexivity.
Qed.

(** C5 (as the code has it): in an [atfsep] iteration whose curvature term
    [p Q p] is not above the threshold in magnitude, the direction is
    flagged as a zero-curvature direction, the maximum step length is
    +infinity and the expand update of the factor is skipped (the factor is
    the one left by the search direction); the expand update of the reduced
    gradient is still made. *)
Theorem zero_curvature_skips_factor_expand (s : State) :
  let s1 := fst (curvature s) in
  let s2 := fst (curvature s1) in
  double_gt (fabs (snd (curvature s1))) curvature_threshold = false ->
  major_update s
  = (with_redgrad s2 (ReducedGradient_expand s2 (buffer_yp s2)), double_infinity, true)
  /\ factor (fst (fst (major_update s))) = factor s
  /\ redgrad (fst (fst (major_update s))) = ReducedGradient_expand s2 (buffer_yp s2).
Proof.
  intros s1 s2 H.
  assert (major_update s
          = (with_redgrad s2 (ReducedGradient_expand s2 (buffer_yp s2)),
             double_infinity, true)) as E.
  { unfold major_update.
    change (curvature s) with (s1, snd (curvature s)). cbv iota beta.
    rewrite (computemaxsteplength_zero_curvature s1 false H). reflexivity. }
  rewrite E. repeat split; reflexivity.
Qed.

(** *** No blocking constraint *)

Lemma advance_frame (s : State) (stepres : RatiotestResult) :
  status (runtime (advance s stepres)) = status (runtime s)
  /\ atfsep (advance s stepres) = atfsep s
  /\ basis (advance s stepres) = basis s
  /\ instance (runtime (advance s stepres)) = instance (runtime s).
Proof. repeat split; reflexivity. Qed.

(** C1 (what the code does where the claim expects Unbounded): when the
    ratio test reports no blocking constraint, whatever the step length
    (an infinite one along a zero-curvature direction included), the loop
    body does not break: it runs to its end, the status is the one the
    iteration started with, and the next iteration starts in the [atfsep]
    state.  The test that guards the assignment of Unbounded compares the
    index -1, not the step length, with infinity. *)
Theorem unbounded_ray_not_reported (s : State) (maxsteplength : double) (zcd : bool) :
  no_move s maxsteplength = false ->
  limitingconstraint (stepres_of s maxsteplength) = -1 ->
  step s maxsteplength zcd
  = Go (advance (unblocked s (stepres_of s maxsteplength)) (stepres_of s maxsteplength))
  /\ status (runtime (advance (unblocked s (stepres_of s maxsteplength))
                              (stepres_of s maxsteplength)))
     = status (runtime s)
  /\ atfsep (advance (unblocked s (stepres_of s maxsteplength))
                     (stepres_of s maxsteplength)) = true.
Proof.
  intros Hmove Hlc.
  assert (status (runtime (unblocked s (stepres_of s maxsteplength))) = status (runtime s)
          /\ atfsep (unblocked s (stepres_of s maxsteplength)) = true) as [Hst Hat].
  { unfold unblocked. rewrite Hlc, minus_one_is_not_infinity. split; reflexivity. }
  split; [|split].
  - unfold step. rewrite Hmove. cbv zeta. rewrite Hlc. reflexivity.
  - destruct (advance_frame (unblocked s (stepres_of s maxsteplength))
                            (stepres_of s maxsteplength)) as (-> & _). exact Hst.
  - destruct (advance_frame (unblocked s (stepres_of s maxsteplength))
                            (stepres_of s maxsteplength)) as (_ & -> & _). exact Hat.
Qed.

(** *** [reduce] *)

(** An index that is a position of an array: reading there is defined in
    the source. *)
Lemma geti_In (l : list Z) (i : Z) :
  0 <= i < Z.of_nat (length l) -> In (geti l i) l.
Proof.
  intros H. unfold geti. destruct (i <? 0) eqn:E; [apply Z.ltb_lt in E; lia|].
  apply nth_In. lia.
Qed.

(** C7: in [reduce], when the entering constraint is not among the inactive
    indices, the scan goes over the listed entries of the projected column
    [d] and leaves in [maxabsd] the position of one that no listed entry
    exceeds in magnitude.  The statement is for a scan that ends on a
    position of the inactive list, the only case in which the read
    [getinactive()[maxabsd]] is defined.  If that largest entry is below
    [d_zero_threshold] in magnitude, the process is ended by [exit(1)] (and
    so is the loop body that called [reduce]): no status is returned.
    Otherwise [reduce] returns, and the constraint to drop is the member of
    the inactive list at the position [maxabsd] (no entry at all exceeds
    the entry there when the nonzeros of [d] are all listed).  When the
    entering constraint is itself inactive, there is no scan: [d] is the
    unit vector at the position of that constraint, which is the
    constraint to drop. *)
Theorem reduce_aborts_or_selects_max (s : State) (newactivecon : Z) :
  let idx := indexof (getinactive (basis s)) newactivecon in
  let u := Vector_unit (Z.of_nat (length (getinactive (basis s)))) idx (buffer_d s) in
  let s1 := reduce_direction s newactivecon in
  let m := maxabsd_scan (buffer_d s1) in
  let small := double_lt (fabs (getd (value (buffer_d s1)) m))
                         (d_zero_threshold (settings (runtime s1))) in
  (idx = -1 <-> ~ In newactivecon (getinactive (basis s)))
  /\ (idx = -1 -> 0 <= m < Z.of_nat (length (getinactive (basis s1))) ->
      small = true ->
      reduce s newactivecon = Exit 1
      /\ no_larger (buffer_d s1) m
      /\ forall stepres zcd, limitingconstraint stepres = newactivecon ->
                             blocked s stepres zcd = Exit 1)
  /\ (idx = -1 -> 0 <= m < Z.of_nat (length (getinactive (basis s1))) ->
      small = false ->
      reduce s newactivecon = Stop (s1, m, geti (getinactive (basis s1)) m)
      /\ In (geti (getinactive (basis s1)) m) (getinactive (basis s1))
      /\ no_larger (buffer_d s1) m
      /\ (sparse (buffer_d s1) -> largest (buffer_d s1) m))
  /\ (idx <> -1 ->
      reduce s newactivecon = Stop (with_buffer_d s u, idx, newactivecon)
      /\ geti (getinactive (basis s)) idx = newactivecon
      /\ largest u idx).
Proof.
  intros idx u s1 m small. unfold reduce. fold idx. fold s1. fold m.
  split; [apply indexof_absent_iff | split; [|split]].
  - intros Hidx _ Hsmall. rewrite Hidx. simpl negb. cbv iota zeta.
    fold small. rewrite Hsmall. split; [reflexivity|].
    split; [apply maxabsd_scan_no_larger|].
    intros stepres zcd Hlc. unfold blocked, reduce. rewrite Hlc.
    fold idx. rewrite Hidx. simpl negb. cbv iota zeta.
    fold s1. fold m. fold small. rewrite Hsmall. reflexivity.
  - intros Hidx Hin Hsmall. rewrite Hidx. simpl negb. cbv iota zeta.
    fold small. rewrite Hsmall. split; [reflexivity|].
    split; [apply geti_In; exact Hin|].
    split; [apply maxabsd_scan_no_larger|].
    intros Hsp. apply no_larger_largest; [exact Hsp | apply maxabsd_scan_no_larger].
  - intros Hidx. destruct (idx =? -1) eqn:E; [apply Z.eqb_eq in E; contradiction|].
    simpl negb. cbv iota zeta. split; [reflexivity|].
    split; [apply indexof_found; exact Hidx | apply unit_largest].
Qed.

(** *** The code after the loop *)

Section Duals.
Variables (ncon : Z) (lambda : Vector) (indexinfactor : list Z).

Lemma recover_dual_lengths (dv : Vector * Vector) (e : Z) :
  length (value (fst (recover_dual ncon lambda indexinfactor dv e)))
  = length (value (fst dv))
  /\ length (value (snd (recover_dual ncon lambda indexinfactor dv e)))
     = length (value (snd dv)).
Proof.
  destruct dv as [dvar dcon]. unfold recover_dual.
  destruct (ncon <=? e); simpl; rewrite ?setd_length; split; reflexivity.
Qed.

Lemma recover_dual_sets (dv : Vector * Vector) (e : Z) :
  (ncon <= e -> e - ncon < Z.of_nat (length (value (fst dv)))) ->
  (e < ncon -> 0 <= e < Z.of_nat (length (value (snd dv)))) ->
  dual_in_place ncon lambda indexinfactor e (recover_dual ncon lambda indexinfactor dv e).
Proof.
  intros Hv Hc. destruct dv as [dvar dcon]. unfold recover_dual, dual_in_place.
  destruct (ncon <=? e) eqn:E; simpl in *.
  - apply Z.leb_le in E. split; [intros _ | lia].
    apply getd_setd_same. specialize (Hv E). lia.
  - apply Z.leb_gt in E. split; [lia | intros _].
    apply getd_setd_same. apply Hc. exact E.
Qed.

Lemma recover_dual_keeps (dv : Vector * Vector) (e e' : Z) :
  dual_in_place ncon lambda indexinfactor e dv ->
  (ncon <= e -> e - ncon < Z.of_nat (length (value (fst dv)))) ->
  (e < ncon -> 0 <= e < Z.of_nat (length (value (snd dv)))) ->
  dual_in_place ncon lambda indexinfactor e (recover_dual ncon lambda indexinfactor dv e').
Proof.
  intros [Hvar Hcon] Hv Hc. destruct dv as [dvar dcon].
  destruct (Z.eq_dec e' e) as [-> | Hne]; [apply recover_dual_sets; assumption|].
  unfold recover_dual, dual_in_place.
  destruct (ncon <=? e') eqn:E; simpl in *.
  - split; [intros H | exact Hcon].
    rewrite getd_setd_other by lia. apply Hvar. exact H.
  - split; [exact Hvar | intros H].
    rewrite getd_setd_other by lia. apply Hcon. exact H.
Qed.

(** After the loop over the active indices, the dual of each of them is in
    place. *)
Lemma recover_duals_in_place (l : list Z) (dv : Vector * Vector) (e : Z) :
  (ncon <= e -> e - ncon < Z.of_nat (length (value (fst dv)))) ->
  (e < ncon -> 0 <= e < Z.of_nat (length (value (snd dv)))) ->
  In e l \/ dual_in_place ncon lambda indexinfactor e dv ->
  dual_in_place ncon lambda indexinfactor e (fold_left (recover_dual ncon lambda indexinfactor) l dv).
Proof.
  revert dv. induction l as [|h l IH]; intros dv Hv Hc Hin; simpl.
  - destruct Hin as [[] | H]. exact H.
  - destruct (recover_dual_lengths dv h) as [Lv Lc].
    apply IH; rewrite ?Lv, ?Lc; try assumption.
    destruct Hin as [[-> | Hin] | Hp].
    + right. apply recover_dual_sets; assumption.
    + left. exact Hin.
    + right. apply recover_dual_keeps; assumption.
Qed.

(** An entry that is the slot of no active index is not written. *)
Lemma recover_duals_elsewhere (l : list Z) (dv : Vector * Vector) :
  (forall j, (forall e, In e l -> ncon <= e -> e - ncon <> j) ->
     getd (value (fst (fold_left (recover_dual ncon lambda indexinfactor) l dv))) j
     = getd (value (fst dv)) j)
  /\ (forall j, (forall e, In e l -> e < ncon -> e <> j) ->
        getd (value (snd (fold_left (recover_dual ncon lambda indexinfactor) l dv))) j
        = getd (value (snd dv)) j).
Proof.
  revert dv. induction l as [|h l IH]; intros dv; simpl; [split; reflexivity|].
  destruct (IH (recover_dual ncon lambda indexinfactor dv h)) as [IHv IHc].
  split; intros j Hj.
  - rewrite IHv by (intros e He; apply Hj; right; exact He).
    destruct dv as [dvar dcon]. unfold recover_dual.
    destruct (ncon <=? h) eqn:E; simpl; [|reflexivity].
    apply Z.leb_le in E. apply getd_setd_other. apply Hj; [left; reflexivity | exact E].
  - rewrite IHc by (intros e He; apply Hj; right; exact He).
    destruct dv as [dvar dcon]. unfold recover_dual.
    destruct (ncon <=? h) eqn:E; simpl; [reflexivity|].
    apply Z.leb_gt in E. apply getd_setd_other. apply Hj; [left; reflexivity | exact E].
Qed.

End Duals.

Lemma recover_duals_frame (s : State) :
  let lambda := snd (getReducedCosts (fire (loginformation s))) in
  let dv := fold_left (recover_dual (num_con (instance (runtime s))) lambda
                                    (getindexinfactor (basis s)))
                      (getactive (basis s))
                      (dualvar (runtime s), dualcon (runtime s)) in
  dualvar (runtime (recover_duals s)) = fst dv
  /\ dualcon (runtime (recover_duals s)) = snd dv
  /\ basis (recover_duals s) = basis s
  /\ primal (runtime (recover_duals s)) = primal (runtime s)
  /\ status (runtime (recover_duals s)) = status (runtime s)
  /\ instance (runtime (recover_duals s)) = instance (runtime s).
Proof.
  unfold recover_duals. cbv zeta.
  destruct (getReducedCosts (fire (loginformation s))) as [rc lambda]. simpl.
  destruct (fold_left _ _ _) as [dvar dcon]. repeat split; reflexivity.
Qed.

Lemma finish_frame (s : State) :
  status (runtime (finish s)) = status (runtime (recover_duals s))
  /\ dualvar (runtime (finish s)) = dualvar (runtime (recover_duals s))
  /\ dualcon (runtime (finish s)) = dualcon (runtime (recover_duals s))
  /\ primal (runtime (finish s))
     = (if getnumactive (basis (recover_duals s))
           =? num_var (instance (runtime (recover_duals s)))
        then Basis_recomputex (recover_duals s) (instance (runtime (recover_duals s)))
        else primal (runtime (recover_duals s))).
Proof.
  unfold finish. cbv zeta.
  destruct (getnumactive (basis (recover_duals s))
            =? num_var (instance (runtime (recover_duals s))));
    repeat split; reflexivity.
Qed.

Lemma finish_primal (s : State) :
  primal (runtime (finish s))
  = (if getnumactive (basis s) =? num_var (instance (runtime s))
     then Basis_recomputex (recover_duals s) (instance (runtime s))
     else primal (runtime s)).
Proof.
  destruct (finish_frame s) as (_ & _ & _ & ->).
  destruct (recover_duals_frame s) as (_ & _ & -> & -> & _ & ->). reflexivity.
Qed.

(** The code after the loop leaves the dual of every active index in
    place. *)
Lemma finish_duals_in_place (s : State) (e : Z) :
  In e (getactive (basis s)) ->
  (num_con (instance (runtime s)) <= e ->
   e - num_con (instance (runtime s)) < Z.of_nat (length (value (dualvar (runtime s))))) ->
  (e < num_con (instance (runtime s)) ->
   0 <= e < Z.of_nat (length (value (dualcon (runtime s))))) ->
  dual_in_place (num_con (instance (runtime s)))
                (snd (getReducedCosts (fire (loginformation s))))
                (getindexinfactor (basis s)) e
                (dualvar (runtime (finish s)), dualcon (runtime (finish s))).
Proof.
  intros He Hv Hc.
  destruct (finish_frame s) as (_ & -> & -> & _).
  destruct (recover_duals_frame s) as (-> & -> & _).
  rewrite <- surjective_pairing.
  apply recover_duals_in_place; [exact Hv | exact Hc | left; exact He].
Qed.

(** C8: after the loop, for each active index [e] the dual is read from the
    final reduced costs at position [indexinfactor[e]] and is written to
    [dualvar[e - num_con]] when [e >= num_con] and to [dualcon[e]]
    otherwise; the point is replaced by [recomputex] when the number of
    active indices is [num_var], and is left as it is when it is not. *)
Theorem finish_recovers_duals_and_primal (s : State) :
  let lambda := snd (getReducedCosts (fire (loginformation s))) in
  let ncon := num_con (instance (runtime s)) in
  let dual e := getd (value lambda) (geti (getindexinfactor (basis s)) e) in
  (forall e, In e (getactive (basis s)) ->
     (ncon <= e -> e - ncon < Z.of_nat (length (value (dualvar (runtime s)))) ->
        getd (value (dualvar (runtime (finish s)))) (e - ncon) = dual e)
     /\ (0 <= e < ncon -> e < Z.of_nat (length (value (dualcon (runtime s)))) ->
         getd (value (dualcon (runtime (finish s)))) e = dual e))
  /\ (getnumactive (basis s) = num_var (instance (runtime s)) ->
      primal (runtime (finish s))
      = Basis_recomputex (recover_duals s) (instance (runtime s)))
  /\ (getnumactive (basis s) <> num_var (instance (runtime s)) ->
      primal (runtime (finish s)) = primal (runtime s)).
Proof.
  intros lambda ncon dual. split; [|split].
  - intros e He. split.
    + intros Hge Hlen.
      destruct (finish_duals_in_place s e He) as [Hvar _]; [intros _; exact Hlen | lia |].
      apply Hvar. exact Hge.
    + intros Hrange Hlen.
      destruct (finish_duals_in_place s e He) as [_ Hcon]; [lia | intros _; lia |].
      apply Hcon. lia.
  - intros H. rewrite finish_primal. apply Z.eqb_eq in H. rewrite H. reflexivity.
  - intros H. rewrite finish_primal. apply Z.eqb_neq in H. rewrite H. reflexivity.
Qed.

(** *** How the loop is left *)

Lemma blocked_not_stop (s s' : State) (stepres : RatiotestResult) (zcd : bool) :
  blocked s stepres zcd <> Stop s'.
Proof.
  unfold blocked.
  destruct (reduce s (limitingconstraint stepres)) as [[[s1 m] c] | [[s1 m] c] | code | ];
    simpl; try discriminate;
    destruct (Basis_activate _ _ _ _); discriminate.
Qed.

Lemma step_not_stop (s s' : State) (maxsteplength : double) (zcd : bool) :
  step s maxsteplength zcd <> Stop s'.
Proof.
  unfold step. destruct (no_move s maxsteplength); [discriminate|].
  cbv zeta. destruct (negb _).
  - pose proof (blocked_not_stop s) as H.
    destruct (blocked s (stepres_of s maxsteplength) zcd) eqn:E; simpl; try discriminate.
    exfalso. exact (H _ _ _ E).
  - discriminate.
Qed.

(** A [break] is one of the three in the loop body: the iteration limit, the
    time limit, or pricing finding no index. *)
Lemma loop_body_stop (s s' : State) :
  loop_body s = Stop s' ->
  check_limits s = Stop s'
  \/ exists s1 s2, check_limits s = Go s1 /\ report s1 = Go s2
                   /\ atfsep s2 = true /\ snd (priced s2) = -1
                   /\ s' = with_status (fst (priced s2)) OPTIMAL.
Proof.
  unfold loop_body.
  destruct (check_limits s) as [s1 | s1 | code | ] eqn:Hc; simpl; try discriminate.
  2:{ intros H. left. exact H. }
  destruct (report s1) as [s2 | s2 | code | ] eqn:Hr; simpl; try discriminate.
  2:{ exfalso. exact (report_not_stop _ _ Hr). }
  unfold direction. destruct (atfsep s2) eqn:Hat.
  - unfold at_vertex. destruct (priced s2) as [s3 minidx] eqn:Hp.
    destruct (minidx =? -1) eqn:Em; simpl.
    + intros H. injection H as <-. right. exists s1, s2.
      apply Z.eqb_eq in Em. rewrite Hp. simpl. repeat split; try reflexivity; assumption.
    + destruct (major_update _) as [[s4 msl] zcd]. intros H.
      exfalso. exact (step_not_stop _ _ _ _ H).
  - simpl. intros H. exfalso. exact (step_not_stop _ _ _ _ H).
Qed.

Lemma loop_body_stop_status (s s' : State) :
  loop_body s = Stop s' ->
  (status (runtime s') = ITERATIONLIMIT
   /\ iterationlimit (settings (runtime s)) <= num_iterations (statistics (runtime s)))
  \/ (status (runtime s') = TIMELIMIT
      /\ double_ge (snd (readRunHighsClock (timer (runtime s))))
                   (timelimit (settings (runtime s))) = true)
  \/ status (runtime s') = OPTIMAL.
Proof.
  intros H. destruct (loop_body_stop _ _ H) as [Hc | (s1 & s2 & _ & _ & _ & _ & ->)].
  - destruct (check_limits_stop _ _ Hc) as [Hi | Ht]; [left | right; left]; assumption.
  - right. right. reflexivity.
Qed.

(** X3: every end of the loop by [break] carries one of three statuses,
    IterationLimit, TimeLimit or Optimal, whatever the status was before;
    Unbounded, Infeasible and Error are not among them. *)
Lemma loop_exit_status (fuel : nat) (s s' : State) :
  solve_loop fuel s = Finished s' ->
  status (runtime s') = ITERATIONLIMIT \/ status (runtime s') = TIMELIMIT
  \/ status (runtime s') = OPTIMAL.
Proof.
  revert s. induction fuel as [|fuel IH]; intros s; simpl; [discriminate|].
  destruct (loop_body s) as [s1 | s1 | code | ] eqn:Hb; try discriminate.
  - apply IH.
  - intros H. injection H as <-.
    destruct (loop_body_stop_status _ _ Hb) as [[? _] | [[? _] | ?]]; tauto.
Qed.

(** A limit check that fires ends the pass with the status of that limit. *)
Lemma loop_body_limit (s s' : State) :
  loop_body s = Stop s' ->
  (iterationlimit (settings (runtime s)) <= num_iterations (statistics (runtime s)) ->
   status (runtime s') = ITERATIONLIMIT)
  /\ (num_iterations (statistics (runtime s)) < iterationlimit (settings (runtime s)) ->
      double_ge (snd (readRunHighsClock (timer (runtime s))))
                (timelimit (settings (runtime s))) = true ->
      status (runtime s') = TIMELIMIT).
Proof.
  unfold loop_body, check_limits. intros H. split.
  - intros Hle. apply Z.leb_le in Hle. rewrite Hle in H. simpl in H.
    injection H as <-. reflexivity.
  - intros Hlt Hge. apply Z.leb_gt in Hlt. rewrite Hlt in H. simpl in H, Hge.
    rewrite Hge in H. simpl in H. injection H as <-. reflexivity.
Qed.

(** C2 (as the code has it): however the loop of a solve is left, and so
    for every status other than Optimal it can be left with, the solve
    returns, and the status the loop was left with is the status of the
    runtime then: the code after the loop does not change it.  A limit check
    that fires in the pass [t] that leaves the loop sets the status of its
    limit.  The code after the loop still writes the dual of
    every active index and replaces the point by [recomputex] when the
    active set is full; it leaves the point as it is when the number of
    active indices differs from [num_var], and leaves every entry of
    [dualvar] and [dualcon] that is the slot of no active index as it is. *)
Theorem limit_exit_then_finish
        (fuel : nat) (rt : Runtime) (x0 ra : Vector) (b0 : Basis) (t s' : State) :
  solve_loop fuel (solve_init rt x0 ra b0) = Finished s' ->
  loop_body t = Stop s' ->
  solve fuel rt x0 ra b0 = Finished (finish s')
  /\ (iterationlimit (settings (runtime t)) <= num_iterations (statistics (runtime t)) ->
      status (runtime s') = ITERATIONLIMIT)
  /\ (num_iterations (statistics (runtime t)) < iterationlimit (settings (runtime t)) ->
      double_ge (snd (readRunHighsClock (timer (runtime t))))
                (timelimit (settings (runtime t))) = true ->
      status (runtime s') = TIMELIMIT)
  /\ status (runtime (finish s')) = status (runtime s')
  /\ (getnumactive (basis s') <> num_var (instance (runtime s')) ->
      primal (runtime (finish s')) = primal (runtime s'))
  /\ (getnumactive (basis s') = num_var (instance (runtime s')) ->
      primal (runtime (finish s'))
      = Basis_recomputex (recover_duals s') (instance (runtime s')))
  /\ (forall e, In e (getactive (basis s')) ->
      (num_con (instance (runtime s')) <= e ->
       e - num_con (instance (runtime s'))
       < Z.of_nat (length (value (dualvar (runtime s')))) ->
       getd (value (dualvar (runtime (finish s')))) (e - num_con (instance (runtime s')))
       = getd (value (snd (getReducedCosts (fire (loginformation s')))))
              (geti (getindexinfactor (basis s')) e))
      /\ (0 <= e < num_con (instance (runtime s')) ->
          e < Z.of_nat (length (value (dualcon (runtime s')))) ->
          getd (value (dualcon (runtime (finish s')))) e
          = getd (value (snd (getReducedCosts (fire (loginformation s')))))
                 (geti (getindexinfactor (basis s')) e)))
  /\ (forall j,
        (forall e, In e (getactive (basis s')) ->
                   num_con (instance (runtime s')) <= e ->
                   e - num_con (instance (runtime s')) <> j) ->
        getd (value (dualvar (runtime (finish s')))) j
        = getd (value (dualvar (runtime s'))) j)
  /\ (forall j,
        (forall e, In e (getactive (basis s')) ->
                   e < num_con (instance (runtime s')) -> e <> j) ->
        getd (value (dualcon (runtime (finish s')))) j
        = getd (value (dualcon (runtime s'))) j).
Proof.
  intros Hl Ht.
  destruct (finish_frame s') as (Hst & Hdv & Hdc & _).
  destruct (recover_duals_frame s') as (Hdv' & Hdc' & _ & _ & Hst' & _).
  destruct (loop_body_limit _ _ Ht) as [Hil Htl].
  split; [|split; [|split; [|split; [|split; [|split; [|split; [|split]]]]]]].
  - unfold solve. rewrite Hl. reflexivity.
  - exact Hil.
  - exact Htl.
  - rewrite Hst. exact Hst'.
  - intros H. rewrite finish_primal. apply Z.eqb_neq in H. rewrite H. reflexivity.
  - intros H. rewrite finish_primal. apply Z.eqb_eq in H. rewrite H. reflexivity.
  - intros e He. split.
    + intros Hge Hlen.
      destruct (finish_duals_in_place s' e He) as [Hvar _]; [intros _; exact Hlen | lia |].
      apply Hvar. exact Hge.
    + intros Hrange Hlen.
      destruct (finish_duals_in_place s' e He) as [_ Hcon]; [lia | intros _; lia |].
      apply Hcon. lia.
  - intros j Hj. rewrite Hdv, Hdv'.
    apply (recover_duals_elsewhere (num_con (instance (runtime s')))). exact Hj.
  - intros j Hj. rewrite Hdc, Hdc'.
    apply (recover_duals_elsewhere (num_con (instance (runtime s')))). exact Hj.
Qed.

(** *** Iteration limit zero *)

Lemma solve_init_frame (rt : Runtime) (x0 ra : Vector) (b0 : Basis) :
  settings (runtime (solve_init rt x0 ra b0)) = settings rt
  /\ num_iterations (statistics (runtime (solve_init rt x0 ra b0)))
     = num_iterations (statistics rt)
  /\ primal (runtime (solve_init rt x0 ra b0)) = x0
  /\ basis (solve_init rt x0 ra b0) = b0
  /\ instance (runtime (solve_init rt x0 ra b0)) = instance rt
  /\ atfsep (solve_init rt x0 ra b0) = (getnumactive b0 =? num_var (instance rt)).
Proof. repeat split; reflexivity. Qed.

(** C4 (as the code has it): with an iteration limit of 0 the first check
    of the loop fires: the solve ends with status IterationLimit without
    taking a step.  The returned point is the crash point [x0] when the
    number of active indices of the crash basis differs from [num_var]; when
    the crash basis is full the code after the loop replaces it by
    [basis.recomputex(instance)]. *)
Theorem iteration_limit_zero (fuel : nat) (rt : Runtime) (x0 ra : Vector) (b0 : Basis) :
  iterationlimit (settings rt) = 0 ->
  0 <= num_iterations (statistics rt) ->
  let s0 := with_status (solve_init rt x0 ra b0) ITERATIONLIMIT in
  solve (S fuel) rt x0 ra b0 = Finished (finish s0)
  /\ status (runtime (finish s0)) = ITERATIONLIMIT
  /\ (getnumactive b0 <> num_var (instance rt) -> primal (runtime (finish s0)) = x0)
  /\ (getnumactive b0 = num_var (instance rt) ->
      primal (runtime (finish s0)) = Basis_recomputex (recover_duals s0) (instance rt)).
Proof.
  intros Hlim Hnum s0.
  destruct (solve_init_frame rt x0 ra b0) as (Hset & Hit & Hx & Hb & Hinst & _).
  assert (check_limits (solve_init rt x0 ra b0) = Stop s0) as Hc.
  { unfold check_limits. rewrite Hset, Hit, Hlim.
    destruct (0 <=? num_iterations (statistics rt)) eqn:E; [reflexivity|].
    apply Z.leb_gt in E. lia. }
  split; [|split; [|split]].
  - unfold solve. simpl solve_loop. unfold loop_body. rewrite Hc. reflexivity.
  - destruct (finish_frame s0) as (-> & _).
    destruct (recover_duals_frame s0) as (_ & _ & _ & _ & -> & _). reflexivity.
  - intros H. rewrite finish_primal. apply Z.eqb_neq in H.
    change (getnumactive (basis s0) =? num_var (instance (runtime s0)))
      with (getnumactive b0 =? num_var (instance rt)).
    rewrite H. reflexivity.
  - intros H. rewrite finish_primal. apply Z.eqb_eq in H.
    change (getnumactive (basis s0) =? num_var (instance (runtime s0)))
      with (getnumactive b0 =? num_var (instance rt)).
    rewrite H. reflexivity.
Qed.

(** *** The state flag [atfsep] *)

Lemma reduce_frame (s s1 : State) (n m c : Z) (R : Type) :
  @call R _ (reduce s n) = Go (s1, m, c) ->
  atfsep s1 = atfsep s /\ runtime s1 = runtime s.
Proof.
  unfold reduce, reduce_direction.
  destruct (negb _); simpl.
  - intros H. injection H as <- _ _. split; reflexivity.
  - destruct (Basis_Ztprod _ _ _ _ _) as [b d]. simpl.
    destruct (double_lt _ _); simpl; [discriminate|].
    intros H. injection H as <- _ _. split; reflexivity.
Qed.

Lemma blocked_atfsep (s s' : State) (stepres : RatiotestResult) (zcd : bool) :
  blocked s stepres zcd = Go s' ->
  atfsep s' = (if getnumactive (basis s') =? num_var (instance (runtime s'))
               then atfsep s else false).
Proof.
  unfold blocked.
  destruct (call (reduce s (limitingconstraint stepres)))
    as [[[s1 m] c] | r | code | ] eqn:Hr; simpl; try discriminate.
  destruct (reduce_frame _ _ _ _ _ _ Hr) as [Hat _].
  destruct (Basis_activate _ _ _ _) as [b pr].
  match goal with
  | |- Go (if negb (?n =? ?v) then _ else _) = _ -> _ => destruct (n =? v) eqn:E
  end; simpl; intros H; injection H as <-; simpl.
  - rewrite E. destruct zcd; exact Hat.
  - rewrite E. reflexivity.
Qed.

(** The flag is not touched by the search direction. *)
Lemma tidyup_atfsep (s : State) : atfsep (tidyup s) = atfsep s.
Proof. unfold tidyup. split_lets. reflexivity. Qed.

Lemma computerowmove_atfsep (s : State) : atfsep (computerowmove s) = atfsep s.
Proof. reflexivity. Qed.

Lemma computesearchdirection_major_atfsep (s : State) :
  atfsep (computesearchdirection_major s) = atfsep s.
Proof. unfold computesearchdirection_major. split_lets; reflexivity. Qed.

Lemma computesearchdirection_minor_atfsep (s : State) :
  atfsep (computesearchdirection_minor s) = atfsep s.
Proof. unfold computesearchdirection_minor. split_lets; reflexivity. Qed.

Lemma major_direction_atfsep (s : State) (minidx : Z) :
  atfsep (major_direction s minidx) = atfsep s.
Proof.
  unfold major_direction. cbv zeta.
  destruct (Basis_btran _ _ _ _ _) as [b yp].
  rewrite tidyup_atfsep, computerowmove_atfsep.
  simpl atfsep. rewrite computesearchdirection_major_atfsep. reflexivity.
Qed.

Lemma computemaxsteplength_atfsep (s : State) (zcd : bool) :
  atfsep (fst (fst (computemaxsteplength s zcd))) = atfsep s.
Proof.
  unfold computemaxsteplength, curvature. cbv zeta.
  destruct (double_gt _ _); [|reflexivity].
  destruct (getGradient _) as [g grad].
  destruct (double_lt _ _); reflexivity.
Qed.

Lemma major_update_atfsep (s : State) :
  atfsep (fst (fst (major_update s))) = atfsep s.
Proof.
  unfold major_update. cbv zeta.
  destruct (curvature s) as [s1 den] eqn:Hc.
  assert (atfsep s1 = atfsep s) as H1
    by (unfold curvature in Hc; injection Hc as <- _; reflexivity).
  pose proof (computemaxsteplength_atfsep s1 false) as H2.
  destruct (computemaxsteplength s1 false) as [[s2 msl] z]. simpl in H2.
  destruct (negb z); simpl; congruence.
Qed.

(** Neither branch of the first half of the loop body sets or clears the
    flag: at the test on the direction it is the flag the iteration started
    with. *)
Lemma direction_atfsep (s s' : State) (m : double) (z : bool) :
  direction s = Go (s', m, z) -> atfsep s' = atfsep s.
Proof.
  unfold direction. destruct (atfsep s) eqn:Hat.
  - unfold at_vertex. destruct (priced s) as [s1 minidx] eqn:Hp.
    destruct (minidx =? -1); [discriminate|].
    intros H. injection H as H.
    pose proof (major_update_atfsep (major_direction s1 minidx)) as Hr.
    rewrite H in Hr. simpl in Hr. rewrite Hr, major_direction_atfsep.
    destruct (priced_frame s) as (_ & _ & _ & _ & Hf & _). rewrite Hp in Hf.
    simpl in Hf. rewrite Hf. exact Hat.
  - intros H. injection H as <- _ _. unfold on_face.
    rewrite tidyup_atfsep, computerowmove_atfsep, computesearchdirection_minor_atfsep.
    exact Hat.
Qed.

(** The flag after the second half of the loop body, from the flag at its
    start. *)
Lemma step_atfsep (s s' : State) (maxsteplength : double) (zcd : bool) :
  step s maxsteplength zcd = Go s' ->
  atfsep s'
  = (if no_move s maxsteplength then true
     else if limitingconstraint (stepres_of s maxsteplength) =? -1 then true
     else if getnumactive (basis s') =? num_var (instance (runtime s'))
          then atfsep s else false).
Proof.
  intros Hstep.
  unfold step in Hstep. destruct (no_move s maxsteplength).
  - injection Hstep as <-. reflexivity.
  - cbv zeta in Hstep.
    destruct (limitingconstraint (stepres_of s maxsteplength) =? -1) eqn:E; simpl in Hstep.
    + injection Hstep as <-. reflexivity.
    + destruct (blocked s (stepres_of s maxsteplength) zcd) as [s1 | s1 | code | ] eqn:Hb;
        simpl in Hstep; try discriminate.
      injection Hstep as <-.
      destruct (advance_frame s1 (stepres_of s maxsteplength)) as (_ & -> & -> & ->).
      exact (blocked_atfsep _ _ _ _ Hb).
Qed.

(** C6 (as the code has it): the loop starts in the [atfsep] state exactly
    when the crash basis has [num_var] active indices.  After that the flag
    follows the step, not the size of the active set.  Take an iteration
    that runs to its end, [s] being the state at its top and [s3] the state
    at its test on the direction: the limit checks, the logging and the
    search direction have not touched the flag.  If the iteration does not
    move, or finds no blocking constraint, the next iteration starts in the
    [atfsep] state whatever the number of active indices; if it activates a
    blocking constraint, the next iteration starts out of the [atfsep]
    state when the number of active indices differs from [num_var], and
    otherwise with the flag this iteration started with. *)
Theorem atfsep_transitions (rt : Runtime) (x0 ra : Vector) (b0 : Basis)
        (s s1 s2 s3 s' : State) (maxsteplength : double) (zcd : bool) :
  check_limits s = Go s1 ->
  report s1 = Go s2 ->
  direction s2 = Go (s3, maxsteplength, zcd) ->
  loop_body s = Go s' ->
  atfsep (solve_init rt x0 ra b0) = (getnumactive b0 =? num_var (instance rt))
  /\ atfsep s3 = atfsep s
  /\ atfsep s'
     = (if no_move s3 maxsteplength then true
        else if limitingconstraint (stepres_of s3 maxsteplength) =? -1 then true
        else if getnumactive (basis s') =? num_var (instance (runtime s'))
             then atfsep s else false).
Proof.
  intros Hc Hr Hd Hb.
  assert (atfsep s3 = atfsep s) as Hat.
  { rewrite (direction_atfsep _ _ _ _ Hd).
    destruct (report_go _ _ Hr) as (_ & _ & _ & _ & _ & _ & -> & _).
    destruct (check_limits_go _ _ Hc) as [-> _]. reflexivity. }
  split; [reflexivity | split; [exact Hat|]].
  unfold loop_body in Hb. rewrite Hc in Hb. simpl in Hb.
  rewrite Hr in Hb. simpl in Hb. rewrite Hd in Hb. simpl in Hb.
  rewrite (step_atfsep _ _ _ _ Hb), Hat. reflexivity.
Qed.

End SolverProperties.

(** ** The clique table *)

Lemma complement_col (v : HighsCliqueTable.CliqueVar) :
  HighsCliqueTable.wf v ->
  HighsCliqueTable.col (HighsCliqueTable.complement v) = HighsCliqueTable.col v.
Proof.
  intros [Hc _]. unfold HighsCliqueTable.complement, HighsCliqueTable.CliqueVar_new.
  simpl. apply Z.mod_small. exact Hc.
Qed.

(** C10: for two clique variables of the same column [haveCommonClique]
    returns false, in both overloads, and the stored clique sets are not
    consulted: the table (and the caller's query counter) is returned as it
    was, whatever [findCommonCliqueId] would do.  A literal and its own
    complement are such a pair. *)
Theorem haveCommonClique_same_col
        (Store : Type)
        (findCommonCliqueId : Z -> Store -> HighsCliqueTable.CliqueVar ->
                              HighsCliqueTable.CliqueVar -> Z * Z * Store)
        (t : HighsCliqueTable.Table Store) (numQueries : Z)
        (v1 v2 : HighsCliqueTable.CliqueVar) :
  HighsCliqueTable.col v1 = HighsCliqueTable.col v2 ->
  HighsCliqueTable.haveCommonClique findCommonCliqueId t v1 v2 = (false, t)
  /\ HighsCliqueTable.haveCommonClique_counted findCommonCliqueId numQueries t v1 v2
     = (false, numQueries, t)
  /\ (HighsCliqueTable.wf v1 ->
      HighsCliqueTable.haveCommonClique findCommonCliqueId t v1
                                        (HighsCliqueTable.complement v1)
      = (false, t)).
Proof.
  intros Hcol.
  unfold HighsCliqueTable.haveCommonClique, HighsCliqueTable.haveCommonClique_counted.
  split; [|split].
  - rewrite Hcol, Z.eqb_refl. reflexivity.
  - rewrite Hcol, Z.eqb_refl. reflexivity.
  - intros Hwf. rewrite (complement_col v1 Hwf), Z.eqb_refl. reflexivity.
Qed.

(** * Further properties *)

(** ** The solver, continued *)

Section MoreSolverProperties.
Context {T : Types} {C : Collaborators}.

(** *** The runtime is not touched by the search direction *)

Lemma tidyup_runtime (s : State) : runtime (tidyup s) = runtime s.
Proof. unfold tidyup. split_lets. reflexivity. Qed.

Lemma computesearchdirection_major_runtime (s : State) :
  runtime (computesearchdirection_major s) = runtime s.
Proof. unfold computesearchdirection_major. split_lets; reflexivity. Qed.

Lemma computesearchdirection_minor_runtime (s : State) :
  runtime (computesearchdirection_minor s) = runtime s.
Proof. unfold computesearchdirection_minor. split_lets; reflexivity. Qed.

Lemma major_direction_runtime (s : State) (minidx : Z) :
  runtime (major_direction s minidx) = runtime s.
Proof.
  unfold major_direction. cbv zeta.
  destruct (Basis_btran _ _ _ _ _) as [b yp].
  rewrite tidyup_runtime. unfold computerowmove, computerowmove_body, andthen, returned.
  simpl runtime. rewrite computesearchdirection_major_runtime. reflexivity.
Qed.

Lemma computemaxsteplength_runtime (s : State) (zcd : bool) :
  runtime (fst (fst (computemaxsteplength s zcd))) = runtime s.
Proof.
  unfold computemaxsteplength, curvature. cbv zeta.
  destruct (double_gt _ _); [|reflexivity].
  destruct (getGradient _) as [g grad].
  destruct (double_lt _ _); reflexivity.
Qed.

Lemma major_update_runtime (s : State) :
  runtime (fst (fst (major_update s))) = runtime s.
Proof.
  unfold major_update. cbv zeta.
  destruct (curvature s) as [s1 den] eqn:Hc.
  assert (runtime s1 = runtime s) as H1 by (unfold curvature in Hc; injection Hc as <- _; reflexivity).
  pose proof (computemaxsteplength_runtime s1 false) as H2.
  destruct (computemaxsteplength s1 false) as [[s2 msl] z]. simpl in H2.
  destruct (negb z); simpl; congruence.
Qed.

Lemma direction_runtime (s s' : State) (m : double) (z : bool) :
  direction s = Go (s', m, z) -> runtime s' = runtime s.
Proof.
  unfold direction. destruct (atfsep s).
  - unfold at_vertex. destruct (priced s) as [s1 minidx] eqn:Hp.
    destruct (minidx =? -1); [discriminate|].
    intros H. injection H as H.
    pose proof (major_update_runtime (major_direction s1 minidx)) as Hr.
    rewrite H in Hr. simpl in Hr. rewrite Hr, major_direction_runtime.
    destruct (priced_frame s) as (_ & _ & _ & _ & _ & Hrt). rewrite Hp in Hrt. exact Hrt.
  - intros H. injection H as <- _ _. unfold on_face.
    rewrite tidyup_runtime. unfold computerowmove, computerowmove_body, andthen, returned.
    simpl runtime. apply computesearchdirection_minor_runtime.
Qed.

Lemma blocked_runtime (s s' : State) (stepres : RatiotestResult) (zcd : bool) :
  blocked s stepres zcd = Go s' -> runtime s' = runtime s.
Proof.
  unfold blocked.
  destruct (call (reduce s (limitingconstraint stepres)))
    as [[[s1 m] c] | r | code | ] eqn:Hr; simpl; try discriminate.
  destruct (reduce_frame _ _ _ _ _ _ Hr) as [_ Hrt].
  destruct (Basis_activate _ _ _ _) as [b pr].
  intros H. injection H as <-.
  destruct (negb (_ =? _)); destruct (negb zcd); simpl; exact Hrt.
Qed.

Lemma blocked_factor (s s' : State) (stepres : RatiotestResult) :
  blocked s stepres true = Go s' -> factor s' = factor s.
Proof.
  unfold blocked, reduce, reduce_direction.
  destruct (negb (indexof _ _ =? -1)); simpl.
  - destruct (Basis_activate _ _ _ _) as [b pr].
    intros H. injection H as <-. destruct (negb (_ =? _)); reflexivity.
  - destruct (Basis_Ztprod _ _ _ _ _) as [b d]. simpl.
    destruct (double_lt _ _); simpl; [discriminate|].
    destruct (Basis_activate _ _ _ _) as [b' pr].
    intros H. injection H as <-. destruct (negb (_ =? _)); reflexivity.
Qed.

(** What a pass of the second half of the loop body can change in the
    runtime: the status, the point and the row activity only. *)
Lemma step_books (s s' : State) (maxsteplength : double) (zcd : bool) :
  step s maxsteplength zcd = Go s' ->
  statistics (runtime s') = statistics (runtime s)
  /\ settings (runtime s') = settings (runtime s)
  /\ instance (runtime s') = instance (runtime s)
  /\ dualvar (runtime s') = dualvar (runtime s)
  /\ dualcon (runtime s') = dualcon (runtime s).
Proof.
  unfold step. destruct (no_move s maxsteplength).
  - intros H. injection H as <-. repeat split; reflexivity.
  - cbv zeta. destruct (negb (_ =? -1)).
    + destruct (blocked s (stepres_of s maxsteplength) zcd) as [s1 | s1 | code | ] eqn:Hb;
        simpl; try discriminate.
      intros H. injection H as <-. rewrite <- (blocked_runtime _ _ _ _ Hb).
      repeat split; reflexivity.
    + simpl. intros H. injection H as <-. unfold unblocked.
      destruct (double_eq _ _); repeat split; reflexivity.
Qed.

Lemma report_counts (s s1 : State) :
  report s = Go s1 ->
  num_iterations (statistics (runtime s1)) = num_iterations (statistics (runtime s)) + 1.
Proof.
  unfold report. destruct (_ =? 0); [discriminate|].
  intros H. injection H as <-. destruct (Z.rem _ _ =? 0); reflexivity.
Qed.

(** A pass of the loop body that does not leave the loop counts one
    iteration, below the limit, and keeps the settings and the instance. *)
Lemma loop_body_go (s s' : State) :
  loop_body s = Go s' ->
  num_iterations (statistics (runtime s)) < iterationlimit (settings (runtime s))
  /\ num_iterations (statistics (runtime s'))
     = num_iterations (statistics (runtime s)) + 1
  /\ settings (runtime s') = settings (runtime s)
  /\ instance (runtime s') = instance (runtime s).
Proof.
  unfold loop_body.
  destruct (check_limits s) as [s1 | s1 | code | ] eqn:Hc; simpl; try discriminate.
  destruct (report s1) as [s2 | s2 | code | ] eqn:Hr; simpl; try discriminate.
  destruct (direction s2) as [[[s3 msl] zcd] | s3 | code | ] eqn:Hd; simpl; try discriminate.
  intros Hs.
  destruct (check_limits_go _ _ Hc) as [-> Hlt].
  pose proof (report_counts _ _ Hr) as Hn.
  destruct (report_go _ _ Hr) as (_ & _ & _ & _ & _ & _ & _ & _ & _ & _ & _ & _ & Hi & Hset).
  pose proof (direction_runtime _ _ _ _ Hd) as Hrt.
  destruct (step_books _ _ _ _ Hs) as (Hst & Hset' & Hi' & _).
  rewrite Hst, Hset', Hi', Hrt, Hn, Hset, Hi. simpl.
  repeat split; try reflexivity. exact Hlt.
Qed.

(** The loop ends within [iterationlimit - num_iterations + 1] passes. *)
Lemma solve_loop_ends (fuel : nat) (s : State) :
  Z.max 0 (iterationlimit (settings (runtime s)) - num_iterations (statistics (runtime s)))
  < Z.of_nat fuel ->
  solve_loop fuel s <> OutOfFuel.
Proof.
  revert s. induction fuel as [|fuel IH]; intros s Hfuel; [simpl in Hfuel; lia|].
  simpl. destruct (loop_body s) as [s1 | s1 | code | ] eqn:Hb; try discriminate.
  destruct (loop_body_go _ _ Hb) as (Hlt & Hn & Hset & _).
  apply IH. rewrite Hn, Hset. lia.
Qed.

(** X1: the solve always ends.  With more passes allowed than the iteration
    limit exceeds the iteration count of the runtime (and at least one),
    [solve] does not run out of passes: it returns, or the process is ended
    by [exit] or by the remainder by a zero reporting frequency.  An
    iteration limit that is negative or not above the count ends the solve
    in its first pass. *)
Theorem solve_ends_within_iteration_limit
        (fuel : nat) (rt : Runtime) (x0 ra : Vector) (b0 : Basis) :
  Z.max 0 (iterationlimit (settings rt) - num_iterations (statistics rt))
  < Z.of_nat fuel ->
  solve fuel rt x0 ra b0 <> OutOfFuel.
Proof.
  intros Hfuel. unfold solve.
  pose proof (solve_loop_ends fuel (solve_init rt x0 ra b0)) as H.
  destruct (solve_loop fuel (solve_init rt x0 ra b0)); try discriminate.
  exfalso. apply H; [|reflexivity].
  destruct (solve_init_frame rt x0 ra b0) as (-> & -> & _). exact Hfuel.
Qed.

(** *** [tidyup] *)

Section Tidy.
Variable ncon : Z.
Hypothesis ncon_range : 0 <= ncon < 2 ^ 32.

Lemma tidyup_one_lengths (pr : Vector * Vector) (e : Z) :
  length (value (fst (tidyup_one ncon pr e))) = length (value (fst pr))
  /\ length (value (snd (tidyup_one ncon pr e))) = length (value (snd pr)).
Proof.
  destruct pr as [pv rm]. unfold tidyup_one.
  destruct (_ <=? _); simpl; rewrite ?setd_length; split; reflexivity.
Qed.

Lemma tidyup_one_sets (pr : Vector * Vector) (e : Z) :
  0 <= e < 2 ^ 32 ->
  (ncon <= e -> e - ncon < Z.of_nat (length (value (fst pr)))) ->
  (e < ncon -> e < Z.of_nat (length (value (snd pr)))) ->
  tidied ncon e (tidyup_one ncon pr e).
Proof.
  intros He Hp Hr. destruct pr as [pv rm]. unfold tidyup_one, tidied, to_unsigned.
  rewrite (Z.mod_small e) by exact He. rewrite (Z.mod_small ncon) by exact ncon_range.
  destruct (ncon <=? e) eqn:E; simpl in *.
  - apply Z.leb_le in E. rewrite Z.mod_small by lia.
    split; [intros _ | lia]. apply getd_setd_same. specialize (Hp E). lia.
  - apply Z.leb_gt in E. split; [lia | intros _].
    apply getd_setd_same. specialize (Hr E). lia.
Qed.

Lemma tidyup_one_other (pr : Vector * Vector) (e : Z) :
  0 <= e < 2 ^ 32 ->
  (forall j, (ncon <= e -> e - ncon <> j) ->
             getd (value (fst (tidyup_one ncon pr e))) j = getd (value (fst pr)) j)
  /\ (forall j, (e < ncon -> e <> j) ->
                getd (value (snd (tidyup_one ncon pr e))) j = getd (value (snd pr)) j).
Proof.
  intros He. destruct pr as [pv rm]. unfold tidyup_one, to_unsigned.
  rewrite (Z.mod_small e) by exact He. rewrite (Z.mod_small ncon) by exact ncon_range.
  destruct (ncon <=? e) eqn:E; simpl.
  - apply Z.leb_le in E. rewrite Z.mod_small by lia.
    split; intros j Hj; [|reflexivity]. apply getd_setd_other. apply Hj. exact E.
  - apply Z.leb_gt in E.
    split; intros j Hj; [reflexivity|]. apply getd_setd_other. apply Hj. exact E.
Qed.

Lemma tidyup_one_keeps (pr : Vector * Vector) (e e' : Z) :
  0 <= e' < 2 ^ 32 ->
  (ncon <= e -> e - ncon < Z.of_nat (length (value (fst pr)))) ->
  (e < ncon -> e < Z.of_nat (length (value (snd pr)))) ->
  tidied ncon e pr -> tidied ncon e (tidyup_one ncon pr e').
Proof.
  intros He' Hlp Hlr [Hp Hr].
  destruct (Z.eq_dec e' e) as [-> | Hne]; [apply tidyup_one_sets; assumption|].
  destruct (tidyup_one_other pr e' He') as [Ho1 Ho2].
  split; intros H.
  - rewrite Ho1 by lia. apply Hp. exact H.
  - rewrite Ho2 by lia. apply Hr. exact H.
Qed.

Lemma tidyup_fold_tidied (l : list Z) (pr : Vector * Vector) (e : Z) :
  (forall x, In x l -> 0 <= x < 2 ^ 32) ->
  (ncon <= e -> e - ncon < Z.of_nat (length (value (fst pr)))) ->
  (e < ncon -> e < Z.of_nat (length (value (snd pr)))) ->
  In e l \/ tidied ncon e pr ->
  tidied ncon e (fold_left (tidyup_one ncon) l pr).
Proof.
  revert pr. induction l as [|h l IH]; intros pr Hl Hp Hr Hin; simpl.
  - destruct Hin as [[] | H]. exact H.
  - destruct (tidyup_one_lengths pr h) as [Lp Lr].
    apply IH; rewrite ?Lp, ?Lr; try assumption.
    + intros x Hx. apply Hl. right. exact Hx.
    + destruct Hin as [[-> | Hin] | Ht].
      * right. apply tidyup_one_sets; try assumption. apply Hl. left. reflexivity.
      * left. exact Hin.
      * right. apply tidyup_one_keeps; try assumption. apply Hl. left. reflexivity.
Qed.

Lemma tidyup_fold_elsewhere (l : list Z) (pr : Vector * Vector) :
  (forall x, In x l -> 0 <= x < 2 ^ 32) ->
  (forall j, (forall e, In e l -> ncon <= e -> e - ncon <> j) ->
     getd (value (fst (fold_left (tidyup_one ncon) l pr))) j = getd (value (fst pr)) j)
  /\ (forall j, (forall e, In e l -> e < ncon -> e <> j) ->
        getd (value (snd (fold_left (tidyup_one ncon) l pr))) j = getd (value (snd pr)) j).
Proof.
  revert pr. induction l as [|h l IH]; intros pr Hl; simpl; [split; reflexivity|].
  destruct (IH (tidyup_one ncon pr h)) as [IHp IHr];
    [intros x Hx; apply Hl; right; exact Hx|].
  destruct (tidyup_one_other pr h) as [Ho1 Ho2]; [apply Hl; left; reflexivity|].
  split; intros j Hj.
  - rewrite IHp by (intros e He; apply Hj; right; exact He).
    apply Ho1. apply Hj. left. reflexivity.
  - rewrite IHr by (intros e He; apply Hj; right; exact He).
    apply Ho2. apply Hj. left. reflexivity.
Qed.

End Tidy.

(** X6: [tidyup] stops the direction at the active set.  With indices that
    fit an [unsigned], after [tidyup] the entry of [p] for every active
    variable bound, and the entry of [rowmove] for every active constraint
    row, is zero; every other entry of [p] and [rowmove] is as before. *)
Theorem tidyup_zeroes_active_entries (s : State) :
  0 <= num_con (instance (runtime s)) < 2 ^ 32 ->
  (forall e, In e (getactive (basis s)) -> 0 <= e < 2 ^ 32) ->
  (forall e, In e (getactive (basis s)) ->
     (num_con (instance (runtime s)) <= e ->
      e - num_con (instance (runtime s)) < Z.of_nat (length (value (p s))) ->
      getd (value (p (tidyup s))) (e - num_con (instance (runtime s))) = PrimFloat.zero)
     /\ (e < num_con (instance (runtime s)) ->
         e < Z.of_nat (length (value (rowmove s))) ->
         getd (value (rowmove (tidyup s))) e = PrimFloat.zero))
  /\ (forall j,
        (forall e, In e (getactive (basis s)) ->
                   num_con (instance (runtime s)) <= e ->
                   e - num_con (instance (runtime s)) <> j) ->
        getd (value (p (tidyup s))) j = getd (value (p s)) j)
  /\ (forall j,
        (forall e, In e (getactive (basis s)) ->
                   e < num_con (instance (runtime s)) -> e <> j) ->
        getd (value (rowmove (tidyup s))) j = getd (value (rowmove s)) j).
Proof.
  intros Hn Hact.
  assert (p (tidyup s)
          = fst (fold_left (tidyup_one (num_con (instance (runtime s))))
                           (getactive (basis s)) (p s, rowmove s))
          /\ rowmove (tidyup s)
             = snd (fold_left (tidyup_one (num_con (instance (runtime s))))
                              (getactive (basis s)) (p s, rowmove s))) as [Ep Er].
  { unfold tidyup. destruct (fold_left _ _ _) as [pv rm]. split; reflexivity. }
  rewrite Ep, Er.
  destruct (tidyup_fold_elsewhere _ Hn (getactive (basis s)) (p s, rowmove s) Hact)
    as [Hp Hr].
  split; [|split; [exact Hp | exact Hr]].
  intros e He. split.
  - intros Hge Hlen.
    destruct (tidyup_fold_tidied _ Hn (getactive (basis s)) (p s, rowmove s) e Hact)
      as [H _]; [intros _; exact Hlen | lia | left; exact He |]. apply H. exact Hge.
  - intros Hlt Hlen.
    destruct (tidyup_fold_tidied _ Hn (getactive (basis s)) (p s, rowmove s) e Hact)
      as [_ H]; [lia | intros _; exact Hlen | left; exact He |]. apply H. exact Hlt.
Qed.

(** *** Books of the loop *)

Lemma loop_body_stop_books (s s' : State) :
  loop_body s = Stop s' ->
  settings (runtime s') = settings (runtime s)
  /\ instance (runtime s') = instance (runtime s)
  /\ (num_iterations (statistics (runtime s')) = num_iterations (statistics (runtime s))
      \/ (num_iterations (statistics (runtime s'))
          = num_iterations (statistics (runtime s)) + 1
          /\ num_iterations (statistics (runtime s))
             < iterationlimit (settings (runtime s)))).
Proof.
  intros H. destruct (loop_body_stop _ _ H) as [Hc | (s1 & s2 & Hc & Hr & _ & _ & ->)].
  - unfold check_limits in Hc. destruct (_ <=? _).
    + injection Hc as <-. repeat split; try reflexivity. left. reflexivity.
    + simpl in Hc. destruct (double_ge _ _); [|discriminate].
      injection Hc as <-. repeat split; try reflexivity. left. reflexivity.
  - destruct (check_limits_go _ _ Hc) as [-> Hlt].
    pose proof (report_counts _ _ Hr) as Hn.
    destruct (report_go _ _ Hr)
      as (_ & _ & _ & _ & _ & _ & _ & _ & _ & _ & _ & _ & Hi & Hset).
    destruct (priced_frame s2) as (_ & _ & _ & _ & _ & Hrt).
    simpl. rewrite Hrt, Hset, Hi, Hn. simpl.
    repeat split; try reflexivity. right. split; [reflexivity | exact Hlt].
Qed.

(** X2: the iteration count never passes the limit.  When the loop is left by
    a [break] from a state whose count is not above the iteration limit, the
    count has not decreased, is still not above the limit, and has grown by
    at most the number of passes made. *)
Theorem iterations_never_pass_the_limit (fuel : nat) (s s' : State) :
  solve_loop fuel s = Finished s' ->
  num_iterations (statistics (runtime s)) <= iterationlimit (settings (runtime s)) ->
  num_iterations (statistics (runtime s)) <= num_iterations (statistics (runtime s'))
  /\ num_iterations (statistics (runtime s')) <= iterationlimit (settings (runtime s'))
  /\ num_iterations (statistics (runtime s'))
     <= num_iterations (statistics (runtime s)) + Z.of_nat fuel.
Proof.
  revert s. induction fuel as [|fuel IH]; intros s; simpl; [discriminate|].
  destruct (loop_body s) as [s1 | s1 | code | ] eqn:Hb; try discriminate.
  - intros Hf Hle. destruct (loop_body_go _ _ Hb) as (Hlt & Hn & Hset & _).
    destruct (IH s1 Hf) as (H1 & H2 & H3); [rewrite Hn, Hset; lia|].
    rewrite Hn in H1, H3. repeat split; try assumption; lia.
  - intros Hf Hle. injection Hf as <-.
    destruct (loop_body_stop_books _ _ Hb) as (Hset & _ & [Hn | [Hn Hlt]]);
      rewrite Hn, Hset; repeat split; lia.
Qed.

Lemma recover_duals_books (s : State) :
  settings (runtime (recover_duals s)) = settings (runtime s)
  /\ num_iterations (statistics (runtime (recover_duals s)))
     = num_iterations (statistics (runtime s)).
Proof.
  unfold recover_duals. cbv zeta.
  destruct (getReducedCosts (fire (loginformation s))) as [rc lambda]. simpl.
  destruct (fold_left _ _ _) as [dvar dcon]. split; reflexivity.
Qed.

Lemma finish_books (s : State) :
  settings (runtime (finish s)) = settings (runtime s)
  /\ instance (runtime (finish s)) = instance (runtime s)
  /\ num_iterations (statistics (runtime (finish s)))
     = num_iterations (statistics (runtime s)).
Proof.
  destruct (recover_duals_books s) as [Hs Hn].
  destruct (recover_duals_frame s) as (_ & _ & _ & _ & _ & Hi).
  unfold finish. cbv zeta.
  destruct (getnumactive (basis (recover_duals s))
            =? num_var (instance (runtime (recover_duals s))));
    simpl; rewrite ?Hs, ?Hn, ?Hi; repeat split; reflexivity.
Qed.

Lemma solve_loop_books (fuel : nat) (s s' : State) :
  solve_loop fuel s = Finished s' ->
  settings (runtime s') = settings (runtime s)
  /\ instance (runtime s') = instance (runtime s).
Proof.
  revert s. induction fuel as [|fuel IH]; intros s; simpl; [discriminate|].
  destruct (loop_body s) as [s1 | s1 | code | ] eqn:Hb; try discriminate.
  - intros Hf. destruct (loop_body_go _ _ Hb) as (_ & _ & Hset & Hi).
    destruct (IH s1 Hf) as [-> ->]. split; assumption.
  - intros Hf. injection Hf as <-.
    destruct (loop_body_stop_books _ _ Hb) as (Hset & Hi & _). split; assumption.
Qed.

(** X4: a solve that returns leaves the problem instance and the settings of
    the runtime as they were given. *)
Theorem solve_keeps_instance_and_settings
        (fuel : nat) (rt : Runtime) (x0 ra : Vector) (b0 : Basis) (s : State) :
  solve fuel rt x0 ra b0 = Finished s ->
  instance (runtime s) = instance rt /\ settings (runtime s) = settings rt.
Proof.
  unfold solve.
  destruct (solve_loop fuel (solve_init rt x0 ra b0)) as [s1 | | | ] eqn:Hl;
    try discriminate.
  intros H. injection H as <-.
  destruct (solve_loop_books _ _ _ Hl) as [Hset Hi].
  destruct (finish_books s1) as (-> & -> & _). rewrite Hset, Hi.
  destruct (solve_init_frame rt x0 ra b0) as (-> & _ & _ & _ & -> & _).
  split; reflexivity.
Qed.

(** *** Zero curvature and zero steps *)

Lemma computemaxsteplength_factor (s : State) (zcd : bool) :
  factor (fst (fst (computemaxsteplength s zcd))) = factor s.
Proof.
  unfold computemaxsteplength, curvature. cbv zeta.
  destruct (double_gt _ _); [|reflexivity].
  destruct (getGradient _) as [g grad].
  destruct (double_lt _ _); reflexivity.
Qed.

Lemma step_factor (s s' : State) (maxsteplength : double) :
  step s maxsteplength true = Go s' -> factor s' = factor s.
Proof.
  unfold step. destruct (no_move s maxsteplength).
  - intros H. injection H as <-. reflexivity.
  - cbv zeta. destruct (negb (_ =? -1)).
    + destruct (blocked s (stepres_of s maxsteplength) true) as [s1 | s1 | code | ] eqn:Hb;
        simpl; try discriminate.
      intros H. injection H as <-. simpl. exact (blocked_factor _ _ _ Hb).
    + simpl. intros H. injection H as <-. unfold unblocked.
      destruct (double_eq _ _); reflexivity.
Qed.

(** X7: in an iteration whose major direction is flagged as a zero-curvature
    direction, the factor is not updated at all: after the second half of
    the loop body it is the factor the search direction left, neither
    expanded nor reduced, also when a blocking constraint is activated. *)
Theorem zero_curvature_iteration_keeps_factor
        (s s1 s' : State) (maxsteplength : double) :
  major_update s = (s1, maxsteplength, true) ->
  step s1 maxsteplength true = Go s' ->
  factor s' = factor s.
Proof.
  intros Hm Hs. rewrite (step_factor _ _ _ Hs).
  revert Hm. unfold major_update. cbv zeta.
  destruct (curvature s) as [sa den] eqn:Hc.
  assert (factor sa = factor s) as Hsa
    by (unfold curvature in Hc; injection Hc as <- _; reflexivity).
  pose proof (computemaxsteplength_factor sa false) as Hf.
  destruct (computemaxsteplength sa false) as [[sb msl] z]. simpl in Hf.
  intros H. injection H as <- _ ->. simpl. congruence.
Qed.

(** X8: when the curvature of the major direction is above the threshold
    and the direction does not descend (minus its product with the gradient
    is negative), [computemaxsteplength] returns the step length 0 and does
    not flag the direction.  The factor and the reduced gradient are then
    still expanded, and that is all the rest of the iteration does besides
    setting [atfsep]: the test on the direction sees the zero step, so there
    is no ratio test, no activation and no update of the gradient or of the
    point.  The basis and the runtime (point, row activity, status) are the
    ones the search direction left. *)
Theorem ascent_direction_takes_no_step (s : State) :
  let s1 := fst (curvature s) in
  let s2 := fst (curvature s1) in
  let s3 := with_gradient s2 (fst (getGradient s2)) in
  let s4 := with_factor s3 (NewCholeskyFactor_expand s3 (buffer_yp s3) (buffer_gyp s3)
                                                     (buffer_l s3)) in
  let s5 := with_redgrad s4 (ReducedGradient_expand s4 (buffer_yp s4)) in
  double_gt (fabs (snd (curvature s1))) curvature_threshold = true ->
  double_lt (PrimFloat.opp (Vector_mul (p s2) (snd (getGradient s2)))) PrimFloat.zero = true ->
  major_update s = (s5, PrimFloat.zero, false)
  /\ step s5 PrimFloat.zero false = Go (with_atfsep s5 true)
  /\ basis s5 = basis s
  /\ runtime s5 = runtime s.
Proof.
  intros s1 s2 s3 s4 s5 Hgt Hlt.
  assert (computemaxsteplength s1 false = (s3, PrimFloat.zero, false)) as Hc.
  { unfold computemaxsteplength.
    change (curvature s1) with (s2, snd (curvature s1)). cbv iota beta.
    rewrite Hgt. unfold s3. destruct (getGradient s2) as [g grad]. simpl in *.
    rewrite Hlt. reflexivity. }
  assert (major_update s = (s5, PrimFloat.zero, false)) as E.
  { unfold major_update.
    change (curvature s) with (s1, snd (curvature s)). cbv iota beta.
    rewrite Hc. reflexivity. }
  split; [exact E | split; [|split; reflexivity]].
  unfold step, no_move.
  replace (double_eq PrimFloat.zero PrimFloat.zero) with true by (vm_compute; reflexivity).
  rewrite orb_true_r. reflexivity.
Qed.

(** *** The statistics series *)

Lemma loginformation_aligned (s : State) (n : nat) :
  aligned (statistics (runtime s)) n ->
  aligned (statistics (runtime (loginformation s))) (S n).
Proof.
  unfold aligned, loginformation. simpl.
  intros (H1 & H2 & H3 & H4 & H5 & H6 & H7 & H8).
  rewrite !length_app, H1, H2, H3, H4, H5, H6, H7, H8. simpl.
  repeat split; lia.
Qed.

Lemma report_aligned (s s1 : State) (n : nat) :
  report s = Go s1 ->
  aligned (statistics (runtime s)) n ->
  exists m, (n <= m)%nat /\ aligned (statistics (runtime s1)) m.
Proof.
  unfold report. destruct (_ =? 0); [discriminate|].
  intros H Ha. injection H as <-.
  destruct (Z.rem _ _ =? 0).
  - exists (S n). split; [lia|]. apply (loginformation_aligned s n) in Ha. exact Ha.
  - exists n. split; [lia | exact Ha].
Qed.

Lemma loop_body_aligned (s s' : State) (n : nat) :
  loop_body s = Go s' \/ loop_body s = Stop s' ->
  aligned (statistics (runtime s)) n ->
  exists m, (n <= m)%nat /\ aligned (statistics (runtime s')) m.
Proof.
  intros [H | H] Ha.
  - revert H. unfold loop_body.
    destruct (check_limits s) as [s1 | s1 | code | ] eqn:Hc; simpl; try discriminate.
    destruct (report s1) as [s2 | s2 | code | ] eqn:Hr; simpl; try discriminate.
    destruct (direction s2) as [[[s3 msl] zcd] | s3 | code | ] eqn:Hd; simpl;
      try discriminate.
    intros Hs. destruct (check_limits_go _ _ Hc) as [-> _].
    destruct (report_aligned _ _ n Hr Ha) as (m & Hm & Ham).
    exists m. split; [exact Hm|].
    destruct (step_books _ _ _ _ Hs) as (-> & _).
    rewrite (direction_runtime _ _ _ _ Hd). exact Ham.
  - destruct (loop_body_stop _ _ H) as [Hc | (s1 & s2 & Hc & Hr & _ & _ & ->)].
    + exists n. split; [lia|]. unfold check_limits in Hc. destruct (_ <=? _).
      * injection Hc as <-. exact Ha.
      * simpl in Hc. destruct (double_ge _ _); [|discriminate].
        injection Hc as <-. exact Ha.
    + destruct (check_limits_go _ _ Hc) as [-> _].
      destruct (report_aligned _ _ n Hr Ha) as (m & Hm & Ham).
      exists m. split; [exact Hm|].
      destruct (priced_frame s2) as (_ & _ & _ & _ & _ & Hrt).
      simpl. rewrite Hrt. exact Ham.
Qed.

Lemma solve_loop_aligned (fuel : nat) (s s' : State) (n : nat) :
  solve_loop fuel s = Finished s' ->
  aligned (statistics (runtime s)) n ->
  exists m, (n <= m)%nat /\ aligned (statistics (runtime s')) m.
Proof.
  revert s n. induction fuel as [|fuel IH]; intros s n; simpl; [discriminate|].
  destruct (loop_body s) as [s1 | s1 | code | ] eqn:Hb; try discriminate.
  - intros Hf Ha.
    destruct (loop_body_aligned s s1 n (or_introl Hb) Ha) as (m & Hm & Ham).
    destruct (IH s1 m Hf Ham) as (k & Hk & Hak). exists k. split; [lia | exact Hak].
  - intros Hf Ha. injection Hf as <-.
    exact (loop_body_aligned s s1 n (or_intror Hb) Ha).
Qed.

Lemma finish_aligned (s : State) (n : nat) :
  aligned (statistics (runtime s)) n ->
  aligned (statistics (runtime (finish s))) (S n).
Proof.
  intros Ha. apply loginformation_aligned in Ha.
  assert (forall st x, aligned st (S n) -> aligned (st_with_time_end st x) (S n)) as Hte
    by (intros st x H; exact H).
  assert (statistics (runtime (recover_duals s))
          = statistics (runtime (loginformation s))) as Hr.
  { unfold recover_duals. cbv zeta.
    destruct (getReducedCosts (fire (loginformation s))) as [rc lambda].
    destruct (fold_left _ _ _) as [dvar dcon]. reflexivity. }
  unfold finish. cbv zeta.
  destruct (getnumactive (basis (recover_duals s))
            =? num_var (instance (runtime (recover_duals s))));
    simpl; apply Hte; rewrite Hr; exact Ha.
Qed.

(** X5: the eight series of the statistics stay parallel.  If they have the
    same number of entries when the solve starts, they have the same number
    of entries when it returns, and at least one more: the entry logged
    after the loop. *)
Theorem solve_keeps_statistics_aligned
        (fuel : nat) (rt : Runtime) (x0 ra : Vector) (b0 : Basis) (s : State) (n : nat) :
  aligned (statistics rt) n ->
  solve fuel rt x0 ra b0 = Finished s ->
  exists m, (n < m)%nat /\ aligned (statistics (runtime s)) m.
Proof.
  intros Ha. unfold solve.
  destruct (solve_loop fuel (solve_init rt x0 ra b0)) as [s1 | | | ] eqn:Hl;
    try discriminate.
  intros H. injection H as <-.
  assert (aligned (statistics (runtime (solve_init rt x0 ra b0))) n) as Ha0 by exact Ha.
  destruct (solve_loop_aligned _ _ _ n Hl Ha0) as (m & Hm & Ham).
  exists (S m). split; [lia | apply finish_aligned; exact Ham].
Qed.
End MoreSolverProperties.

(** ** The clique table, continued *)

Lemma complement_val (v : HighsCliqueTable.CliqueVar) :
  HighsCliqueTable.wf v ->
  HighsCliqueTable.val (HighsCliqueTable.complement v) = 1 - HighsCliqueTable.val v.
Proof.
  intros [_ Hv]. unfold HighsCliqueTable.complement, HighsCliqueTable.CliqueVar_new.
  simpl. assert (HighsCliqueTable.val v = 0 \/ HighsCliqueTable.val v = 1) as [-> | ->] by lia;
    reflexivity.
Qed.

(** X9: for a literal whose fields are in range, [complement] gives a
    literal in range and different from it, and the complement of the
    complement is the literal itself.  Of the weights of a literal and its
    complement in a solution, one is the value [x] of the column and the
    other is computed as [1 - x]. *)
Theorem complement_involutive (v : HighsCliqueTable.CliqueVar) (sol : list double) :
  HighsCliqueTable.wf v ->
  HighsCliqueTable.wf (HighsCliqueTable.complement v)
  /\ HighsCliqueTable.complement (HighsCliqueTable.complement v) = v
  /\ HighsCliqueTable.complement v <> v
  /\ (HighsCliqueTable.val v = 1 ->
      HighsCliqueTable.weight (HighsCliqueTable.complement v) sol
      = PrimFloat.sub PrimFloat.one (HighsCliqueTable.weight v sol))
  /\ (HighsCliqueTable.val v = 0 ->
      HighsCliqueTable.weight v sol
      = PrimFloat.sub PrimFloat.one
          (HighsCliqueTable.weight (HighsCliqueTable.complement v) sol)).
Proof.
  intros Hwf. pose proof (complement_col v Hwf) as Hc.
  pose proof (complement_val v Hwf) as Hv. destruct Hwf as [Hcol Hval].
  assert (HighsCliqueTable.wf (HighsCliqueTable.complement v)) as Hwf'.
  { unfold HighsCliqueTable.wf. rewrite Hc, Hv. lia. }
  split; [exact Hwf'|]. split; [|split; [|split]].
  - pose proof (complement_col _ Hwf') as Hc2. pose proof (complement_val _ Hwf') as Hv2.
    rewrite Hc in Hc2. rewrite Hv in Hv2.
    destruct (HighsCliqueTable.complement (HighsCliqueTable.complement v)) as [c2 v2].
    destruct v as [c0 v0]. cbn [HighsCliqueTable.col HighsCliqueTable.val] in *.
    subst c2. f_equal. lia.
  - intros H. rewrite H in Hv. lia.
  - intros H1. unfold HighsCliqueTable.weight. rewrite Hc, Hv, H1. reflexivity.
  - intros H0. unfold HighsCliqueTable.weight. rewrite Hc, Hv, H0. reflexivity.
Qed.

(** Below [2^30] the index is computed without overflow. *)
Lemma index_exact (v : HighsCliqueTable.CliqueVar) :
  HighsCliqueTable.wf v -> HighsCliqueTable.col v < 2 ^ 30 ->
  HighsCliqueTable.index v = 2 * HighsCliqueTable.col v + HighsCliqueTable.val v.
Proof.
  intros [Hc Hv] Hlt. unfold HighsCliqueTable.index, HighsCliqueTable.to_int.
  rewrite Z.mod_small; lia.
Qed.

(** X10: for literals of columns below [2^30] (beyond that [2 * col]
    overflows [int] in the source), [operator==], which compares [index()],
    holds exactly for equal literals; a literal never equals its complement,
    whose index is the neighbour [index +/- 1]; the index is a non-negative
    [int]; and the literal is recovered from its index as
    [CliqueVar(index / 2, index % 2)]. *)
Theorem literal_equality (v w : HighsCliqueTable.CliqueVar) :
  HighsCliqueTable.wf v -> HighsCliqueTable.wf w ->
  HighsCliqueTable.col v < 2 ^ 30 -> HighsCliqueTable.col w < 2 ^ 30 ->
  (HighsCliqueTable.CliqueVar_eqb v w = true <-> v = w)
  /\ HighsCliqueTable.CliqueVar_eqb v (HighsCliqueTable.complement v) = false
  /\ 0 <= HighsCliqueTable.index v < 2 ^ 31
  /\ HighsCliqueTable.index (HighsCliqueTable.complement v)
     = HighsCliqueTable.index v + 1 - 2 * HighsCliqueTable.val v
  /\ HighsCliqueTable.CliqueVar_new (HighsCliqueTable.index v / 2)
                                    (HighsCliqueTable.index v mod 2) = v.
Proof.
  intros Hv Hw Hcv Hcw.
  pose proof (index_exact v Hv Hcv) as Iv. pose proof (index_exact w Hw Hcw) as Iw.
  assert (HighsCliqueTable.wf (HighsCliqueTable.complement v)) as Hcwf.
  { unfold HighsCliqueTable.wf. rewrite (complement_col v Hv), (complement_val v Hv).
    destruct Hv. lia. }
  assert (HighsCliqueTable.col (HighsCliqueTable.complement v) < 2 ^ 30) as Hcc
    by (rewrite (complement_col v Hv); exact Hcv).
  pose proof (index_exact _ Hcwf Hcc) as Ic.
  rewrite (complement_col v Hv), (complement_val v Hv) in Ic.
  destruct Hv as [Hvc Hvv]. destruct Hw as [Hwc Hwv].
  split; [|split; [|split; [|split]]].
  - unfold HighsCliqueTable.CliqueVar_eqb. rewrite Z.eqb_eq, Iv, Iw. split.
    + intros H. destruct v as [c1 v1], w as [c2 v2].
      cbn [HighsCliqueTable.col HighsCliqueTable.val] in *.
      assert (c1 = c2) by lia. subst. f_equal. lia.
    + intros ->. reflexivity.
  - unfold HighsCliqueTable.CliqueVar_eqb. apply Z.eqb_neq. rewrite Iv, Ic. lia.
  - rewrite Iv. lia.
  - rewrite Iv, Ic. lia.
  - rewrite Iv. unfold HighsCliqueTable.CliqueVar_new.
    replace ((2 * HighsCliqueTable.col v + HighsCliqueTable.val v) / 2)
      with (HighsCliqueTable.col v)
      by (apply (Z.div_unique _ 2 _ (HighsCliqueTable.val v)); lia).
    replace ((2 * HighsCliqueTable.col v + HighsCliqueTable.val v) mod 2)
      with (HighsCliqueTable.val v)
      by (apply (Z.mod_unique _ 2 (HighsCliqueTable.col v)); lia).
    rewrite !Z.mod_small by lia. destruct v. reflexivity.
Qed.

(** X12: in a table built for [ncols] columns, the index of each of the two
    literals of a column below [ncols] is a position of the four
    per-literal arrays, which have the same length; the literal has no
    clique and no clique set, the column has no substitution, the table has
    no clique and is not full. *)
Theorem fresh_table_has_room_and_no_cliques (kHighsIInf ncols c : Z) (b : bool) :
  0 <= ncols < 2 ^ 30 -> 0 <= c < ncols ->
  let m := HighsCliqueTable.HighsCliqueTable_new kHighsIInf ncols in
  let i := HighsCliqueTable.index (HighsCliqueTable.CliqueVar_new c (if b then 1 else 0)) in
  (0 <= i < Z.of_nat (length (HighsCliqueTable.numcliquesvar m))
   /\ length (HighsCliqueTable.cliquesetroot m) = length (HighsCliqueTable.numcliquesvar m)
   /\ length (HighsCliqueTable.sizeTwoCliquesetRoot m)
      = length (HighsCliqueTable.numcliquesvar m)
   /\ length (HighsCliqueTable.neighborhoodFlags m)
      = length (HighsCliqueTable.numcliquesvar m))
  /\ HighsCliqueTable.numCliques_of m c b = 0
  /\ geti (HighsCliqueTable.cliquesetroot m) i = -1
  /\ HighsCliqueTable.getSubstitution m c = None
  /\ HighsCliqueTable.numCliques m = 0
  /\ (0 < kHighsIInf -> HighsCliqueTable.isFull m = false).
Proof.
  intros Hn Hc m i.
  assert (i = 2 * c + (if b then 1 else 0)) as Hi.
  { unfold i, HighsCliqueTable.index, HighsCliqueTable.to_int,
      HighsCliqueTable.CliqueVar_new.
    cbn [HighsCliqueTable.col HighsCliqueTable.val].
    rewrite (Z.mod_small c) by lia.
    destruct b; [rewrite (Z.mod_small 1) by lia | rewrite (Z.mod_small 0) by lia];
      rewrite Z.mod_small; lia. }
  assert (0 <= i < 2 * ncols) as Hr by (rewrite Hi; destruct b; lia).
  assert (HighsCliqueTable.numcliquesvar m = repeat 0 (Z.to_nat (2 * ncols))) as E1
    by reflexivity.
  assert (HighsCliqueTable.cliquesetroot m = repeat (-1) (Z.to_nat (2 * ncols))) as E2
    by reflexivity.
  assert (HighsCliqueTable.sizeTwoCliquesetRoot m = repeat (-1) (Z.to_nat (2 * ncols)))
    as E3 by reflexivity.
  assert (HighsCliqueTable.neighborhoodFlags m = repeat 0 (Z.to_nat (2 * ncols))) as E4
    by reflexivity.
  assert (HighsCliqueTable.colsubstituted m = repeat 0 (Z.to_nat ncols)) as E5
    by reflexivity.
  rewrite E1, E2, E3, E4, !repeat_length.
  split; [split; [lia | repeat split; reflexivity]|].
  split; [|split; [|split; [|split]]].
  - unfold HighsCliqueTable.numCliques_of. fold i. rewrite E1. unfold geti.
    destruct (i <? 0); [reflexivity | apply nth_repeat].
  - unfold geti. destruct (i <? 0) eqn:E; [apply Z.ltb_lt in E; lia|].
    rewrite nth_repeat_lt; [reflexivity | lia].
  - unfold HighsCliqueTable.getSubstitution. rewrite E5.
    replace (geti (repeat 0 (Z.to_nat ncols)) c) with 0; [reflexivity|].
    unfold geti. destruct (c <? 0); [reflexivity | symmetry; apply nth_repeat].
  - reflexivity.
  - intros Hpos. unfold HighsCliqueTable.isFull. apply Z.leb_gt. exact Hpos.
Qed.

(** X11: [haveCommonClique] and [findCommonClique] agree.  For literals of
    columns below [2^30] (where [index()], which [findCommonClique]
    compares, is computed without overflow), whenever [haveCommonClique]
    answers true on a table, [findCommonClique] on that table makes the
    same search, leaves the same table, and returns the clique the search
    found: a non-null pointer to its first entry with the length
    [end - start]. *)
Theorem common_clique_is_found
        (Store : Type)
        (findCommonCliqueId : Z -> Store -> HighsCliqueTable.CliqueVar ->
                              HighsCliqueTable.CliqueVar -> Z * Z * Store)
        (cliques : Store -> list HighsCliqueTable.Clique)
        (t t' : HighsCliqueTable.Table Store)
        (v1 v2 : HighsCliqueTable.CliqueVar) :
  HighsCliqueTable.wf v1 -> HighsCliqueTable.wf v2 ->
  HighsCliqueTable.col v1 < 2 ^ 30 -> HighsCliqueTable.col v2 < 2 ^ 30 ->
  HighsCliqueTable.haveCommonClique findCommonCliqueId t v1 v2 = (true, t') ->
  exists clq,
    fst (fst (findCommonCliqueId (HighsCliqueTable.numNeighborhoodQueries t)
                                 (HighsCliqueTable.store t) v1 v2)) = clq
    /\ clq <> -1
    /\ HighsCliqueTable.findCommonClique findCommonCliqueId cliques t v1 v2
       = ((Some (HighsCliqueTable.clq_start
                   (nth (Z.to_nat clq) (cliques (HighsCliqueTable.store t'))
                        (HighsCliqueTable.mkClique 0 0 0 0 false))),
           HighsCliqueTable.clq_end
             (nth (Z.to_nat clq) (cliques (HighsCliqueTable.store t'))
                  (HighsCliqueTable.mkClique 0 0 0 0 false))
           - HighsCliqueTable.clq_start
               (nth (Z.to_nat clq) (cliques (HighsCliqueTable.store t'))
                    (HighsCliqueTable.mkClique 0 0 0 0 false))),
          t').
Proof.
  intros Hv1 Hv2 Hc1 Hc2.
  unfold HighsCliqueTable.haveCommonClique, HighsCliqueTable.findCommonClique.
  destruct (HighsCliqueTable.col v1 =? HighsCliqueTable.col v2) eqn:Ecol; [discriminate|].
  apply Z.eqb_neq in Ecol.
  assert (HighsCliqueTable.CliqueVar_eqb v1 v2 = false) as ->.
  { unfold HighsCliqueTable.CliqueVar_eqb. apply Z.eqb_neq.
    rewrite (index_exact v1 Hv1 Hc1), (index_exact v2 Hv2 Hc2).
    destruct Hv1 as [_ ?], Hv2 as [_ ?]. lia. }
  destruct (findCommonCliqueId _ _ v1 v2) as [[clq nq] st]. simpl.
  destruct (clq =? -1) eqn:E; simpl; [discriminate|].
  intros H. injection H as <-. simpl.
  exists clq. apply Z.eqb_neq in E.
  split; [reflexivity | split; [exact E | reflexivity]].
Qed.

(** ** The LP relaxation *)

(** X13: the three predicates on the status of the relaxation are
    consistent: a status that is unscaled primal feasible or unscaled dual
    feasible is scaled optimal; it is both exactly when it is [kOptimal];
    and the only scaled optimal status that is neither is
    [kUnscaledInfeasible]. *)
Theorem status_predicates (st : HighsLpRelaxation.Status) :
  (HighsLpRelaxation.unscaledPrimalFeasible st = true ->
   HighsLpRelaxation.scaledOptimal st = true)
  /\ (HighsLpRelaxation.unscaledDualFeasible st = true ->
      HighsLpRelaxation.scaledOptimal st = true)
  /\ (HighsLpRelaxation.unscaledPrimalFeasible st
      && HighsLpRelaxation.unscaledDualFeasible st = true
      <-> st = HighsLpRelaxation.kOptimal)
  /\ (HighsLpRelaxation.scaledOptimal st = true ->
      HighsLpRelaxation.unscaledPrimalFeasible st = false ->
      HighsLpRelaxation.unscaledDualFeasible st = false ->
      st = HighsLpRelaxation.kUnscaledInfeasible).
Proof.
  destruct st; simpl; repeat split; intros; try reflexivity; try discriminate.
Qed.

Section RelaxationProperties.
Variable HighsBasis : Type.
Variable valid : HighsBasis -> bool.

(** X14: [integerFeasible] holds exactly when the status is one that
    [unscaledPrimalFeasible] accepts and no fractional integer is
    recorded. *)
Theorem integerFeasible_iff (r : HighsLpRelaxation.Relaxation HighsBasis) :
  HighsLpRelaxation.integerFeasible HighsBasis r = true
  <-> HighsLpRelaxation.unscaledPrimalFeasible (HighsLpRelaxation.lp_status HighsBasis r)
      = true
      /\ HighsLpRelaxation.fractionalints HighsBasis r = [].
Proof.
  unfold HighsLpRelaxation.integerFeasible, HighsLpRelaxation.unscaledPrimalFeasible.
  destruct (HighsLpRelaxation.lp_status HighsBasis r);
    destruct (HighsLpRelaxation.fractionalints HighsBasis r); simpl;
    split; try (intros [? ?]); intros; try discriminate; try (split; reflexivity);
    reflexivity.
Qed.

(** X15: the basis checkpoint.  [storeBasis] twice is [storeBasis] once, and
    it changes nothing when the LP basis is not valid or a checkpoint is
    already stored for it.  [getStoredBasis] after [setStoredBasis] gives
    the basis that was set; the next [storeBasis] replaces it by the basis
    of the LP when that one is valid, and keeps it otherwise. *)
Theorem storeBasis_checkpoint (r : HighsLpRelaxation.Relaxation HighsBasis)
        (b : option HighsBasis) :
  HighsLpRelaxation.storeBasis HighsBasis valid (HighsLpRelaxation.storeBasis HighsBasis valid r)
  = HighsLpRelaxation.storeBasis HighsBasis valid r
  /\ (valid (HighsLpRelaxation.lp_basis HighsBasis r) = false ->
      HighsLpRelaxation.storeBasis HighsBasis valid r = r)
  /\ (HighsLpRelaxation.currentbasisstored HighsBasis r = true ->
      HighsLpRelaxation.storeBasis HighsBasis valid r = r)
  /\ HighsLpRelaxation.getStoredBasis HighsBasis
       (HighsLpRelaxation.setStoredBasis HighsBasis r b) = b
  /\ (valid (HighsLpRelaxation.lp_basis HighsBasis r) = true ->
      HighsLpRelaxation.getStoredBasis HighsBasis
        (HighsLpRelaxation.storeBasis HighsBasis valid
           (HighsLpRelaxation.setStoredBasis HighsBasis r b))
      = Some (HighsLpRelaxation.lp_basis HighsBasis r))
  /\ (valid (HighsLpRelaxation.lp_basis HighsBasis r) = false ->
      HighsLpRelaxation.getStoredBasis HighsBasis
        (HighsLpRelaxation.storeBasis HighsBasis valid
           (HighsLpRelaxation.setStoredBasis HighsBasis r b))
      = b).
Proof.
  unfold HighsLpRelaxation.storeBasis, HighsLpRelaxation.setStoredBasis,
    HighsLpRelaxation.getStoredBasis, HighsLpRelaxation.with_checkpoint.
  destruct r as [nc cl cu rl ru cv rv lb fr cp stored st]. simpl.
  destruct stored; destruct (valid lb) eqn:Ev; simpl; rewrite ?Ev; simpl;
    repeat split; intros; try reflexivity; try discriminate.
Qed.

(** X16: [solutionValue] reads the column values followed by the row
    values: when the solution has [num_col_] column values, the value of
    the extended column [col >= 0] is entry [col] of the two vectors put one
    after the other. *)
Theorem solutionValue_concat (r : HighsLpRelaxation.Relaxation HighsBasis) (c : Z) :
  Z.of_nat (length (HighsLpRelaxation.col_value HighsBasis r))
  = HighsLpRelaxation.num_col_ HighsBasis r ->
  0 <= c ->
  HighsLpRelaxation.solutionValue HighsBasis r c
  = getd (HighsLpRelaxation.col_value HighsBasis r ++ HighsLpRelaxation.row_value HighsBasis r) c.
Proof.
  intros Hlen Hc. unfold HighsLpRelaxation.solutionValue, getd.
  destruct (c <? 0) eqn:E0; [apply Z.ltb_lt in E0; lia|].
  destruct (c <? HighsLpRelaxation.num_col_ HighsBasis r) eqn:E.
  - apply Z.ltb_lt in E. rewrite app_nth1 by lia. reflexivity.
  - apply Z.ltb_ge in E.
    destruct (c - HighsLpRelaxation.num_col_ HighsBasis r <? 0) eqn:E1;
      [apply Z.ltb_lt in E1; lia|].
    rewrite app_nth2 by lia. f_equal. lia.
Qed.

End RelaxationProperties.

(** ** The tableau separator *)

Section SeparatorProperties.
Context {LpSolver Aggregator Cuts : Type}
        {E : HighsTableauSeparator.Environment LpSolver Aggregator Cuts}.

Lemma position_skips (basisinds : list Z)
      (st : @HighsTableauSeparator.Loop LpSolver Aggregator Cuts) (i : Z) :
  HighsTableauSeparator.candidate (HighsTableauSeparator.lpSolver st) (geti basisinds i)
  = false ->
  HighsTableauSeparator.separate_position basisinds st i = st.
Proof.
  unfold HighsTableauSeparator.candidate, HighsTableauSeparator.separate_position.
  destruct (HighsTableauSeparator.basic_fractionality _ _) as [f|]; [|reflexivity].
  destruct (PrimFloat.ltb f HighsTableauSeparator.min_fractionality);
    [reflexivity | discriminate].
Qed.

Lemma positions_skip (basisinds : list Z)
      (st : @HighsTableauSeparator.Loop LpSolver Aggregator Cuts) (l : list Z) :
  (forall i, In i l ->
     HighsTableauSeparator.candidate (HighsTableauSeparator.lpSolver st) (geti basisinds i)
     = false) ->
  fold_left (HighsTableauSeparator.separate_position basisinds) l st = st.
Proof.
  induction l as [|i l IH]; intros H; simpl; [reflexivity|].
  rewrite position_skips by (apply H; left; reflexivity).
  apply IH. intros j Hj. apply H. right. exact Hj.
Qed.

(** X17: an LP solution without a fractional basic integer gives no cut.
    When no basis position holds an integer column or integral row whose
    value is at least [1e-4] away from the nearest integer,
    [separateLpSolution] asks for no inverse row, adds no row to the
    aggregator and calls [generateCut] not once: the LP solver is as
    [getBasicVariables] left it, the aggregator is untouched and the cut
    state is that of the fresh cut generator. *)
Theorem no_fractional_basic_integer_no_cut
        (lp : LpSolver) (agg : Aggregator) (cuts : Cuts) :
  let lp1 := fst (HighsTableauSeparator.getBasicVariables
                    lp (repeat 0 (Z.to_nat (HighsTableauSeparator.numRows lp)))) in
  let basisinds := snd (HighsTableauSeparator.getBasicVariables
                          lp (repeat 0 (Z.to_nat (HighsTableauSeparator.numRows lp)))) in
  (forall i, 0 <= i < HighsTableauSeparator.numRows lp ->
             HighsTableauSeparator.candidate lp1 (geti basisinds i) = false) ->
  HighsTableauSeparator.separateLpSolution lp agg cuts
  = (lp1, agg, HighsTableauSeparator.cutGen_new lp1 cuts).
Proof.
  intros lp1 basisinds H. unfold HighsTableauSeparator.separateLpSolution.
  subst lp1 basisinds.
  destruct (HighsTableauSeparator.getBasicVariables lp _) as [lpa binds].
  simpl in H. cbv zeta.
  rewrite positions_skip; [reflexivity|].
  intros i Hi. simpl. apply H. apply in_map_iff in Hi. destruct Hi as (k & <- & Hk).
  apply in_seq in Hk. lia.
Qed.

Lemma position_clear (empty : Aggregator) (basisinds : list Z)
      (st : @HighsTableauSeparator.Loop LpSolver Aggregator Cuts) (i : Z) :
  (forall a, HighsTableauSeparator.clear a = empty) ->
  HighsTableauSeparator.lpAggregator st = empty ->
  HighsTableauSeparator.lpAggregator (HighsTableauSeparator.separate_position basisinds st i)
  = empty.
Proof.
  intros Hclear Hst. unfold HighsTableauSeparator.separate_position.
  destruct (HighsTableauSeparator.basic_fractionality _ _) as [f|]; [|exact Hst].
  destruct (PrimFloat.ltb f HighsTableauSeparator.min_fractionality); [exact Hst|].
  destruct (HighsTableauSeparator.getBasisInverseRow _ _ _ _) as [[[[lpa ok] rw] n] nzw].
  destruct (negb ok); [exact Hst|].
  destruct (HighsTableauSeparator.getCurrentAggregation _ _ _ false) as [[a1 i1] v1].
  destruct (HighsTableauSeparator.generateCut _ _ _ _) as [[[c1 i2] v2] r1].
  destruct (HighsTableauSeparator.getCurrentAggregation _ _ _ true) as [[a2 i3] v3].
  destruct (HighsTableauSeparator.generateCut _ _ _ _) as [[[c2 i4] v4] r2].
  simpl. apply Hclear.
Qed.

(** X18: the aggregator is handed back clear.  If [clear] leaves the
    aggregator in one empty state and the separator is given the aggregator
    in that state, then the aggregator is in that state again when
    [separateLpSolution] returns, however many positions were aggregated. *)
Theorem aggregator_is_left_clear (empty : Aggregator) (lp : LpSolver) (cuts : Cuts) :
  (forall a, HighsTableauSeparator.clear a = empty) ->
  snd (fst (HighsTableauSeparator.separateLpSolution lp empty cuts)) = empty.
Proof.
  intros Hclear. unfold HighsTableauSeparator.separateLpSolution.
  destruct (HighsTableauSeparator.getBasicVariables lp _) as [lpa binds].
  cbv zeta. simpl snd.
  set (st0 := HighsTableauSeparator.mkLoop lpa empty _ _ _ _ _).
  assert (HighsTableauSeparator.lpAggregator st0 = empty) as H0 by reflexivity.
  revert H0. generalize st0. clear st0.
  induction (map Z.of_nat (seq 0 (Z.to_nat (HighsTableauSeparator.numRows lp))))
    as [|i l IH]; intros st Hst; simpl; [exact Hst|].
  apply IH. apply position_clear; assumption.
Qed.

(** X19: rows of small weight are left out of the aggregation.  The inner
    loop adds to the aggregator exactly the rows of the inverse row whose
    weight fails the test [|weight| <= epsilon], in their order, each with
    its weight. *)
Theorem small_weights_are_not_aggregated
        (rw : list double) (rows : list Z) (agg : Aggregator) :
  fold_left (HighsTableauSeparator.add_weighted_row rw) rows agg
  = fold_left (fun a row => HighsTableauSeparator.addRow a row (getd rw row))
              (filter (fun row =>
                         negb (PrimFloat.leb (PrimFloat.abs (getd rw row))
                                             HighsTableauSeparator.epsilon))
                      rows)
              agg.
Proof.
  revert agg. induction rows as [|row rows IH]; intros agg; simpl; [reflexivity|].
  unfold HighsTableauSeparator.add_weighted_row at 2.
  destruct (PrimFloat.leb (PrimFloat.abs (getd rw row)) HighsTableauSeparator.epsilon);
    simpl; apply IH.
Qed.

End SeparatorProperties.

(** * The solver on the sample instances *)

#[local] Existing Instance Sample.types.
#[local] Existing Instance Sample.collaborators.

(** Two lists of doubles with different heads are different. *)
Lemma head_differs (a b : double) (l l' : list double) :
  PrimFloat.eqb a b = false -> PrimFloat.eqb a a = true -> a :: l <> b :: l'.
Proof.
  intros Hab Haa H. injection H as H _. rewrite <- H, Haa in Hab. discriminate.
Qed.

(** The unbounded ray, solved: the first iteration takes the infinite step
    without a blocking constraint and goes on; the second finds no active
    bound to price and the solve ends Optimal at [x = +infinity]. *)
Example ray_solve_reports_optimal :
  exists s,
    solve 5 (Sample.ray_runtime 10) Sample.origin Sample.no_rows Sample.at_bound
    = Finished s
    /\ status (runtime s) = OPTIMAL
    /\ value (primal (runtime s)) = [double_infinity]
    /\ num_iterations (statistics (runtime s)) = 2.
Proof.
  eexists. split; [vm_compute; reflexivity|].
  do 2 (split; [vm_compute; reflexivity|]).
  vm_compute. reflexivity.
Qed.

(** The first iteration of the ray instance at its ratio test: the
    direction is flagged, the step length is infinite, no constraint blocks
    and the ratio test returns an infinite step; the iteration goes on with
    the status it had. *)
Lemma unbounded_ray_not_reported_witness :
  snd (major_update Sample.ray_major) = true
  /\ snd (fst (major_update Sample.ray_major)) = double_infinity
  /\ no_move Sample.ray_at_step double_infinity = false
  /\ limitingconstraint (stepres_of Sample.ray_at_step double_infinity) = -1
  /\ alpha (stepres_of Sample.ray_at_step double_infinity) = double_infinity
  /\ (step Sample.ray_at_step double_infinity true
      = Go (advance (unblocked Sample.ray_at_step
                               (stepres_of Sample.ray_at_step double_infinity))
                    (stepres_of Sample.ray_at_step double_infinity))
      /\ status (runtime (advance (unblocked Sample.ray_at_step
                                             (stepres_of Sample.ray_at_step double_infinity))
                                  (stepres_of Sample.ray_at_step double_infinity)))
         = status (runtime Sample.ray_at_step)
      /\ atfsep (advance (unblocked Sample.ray_at_step
                                    (stepres_of Sample.ray_at_step double_infinity))
                         (stepres_of Sample.ray_at_step double_infinity)) = true).
Proof.
  do 5 (split; [vm_compute; reflexivity|]).
  apply (@unbounded_ray_not_reported Sample.types Sample.collaborators);
    vm_compute; reflexivity.
Defined.

(** The pair instance with iteration limit 0, left by the iteration-limit
    check with one of two bounds active.  The solve returns with status
    IterationLimit; the code after the loop writes the dual 1 of the active
    bound into [dualvar[1]], leaves [dualvar[0]] as it is, and leaves the
    point, the active set not being full. *)
Lemma limit_exit_then_finish_witness :
  solve_loop 1 (solve_init (Sample.pair_runtime 0) Sample.on_edge Sample.no_rows
                           Sample.y_bound)
  = Finished Sample.edge_exit
  /\ loop_body (Sample.edge_start 0) = Stop Sample.edge_exit
  /\ getactive (basis Sample.edge_exit) = [1]
  /\ num_var (instance (runtime Sample.edge_exit)) = 2
  /\ value (dualvar (runtime Sample.edge_exit)) = [0%float; 0%float]
  /\ value (dualvar (runtime (finish Sample.edge_exit))) = [0%float; 1%float]
  /\ solve 1 (Sample.pair_runtime 0) Sample.on_edge Sample.no_rows Sample.y_bound
     = Finished (finish Sample.edge_exit)
  /\ status (runtime Sample.edge_exit) = ITERATIONLIMIT
  /\ status (runtime (finish Sample.edge_exit)) = status (runtime Sample.edge_exit)
  /\ primal (runtime (finish Sample.edge_exit)) = primal (runtime Sample.edge_exit)
  /\ getd (value (dualvar (runtime (finish Sample.edge_exit))))
          (1 - num_con (instance (runtime Sample.edge_exit)))
     = getd (value (snd (getReducedCosts (fire (loginformation Sample.edge_exit)))))
            (geti (getindexinfactor (basis Sample.edge_exit)) 1)
  /\ getd (value (dualvar (runtime (finish Sample.edge_exit)))) 0
     = getd (value (dualvar (runtime Sample.edge_exit))) 0.
Proof.
  assert (solve_loop 1 (solve_init (Sample.pair_runtime 0) Sample.on_edge Sample.no_rows
                                   Sample.y_bound)
          = Finished Sample.edge_exit) as Hl by (vm_compute; reflexivity).
  assert (loop_body (Sample.edge_start 0) = Stop Sample.edge_exit) as Ht
    by (vm_compute; reflexivity).
  destruct (@limit_exit_then_finish Sample.types Sample.collaborators 1
              (Sample.pair_runtime 0) Sample.on_edge Sample.no_rows Sample.y_bound
              (Sample.edge_start 0) Sample.edge_exit Hl Ht)
    as (Hsolve & Hil & _ & Hst & Hpr & _ & Hdual & Hdv & _).
  split; [exact Hl|]. split; [exact Ht|].
  do 4 (split; [vm_compute; reflexivity|]).
  split; [exact Hsolve|].
  split; [apply Hil; vm_compute; intros Hd; discriminate Hd|].
  split; [exact Hst|].
  split; [apply Hpr; vm_compute; intros Hd; discriminate Hd|].
  split.
  - destruct (Hdual 1 (or_introl eq_refl)) as [Hvar _].
    apply Hvar; [vm_compute; intros Hd; discriminate Hd | vm_compute; reflexivity].
  - apply Hdv. intros e [<- | []] _. vm_compute. intros Hd. discriminate Hd.
Defined.

(** C2, refuted as stated: the loop is left by the iteration limit, and the
    code after the loop then changes the point (from [2^-30] to the vertex
    0) and the dual of the active bound (from 0 to -1). *)
Lemma limit_exit_changes_primal_and_duals :
  loop_body (solve_init (Sample.ray_runtime 0) Sample.near_vertex Sample.no_rows
                        Sample.at_bound)
  = Stop Sample.limit_exit
  /\ status (runtime Sample.limit_exit) = ITERATIONLIMIT
  /\ value (primal (runtime Sample.limit_exit)) = [0x1p-30%float]
  /\ value (primal (runtime (finish Sample.limit_exit))) = [0%float]
  /\ value (dualvar (runtime Sample.limit_exit)) = [0%float]
  /\ value (dualvar (runtime (finish Sample.limit_exit))) = [(-1)%float]
  /\ value (primal (runtime (finish Sample.limit_exit)))
     <> value (primal (runtime Sample.limit_exit))
  /\ value (dualvar (runtime (finish Sample.limit_exit)))
     <> value (dualvar (runtime Sample.limit_exit)).
Proof.
  assert (value (primal (runtime Sample.limit_exit)) = [0x1p-30%float]) as E1
    by (vm_compute; reflexivity).
  assert (value (primal (runtime (finish Sample.limit_exit))) = [0%float]) as E2
    by (vm_compute; reflexivity).
  assert (value (dualvar (runtime Sample.limit_exit)) = [0%float]) as E3
    by (vm_compute; reflexivity).
  assert (value (dualvar (runtime (finish Sample.limit_exit))) = [(-1)%float]) as E4
    by (vm_compute; reflexivity).
  do 2 (split; [vm_compute; reflexivity|]).
  repeat split; try assumption.
  - rewrite E1, E2. apply head_differs; vm_compute; reflexivity.
  - rewrite E3, E4. apply head_differs; vm_compute; reflexivity.
Qed.

(** The second iteration of the ray instance: no bound is active any more,
    pricing returns -1 and the loop is left with status Optimal. *)
Lemma optimal_when_pricing_finds_none_witness :
  atfsep Sample.ray_second = true
  /\ check_limits Sample.ray_second = Go Sample.ray_second_checked
  /\ report Sample.ray_second_checked = Go Sample.ray_second_counted
  /\ getactive (basis Sample.ray_second_counted) = []
  /\ snd (priced Sample.ray_second_counted) = -1
  /\ (loop_body Sample.ray_second
      = Stop (with_status (fst (priced Sample.ray_second_counted)) OPTIMAL)
      /\ status (runtime (with_status (fst (priced Sample.ray_second_counted)) OPTIMAL))
         = OPTIMAL
      /\ basis (fst (priced Sample.ray_second_counted)) = basis Sample.ray_second
      /\ factor (fst (priced Sample.ray_second_counted)) = factor Sample.ray_second
      /\ redgrad (fst (priced Sample.ray_second_counted)) = redgrad Sample.ray_second
      /\ primal (runtime (fst (priced Sample.ray_second_counted)))
         = primal (runtime Sample.ray_second)
      /\ rowactivity (runtime (fst (priced Sample.ray_second_counted)))
         = rowactivity (runtime Sample.ray_second)).
Proof.
  do 5 (split; [vm_compute; reflexivity|]).
  apply (@optimal_when_pricing_finds_none Sample.types Sample.collaborators
           Sample.ray_second Sample.ray_second_checked Sample.ray_second_counted);
    vm_compute; reflexivity.
Defined.

(** The interior instance with iteration limit 0: the crash basis is not
    full and the crash point is returned. *)
Lemma iteration_limit_zero_witness :
  iterationlimit (settings (Sample.interior_start 0).(runtime)) = 0
  /\ exists s,
       solve 1 (Sample.convex_runtime 0) Sample.interior Sample.no_rows Sample.free
       = Finished s
       /\ status (runtime s) = ITERATIONLIMIT
       /\ primal (runtime s) = Sample.interior.
Proof.
  split; [reflexivity|].
  destruct (@iteration_limit_zero Sample.types Sample.collaborators 0
              (Sample.convex_runtime 0) Sample.interior Sample.no_rows Sample.free)
    as (Hs & Hst & Hx & _); [reflexivity | simpl; lia |].
  eexists. split; [exact Hs|]. split; [exact Hst|].
  apply Hx. vm_compute. discriminate.
Defined.

(** C4, refuted as stated: with iteration limit 0 and a full crash basis the
    solve ends with IterationLimit, and the returned point is the
    recomputed vertex 0, not the crash point [2^-30]. *)
Lemma iteration_limit_zero_moves_primal :
  exists s,
    solve 1 (Sample.ray_runtime 0) Sample.near_vertex Sample.no_rows Sample.at_bound
    = Finished s
    /\ iterationlimit (settings (Sample.ray_runtime 0)) = 0
    /\ status (runtime s) = ITERATIONLIMIT
    /\ value (primal (runtime s)) = [0%float]
    /\ value Sample.near_vertex = [0x1p-30%float]
    /\ primal (runtime s) <> Sample.near_vertex.
Proof.
  eexists. split; [vm_compute; reflexivity|].
  do 4 (split; [vm_compute; reflexivity|]).
  intros H. apply (f_equal value) in H. vm_compute in H.
  revert H. apply head_differs; vm_compute; reflexivity.
Qed.

(** The first iteration of the ray instance: the curvature is 0. *)
Lemma zero_curvature_skips_factor_expand_witness :
  snd (curvature (fst (curvature Sample.ray_major))) = 0%float
  /\ (major_update Sample.ray_major
      = (with_redgrad (fst (curvature (fst (curvature Sample.ray_major))))
           (ReducedGradient_expand (fst (curvature (fst (curvature Sample.ray_major))))
              (buffer_yp (fst (curvature (fst (curvature Sample.ray_major)))))),
         double_infinity, true)
      /\ factor (fst (fst (major_update Sample.ray_major))) = factor Sample.ray_major
      /\ redgrad (fst (fst (major_update Sample.ray_major)))
         = ReducedGradient_expand (fst (curvature (fst (curvature Sample.ray_major))))
             (buffer_yp (fst (curvature (fst (curvature Sample.ray_major)))))).
Proof.
  split; [vm_compute; reflexivity|].
  apply (@zero_curvature_skips_factor_expand Sample.types Sample.collaborators
           Sample.ray_major).
  vm_compute. reflexivity.
Defined.

(** C5, refuted as stated: in the first iteration of the ray instance the
    curvature is exactly 0, the direction is flagged and the step length is
    infinite, the factor is not expanded (it covers 0 dimensions before and
    after), and yet the reduced gradient is expanded (from 0 dimensions to
    1). *)
Lemma zero_curvature_still_expands_reduced_gradient :
  at_vertex Sample.ray_counted
  = Go (major_update Sample.ray_major)
  /\ snd (curvature Sample.ray_major) = 0%float
  /\ snd (major_update Sample.ray_major) = true
  /\ snd (fst (major_update Sample.ray_major)) = double_infinity
  /\ factor Sample.ray_major = 0
  /\ factor (fst (fst (major_update Sample.ray_major))) = 0
  /\ redgrad Sample.ray_major = 0
  /\ redgrad (fst (fst (major_update Sample.ray_major))) = 1
  /\ redgrad (fst (fst (major_update Sample.ray_major))) <> redgrad Sample.ray_major.
Proof.
  do 8 (split; [vm_compute; reflexivity|]).
  vm_compute. discriminate.
Qed.

(** The first iteration of the interior instance, which starts out of the
    [atfsep] state: the bound blocks the step and is activated, the active
    set is then full, and the flag is the one the iteration started with. *)
Lemma atfsep_transitions_witness :
  check_limits (Sample.interior_start 10) = Go Sample.interior_checked
  /\ report Sample.interior_checked = Go Sample.interior_counted
  /\ direction Sample.interior_counted = Go (Sample.interior_at_step, 1%float, false)
  /\ loop_body (Sample.interior_start 10) = Go Sample.interior_second
  /\ no_move Sample.interior_at_step 1%float = false
  /\ limitingconstraint (stepres_of Sample.interior_at_step 1%float) = 0
  /\ getnumactive (basis Sample.interior_second) = 1
  /\ atfsep (Sample.interior_start 10) = false
  /\ atfsep Sample.interior_at_step = atfsep (Sample.interior_start 10)
  /\ atfsep Sample.interior_second
     = (if getnumactive (basis Sample.interior_second)
           =? num_var (instance (runtime Sample.interior_second))
        then atfsep (Sample.interior_start 10) else false).
Proof.
  assert (check_limits (Sample.interior_start 10) = Go Sample.interior_checked) as Hc
    by (vm_compute; reflexivity).
  assert (report Sample.interior_checked = Go Sample.interior_counted) as Hr
    by (vm_compute; reflexivity).
  assert (direction Sample.interior_counted = Go (Sample.interior_at_step, 1%float, false))
    as Hd by (vm_compute; reflexivity).
  assert (loop_body (Sample.interior_start 10) = Go Sample.interior_second) as Hb
    by (vm_compute; reflexivity).
  destruct (@atfsep_transitions Sample.types Sample.collaborators
              (Sample.convex_runtime 10) Sample.interior Sample.no_rows Sample.free
              _ _ _ _ _ _ _ Hc Hr Hd Hb) as (Hinit & Hkeep & Hnext).
  split; [exact Hc|]. split; [exact Hr|]. split; [exact Hd|]. split; [exact Hb|].
  do 3 (split; [vm_compute; reflexivity|]).
  split; [exact Hinit|]. split; [exact Hkeep|].
  exact Hnext.
Defined.

(** C6, refuted as stated.  On the descent instance the first iteration
    drops the bound and takes the finite step 1 that nothing blocks: the
    second iteration starts in the [atfsep] state with no active index,
    [num_var] being 1.  On the interior instance the first iteration
    activates the blocking bound, the active set is then full (1 of 1), and
    the second iteration still starts out of the [atfsep] state. *)
Lemma atfsep_is_not_full_active_set :
  loop_body (Sample.descent_start 10) = Go Sample.descent_second
  /\ alpha (stepres_of Sample.descent_at_step 1%float) = 1%float
  /\ limitingconstraint (stepres_of Sample.descent_at_step 1%float) = -1
  /\ atfsep Sample.descent_second = true
  /\ getnumactive (basis Sample.descent_second) = 0
  /\ num_var (instance (runtime Sample.descent_second)) = 1
  /\ loop_body (Sample.interior_start 10) = Go Sample.interior_second
  /\ limitingconstraint (stepres_of Sample.interior_at_step 1%float) = 0
  /\ atfsep Sample.interior_second = false
  /\ getnumactive (basis Sample.interior_second) = 1
  /\ num_var (instance (runtime Sample.interior_second)) = 1.
Proof.
  do 10 (split; [vm_compute; reflexivity|]).
  vm_compute. reflexivity.
Qed.

(** [reduce] on three sample states.  With the row [x - 3 y] entering, which
    is not inactive, the projected column is [(1, -3)]: the scan ends on
    position 1 and the constraint to drop is the inactive index there, the
    bound 2.  With the flat row entering, the scan ends on position 1 too,
    and its entry [2^-35] is below the threshold [2^-30]: the process is
    ended.  On the interior instance the entering bound 0 is inactive, at
    position 0: it is the constraint to drop. *)
Lemma reduce_aborts_or_selects_max_witness :
  (indexof (getinactive (basis Sample.steep_row)) 0 = -1
   /\ getinactive (basis (reduce_direction Sample.steep_row 0)) = [1; 2]
   /\ value (buffer_d (reduce_direction Sample.steep_row 0)) = [1%float; (-3)%float]
   /\ reduce Sample.steep_row 0 = Stop (reduce_direction Sample.steep_row 0, 1, 2)
   /\ In 2 (getinactive (basis (reduce_direction Sample.steep_row 0)))
   /\ no_larger (buffer_d (reduce_direction Sample.steep_row 0)) 1)
  /\ (indexof (getinactive (basis Sample.flat_row)) 0 = -1
      /\ getinactive (basis (reduce_direction Sample.flat_row 0)) = [1; 2]
      /\ value (buffer_d (reduce_direction Sample.flat_row 0))
         = [0x1p-40%float; 0x1p-35%float]
      /\ maxabsd_scan (buffer_d (reduce_direction Sample.flat_row 0)) = 1
      /\ reduce Sample.flat_row 0 = Exit 1)
  /\ (indexof (getinactive (basis Sample.interior_at_step)) 0 = 0
      /\ reduce Sample.interior_at_step 0
         = Stop (with_buffer_d Sample.interior_at_step
                   (Vector_unit 1 0 (buffer_d Sample.interior_at_step)), 0, 0)
      /\ geti (getinactive (basis Sample.interior_at_step)) 0 = 0).
Proof.
  split; [|split].
  - do 3 (split; [vm_compute; reflexivity|]).
    destruct (@reduce_aborts_or_selects_max Sample.types Sample.collaborators
                Sample.steep_row 0) as (_ & _ & H & _).
    destruct H as (Hr & Hin & Hno & _).
    + vm_compute. reflexivity.
    + vm_compute. split; [intros Hd; discriminate Hd | reflexivity].
    + vm_compute. reflexivity.
    + split; [exact Hr | split; [exact Hin | exact Hno]].
  - do 4 (split; [vm_compute; reflexivity|]).
    destruct (@reduce_aborts_or_selects_max Sample.types Sample.collaborators
                Sample.flat_row 0) as (_ & H & _).
    destruct H as (Hr & _).
    + vm_compute. reflexivity.
    + vm_compute. split; [intros Hd; discriminate Hd | reflexivity].
    + vm_compute. reflexivity.
    + exact Hr.
  - split; [vm_compute; reflexivity|].
    destruct (@reduce_aborts_or_selects_max Sample.types Sample.collaborators
                Sample.interior_at_step 0) as (_ & _ & _ & H).
    destruct H as (Hr & Hg & _); [vm_compute; discriminate|].
    split; [exact Hr | exact Hg].
Defined.

(** The code after the loop on the ray instance left by the iteration
    limit: the dual of the active bound 0 is the reduced cost -1, and the
    point is recomputed, the active set being full. *)
Lemma finish_recovers_duals_and_primal_witness :
  getactive (basis Sample.limit_exit) = [0]
  /\ getd (value (snd (getReducedCosts (fire (loginformation Sample.limit_exit)))))
          (geti (getindexinfactor (basis Sample.limit_exit)) 0) = (-1)%float
  /\ getd (value (dualvar (runtime (finish Sample.limit_exit)))) (0 - 0)
     = getd (value (snd (getReducedCosts (fire (loginformation Sample.limit_exit)))))
            (geti (getindexinfactor (basis Sample.limit_exit)) 0)
  /\ primal (runtime (finish Sample.limit_exit))
     = Basis_recomputex (recover_duals Sample.limit_exit)
                        (instance (runtime Sample.limit_exit)).
Proof.
  do 2 (split; [vm_compute; reflexivity|]).
  destruct (@finish_recovers_duals_and_primal Sample.types Sample.collaborators
              Sample.limit_exit) as (Hd & Hfull & _).
  split.
  - apply (Hd 0); [left; reflexivity | simpl; lia | vm_compute; reflexivity].
  - apply Hfull. vm_compute. reflexivity.
Defined.

(** The literals [x3] and [not x3] share the column 3: the answer is false
    and the search is not run, although it would report a clique; for the
    columns 3 and 4 the search is run. *)
Lemma haveCommonClique_same_col_witness :
  HighsCliqueTable.haveCommonClique HighsCliqueTable.always_found (HighsCliqueTable.mkTable 0 tt)
    (HighsCliqueTable.mkCliqueVar 3 1) (HighsCliqueTable.mkCliqueVar 3 0)
  = (false, HighsCliqueTable.mkTable 0 tt)
  /\ HighsCliqueTable.haveCommonClique_counted HighsCliqueTable.always_found 5
       (HighsCliqueTable.mkTable 0 tt)
       (HighsCliqueTable.mkCliqueVar 3 1) (HighsCliqueTable.mkCliqueVar 3 0)
     = (false, 5, HighsCliqueTable.mkTable 0 tt)
  /\ HighsCliqueTable.haveCommonClique HighsCliqueTable.always_found (HighsCliqueTable.mkTable 0 tt)
       (HighsCliqueTable.mkCliqueVar 3 1)
       (HighsCliqueTable.complement (HighsCliqueTable.mkCliqueVar 3 1))
     = (false, HighsCliqueTable.mkTable 0 tt)
  /\ HighsCliqueTable.haveCommonClique HighsCliqueTable.always_found (HighsCliqueTable.mkTable 0 tt)
       (HighsCliqueTable.mkCliqueVar 3 1) (HighsCliqueTable.mkCliqueVar 4 1)
     = (true, HighsCliqueTable.mkTable 1 tt).
Proof.
  destruct (haveCommonClique_same_col unit HighsCliqueTable.always_found (HighsCliqueTable.mkTable 0 tt) 5
              (HighsCliqueTable.mkCliqueVar 3 1) (HighsCliqueTable.mkCliqueVar 3 0)
              eq_refl) as (H1 & H2 & H3).
  split; [exact H1 | split; [exact H2 | split]].
  - apply H3. unfold HighsCliqueTable.wf. simpl. lia.
  - reflexivity.
Defined.

(** * The further properties on the sample instances *)

(** The ray instance is allowed 11 passes for its iteration limit of 10. *)
Lemma solve_ends_within_iteration_limit_witness :
  Z.max 0 (iterationlimit (settings (Sample.ray_runtime 10))
           - num_iterations (statistics (Sample.ray_runtime 10)))
  < Z.of_nat 11
  /\ solve 11 (Sample.ray_runtime 10) Sample.origin Sample.no_rows Sample.at_bound
     <> OutOfFuel.
Proof.
  split; [vm_compute; reflexivity|].
  apply (@solve_ends_within_iteration_limit Sample.types Sample.collaborators).
  vm_compute. reflexivity.
Defined.

(** The loop of the ray instance is left after two iterations. *)
Lemma iterations_never_pass_the_limit_witness :
  solve_loop 5 (Sample.ray_start 10) = Finished Sample.ray_finished
  /\ num_iterations (statistics (runtime Sample.ray_finished)) = 2
  /\ (num_iterations (statistics (runtime (Sample.ray_start 10)))
      <= num_iterations (statistics (runtime Sample.ray_finished))
      /\ num_iterations (statistics (runtime Sample.ray_finished))
         <= iterationlimit (settings (runtime Sample.ray_finished))
      /\ num_iterations (statistics (runtime Sample.ray_finished))
         <= num_iterations (statistics (runtime (Sample.ray_start 10))) + Z.of_nat 5).
Proof.
  split; [vm_compute; reflexivity|].
  split; [vm_compute; reflexivity|].
  apply (@iterations_never_pass_the_limit Sample.types Sample.collaborators 5
           (Sample.ray_start 10) Sample.ray_finished).
  - vm_compute. reflexivity.
  - vm_compute. intros Hd. discriminate Hd.
Defined.

(** The loop of the ray instance is left with status Optimal. *)
Lemma loop_exit_status_witness :
  solve_loop 5 (Sample.ray_start 10) = Finished Sample.ray_finished
  /\ (status (runtime Sample.ray_finished) = ITERATIONLIMIT
      \/ status (runtime Sample.ray_finished) = TIMELIMIT
      \/ status (runtime Sample.ray_finished) = OPTIMAL).
Proof.
  split; [vm_compute; reflexivity|].
  apply (@loop_exit_status Sample.types Sample.collaborators 5 (Sample.ray_start 10)).
  vm_compute. reflexivity.
Defined.

(** The solve of the ray instance returns the instance and settings it was
    given. *)
Lemma solve_keeps_instance_and_settings_witness :
  solve 5 (Sample.ray_runtime 10) Sample.origin Sample.no_rows Sample.at_bound
  = Finished Sample.ray_solved
  /\ (instance (runtime Sample.ray_solved) = instance (Sample.ray_runtime 10)
      /\ settings (runtime Sample.ray_solved) = settings (Sample.ray_runtime 10)).
Proof.
  split; [vm_compute; reflexivity|].
  apply (@solve_keeps_instance_and_settings Sample.types Sample.collaborators 5
           (Sample.ray_runtime 10) Sample.origin Sample.no_rows Sample.at_bound).
  vm_compute. reflexivity.
Defined.

(** The solve of the ray instance starts with empty series and returns
    series of three entries each: two iterations logged, and the entry after
    the loop. *)
Lemma solve_keeps_statistics_aligned_witness :
  aligned (statistics (Sample.ray_runtime 10)) 0
  /\ solve 5 (Sample.ray_runtime 10) Sample.origin Sample.no_rows Sample.at_bound
     = Finished Sample.ray_solved
  /\ aligned (statistics (runtime Sample.ray_solved)) 3
  /\ exists m, (0 < m)%nat /\ aligned (statistics (runtime Sample.ray_solved)) m.
Proof.
  assert (aligned (statistics (Sample.ray_runtime 10)) 0) as Ha
    by (unfold aligned; simpl; tauto).
  split; [exact Ha|].
  split; [vm_compute; reflexivity|].
  split; [unfold aligned; vm_compute; tauto|].
  apply (@solve_keeps_statistics_aligned Sample.types Sample.collaborators 5
           (Sample.ray_runtime 10) Sample.origin Sample.no_rows Sample.at_bound
           Sample.ray_solved 0 Ha).
  vm_compute. reflexivity.
Defined.

(** The direction 5 along the variable whose bound is active is set to 0. *)
Lemma tidyup_zeroes_active_entries_witness :
  getactive (basis Sample.untidy) = [0]
  /\ value (p Sample.untidy) = [5%float]
  /\ getd (value (p (tidyup Sample.untidy)))
          (0 - num_con (instance (runtime Sample.untidy))) = PrimFloat.zero.
Proof.
  split; [reflexivity|]. split; [reflexivity|].
  assert (0 <= num_con (instance (runtime Sample.untidy)) < 2 ^ 32) as Hn
    by (change (num_con (instance (runtime Sample.untidy))) with 0;
        split; [lia | reflexivity]).
  assert (forall e, In e (getactive (basis Sample.untidy)) -> 0 <= e < 2 ^ 32) as Hact
    by (intros e He; vm_compute in He; destruct He as [He | []]; subst e;
        split; [lia | reflexivity]).
  destruct (@tidyup_zeroes_active_entries Sample.types Sample.collaborators Sample.untidy
              Hn Hact) as (H & _).
  destruct (H 0 (or_introl eq_refl)) as [Hp _].
  apply Hp; [vm_compute; intros Hd; discriminate Hd | vm_compute; reflexivity].
Defined.

(** The first iteration of the ray instance: the factor covers no dimension
    before and after. *)
Lemma zero_curvature_iteration_keeps_factor_witness :
  major_update Sample.ray_major = (Sample.ray_at_step, double_infinity, true)
  /\ step Sample.ray_at_step double_infinity true = Go Sample.ray_second
  /\ factor Sample.ray_second = factor Sample.ray_major.
Proof.
  assert (major_update Sample.ray_major = (Sample.ray_at_step, double_infinity, true))
    as Hm by (vm_compute; reflexivity).
  assert (step Sample.ray_at_step double_infinity true = Go Sample.ray_second) as Hs
    by (vm_compute; reflexivity).
  split; [exact Hm | split; [exact Hs|]].
  exact (@zero_curvature_iteration_keeps_factor Sample.types Sample.collaborators
           _ _ _ _ Hm Hs).
Defined.

(** The convex instance with the direction 1 at the bound: the curvature is
    1, the product with the gradient 1.  The factor and the reduced gradient
    grow from 0 dimensions to 1, and the step only sets the flag. *)
Lemma ascent_direction_takes_no_step_witness :
  snd (curvature (fst (curvature Sample.ascent_state))) = 1%float
  /\ factor Sample.ascent_state = 0
  /\ redgrad Sample.ascent_state = 0
  /\ factor (fst (fst (major_update Sample.ascent_state))) = 1
  /\ redgrad (fst (fst (major_update Sample.ascent_state))) = 1
  /\ snd (fst (major_update Sample.ascent_state)) = PrimFloat.zero
  /\ snd (major_update Sample.ascent_state) = false
  /\ step (fst (fst (major_update Sample.ascent_state))) PrimFloat.zero false
     = Go (with_atfsep (fst (fst (major_update Sample.ascent_state))) true)
  /\ basis (fst (fst (major_update Sample.ascent_state))) = basis Sample.ascent_state
  /\ runtime (fst (fst (major_update Sample.ascent_state))) = runtime Sample.ascent_state.
Proof.
  do 5 (split; [vm_compute; reflexivity|]).
  destruct (@ascent_direction_takes_no_step Sample.types Sample.collaborators
              Sample.ascent_state) as (Hm & Hs & Hb & Hr);
    [vm_compute; reflexivity | vm_compute; reflexivity |].
  rewrite Hm. cbn [fst snd].
  split; [reflexivity|]. split; [reflexivity|].
  split; [exact Hs|]. split; [exact Hb | exact Hr].
Defined.

(** The literal [x3]. *)
Lemma complement_involutive_witness :
  HighsCliqueTable.wf (HighsCliqueTable.mkCliqueVar 3 1)
  /\ HighsCliqueTable.complement (HighsCliqueTable.mkCliqueVar 3 1)
     = HighsCliqueTable.mkCliqueVar 3 0
  /\ HighsCliqueTable.complement
       (HighsCliqueTable.complement (HighsCliqueTable.mkCliqueVar 3 1))
     = HighsCliqueTable.mkCliqueVar 3 1.
Proof.
  assert (HighsCliqueTable.wf (HighsCliqueTable.mkCliqueVar 3 1)) as Hwf
    by (unfold HighsCliqueTable.wf; simpl; lia).
  split; [exact Hwf | split; [reflexivity|]].
  destruct (complement_involutive (HighsCliqueTable.mkCliqueVar 3 1) [] Hwf)
    as (_ & H & _).
  exact H.
Defined.

(** The literals [x3] and [not x3]: the indices 7 and 6. *)
Lemma literal_equality_witness :
  HighsCliqueTable.index (HighsCliqueTable.mkCliqueVar 3 1) = 7
  /\ HighsCliqueTable.index (HighsCliqueTable.mkCliqueVar 3 0) = 6
  /\ HighsCliqueTable.CliqueVar_eqb (HighsCliqueTable.mkCliqueVar 3 1)
       (HighsCliqueTable.complement (HighsCliqueTable.mkCliqueVar 3 1)) = false
  /\ HighsCliqueTable.CliqueVar_new
       (HighsCliqueTable.index (HighsCliqueTable.mkCliqueVar 3 1) / 2)
       (HighsCliqueTable.index (HighsCliqueTable.mkCliqueVar 3 1) mod 2)
     = HighsCliqueTable.mkCliqueVar 3 1.
Proof.
  split; [reflexivity | split; [reflexivity|]].
  destruct (literal_equality (HighsCliqueTable.mkCliqueVar 3 1)
                             (HighsCliqueTable.mkCliqueVar 3 0))
    as (_ & H1 & _ & _ & H2);
    try (unfold HighsCliqueTable.wf; simpl; lia).
  split; [exact H1 | exact H2].
Defined.

(** The literals [x3] and [x4] with the search that reports clique 7, in a
    store whose clique 7 holds the entries 20 to 22. *)
Lemma common_clique_is_found_witness :
  HighsCliqueTable.haveCommonClique HighsCliqueTable.always_found
    (HighsCliqueTable.mkTable 0 tt)
    (HighsCliqueTable.mkCliqueVar 3 1) (HighsCliqueTable.mkCliqueVar 4 1)
  = (true, HighsCliqueTable.mkTable 1 tt)
  /\ HighsCliqueTable.findCommonClique HighsCliqueTable.always_found
       HighsCliqueTable.sample_cliques (HighsCliqueTable.mkTable 0 tt)
       (HighsCliqueTable.mkCliqueVar 3 1) (HighsCliqueTable.mkCliqueVar 4 1)
     = ((Some 20, 3), HighsCliqueTable.mkTable 1 tt).
Proof.
  assert (HighsCliqueTable.haveCommonClique HighsCliqueTable.always_found
            (HighsCliqueTable.mkTable 0 tt)
            (HighsCliqueTable.mkCliqueVar 3 1) (HighsCliqueTable.mkCliqueVar 4 1)
          = (true, HighsCliqueTable.mkTable 1 tt)) as Hh by reflexivity.
  split; [exact Hh|].
  assert (HighsCliqueTable.wf (HighsCliqueTable.mkCliqueVar 3 1)) as Hw1
    by (unfold HighsCliqueTable.wf; simpl; lia).
  assert (HighsCliqueTable.wf (HighsCliqueTable.mkCliqueVar 4 1)) as Hw2
    by (unfold HighsCliqueTable.wf; simpl; lia).
  assert (HighsCliqueTable.col (HighsCliqueTable.mkCliqueVar 3 1) < 2 ^ 30) as Hc1
    by (simpl; lia).
  assert (HighsCliqueTable.col (HighsCliqueTable.mkCliqueVar 4 1) < 2 ^ 30) as Hc2
    by (simpl; lia).
  destruct (common_clique_is_found unit HighsCliqueTable.always_found
              HighsCliqueTable.sample_cliques _ _ _ _ Hw1 Hw2 Hc1 Hc2 Hh)
    as (clq & Hclq & _ & Hf).
  rewrite Hf. simpl in Hclq. subst clq. reflexivity.
Defined.

(** A table for 4 columns and the literal [x3]: index 7 of 8. *)
Lemma fresh_table_has_room_and_no_cliques_witness :
  HighsCliqueTable.index (HighsCliqueTable.CliqueVar_new 3 1) = 7
  /\ length (HighsCliqueTable.numcliquesvar (HighsCliqueTable.HighsCliqueTable_new 2147483647 4))
     = 8%nat
  /\ HighsCliqueTable.numCliques_of (HighsCliqueTable.HighsCliqueTable_new 2147483647 4) 3 true
     = 0
  /\ HighsCliqueTable.isFull (HighsCliqueTable.HighsCliqueTable_new 2147483647 4) = false.
Proof.
  split; [reflexivity | split; [reflexivity|]].
  destruct (fresh_table_has_room_and_no_cliques 2147483647 4 3 true)
    as (_ & H1 & _ & _ & _ & H2); try lia.
  split; [exact H1 | apply H2; lia].
Defined.

(** The sample relaxation: two column values, and the row value at the
    extended column 2. *)
Lemma solutionValue_concat_witness :
  HighsLpRelaxation.solutionValue bool (HighsLpRelaxation.sample_relaxation false) 2
  = 3%float
  /\ HighsLpRelaxation.solutionValue bool (HighsLpRelaxation.sample_relaxation false) 2
     = getd (HighsLpRelaxation.col_value bool (HighsLpRelaxation.sample_relaxation false)
             ++ HighsLpRelaxation.row_value bool (HighsLpRelaxation.sample_relaxation false))
            2.
Proof.
  split; [reflexivity|].
  apply (solutionValue_concat bool (HighsLpRelaxation.sample_relaxation false) 2);
    [reflexivity | lia].
Defined.

(** With the column continuous and the row not integral nothing is
    generated. *)
Lemma no_fractional_basic_integer_no_cut_witness :
  HighsTableauSeparator.separateLpSolution
    (E := HighsTableauSeparator.continuous_environment) tt [] 0%nat
  = (tt, [], 0%nat).
Proof.
  apply (@no_fractional_basic_integer_no_cut unit (list (Z * double)) nat
           HighsTableauSeparator.continuous_environment tt [] 0%nat).
  intros i Hi. simpl in Hi.
  assert (i = 0 \/ i = 1) as [-> | ->] by lia; reflexivity.
Defined.

(** With the column an integer of value 2.5, row 0 is aggregated, two cuts
    are asked for, and the aggregator is handed back empty. *)
Lemma aggregator_is_left_clear_witness :
  HighsTableauSeparator.separateLpSolution
    (E := HighsTableauSeparator.sample_environment) tt [] 0%nat
  = (tt, [], 2%nat)
  /\ snd (fst (HighsTableauSeparator.separateLpSolution
                 (E := HighsTableauSeparator.sample_environment) tt [] 0%nat))
     = [].
Proof.
  split; [vm_compute; reflexivity|].
  apply (@aggregator_is_left_clear unit (list (Z * double)) nat
           HighsTableauSeparator.sample_environment [] tt 0%nat).
  intros a. reflexivity.
Defined.
